(** * Semantic matching engine of the ai-service

    A shallow embedding of the parts of [apps/ai-service] that the
    specification's claims are about:

    - [utils/preprocessing.py]      ([Preprocessing], [UnicodeText], [Keywords]),
    - [models/credit_assessor.py]    ([CreditAssessor]),
    - [services/vector_store.py]     ([VectorStore]),
    - [services/embeddings.py]       ([Embeddings]),
    - [models/pathway_recommender.py] ([PathwayRecommender]).

    Python values are modelled as follows.  A [str] is a [string] (a list
    of [ascii]; the character classes of [Preprocessing] are the ones of
    the 7-bit range), and in [UnicodeText], where text cleaning is
    embedded a second time, a list of characters of any kind, over an
    interface to the Unicode database of which the 7-bit tables are an
    instance.  A [float] is a binary64 number, Rocq's primitive [float].
    A dict is a [gmap].  A raised exception is the [Raise] case of
    [result]; a method that mutates [self] returns the new state next to
    its result, so that the state left behind by a raise is visible.
    numpy's sorting and linear-algebra primitives are an interface
    ([NumPy]) over the one scalar type of the arrays, with their
    documented contract in parts ([NumPyPerm], [NumPySort],
    [NumPyPartition]), which the float64 instance meets. *)

From Stdlib Require Import ZArith List String Ascii PrimFloat Lia Sorted Permutation.
From Stdlib Require Import FloatOps FloatAxioms SpecFloat.
From stdpp Require Import gmap strings list pretty.

Local Open Scope string_scope.
Local Open Scope list_scope.
Local Open Scope nat_scope.

Set Warnings "-inexact-float".

(** ** Python results and values *)

Module Py.

Inductive exn : Type :=
| ValueError | KeyError | IndexError | TypeError | AttributeError | OverflowError.

Inductive result (A : Type) : Type :=
| Ok (a : A)
| Raise (e : exn).
Arguments Ok {A} a.
Arguments Raise {A} e.

Definition bind {A B} (r : result A) (k : A -> result B) : result B :=
  match r with
  | Ok a => k a
  | Raise e => Raise e
  end.

Definition of_option {A} (e : exn) (o : option A) : result A :=
  match o with
  | Some a => Ok a
  | None => Raise e
  end.

(** [for x in xs: ys.append(f x)], stopping at the first raise. *)
Fixpoint for_each {A B} (f : A -> result B) (xs : list A) : result (list B) :=
  match xs with
  | [] => Ok []
  | x :: xs' =>
      bind (f x) (fun y => bind (for_each f xs') (fun ys => Ok (y :: ys)))
  end.

(** The values a credential, program or metadata dict holds. *)
Inductive pyval : Type :=
| PNone
| PStr (s : string)
| PNum (x : float)
| PStrs (l : list string).

(** [d.get(k, default)] *)
Definition get (d : gmap string pyval) (k : string) (default : pyval) : pyval :=
  match d !! k with
  | Some v => v
  | None => default
  end.

(** [bool(v)] *)
Definition truthy (v : pyval) : bool :=
  match v with
  | PNone => false
  | PStr s => negb (String.eqb s "")
  | PNum x => negb (PrimFloat.eqb x 0)
  | PStrs l => match l with [] => false | _ => true end
  end.

Definition strs_eqb (a b : list string) : bool :=
  (length a =? length b) && forallb (fun p => String.eqb (fst p) (snd p)) (combine a b).

(** [a == b] *)
Definition eqb (a b : pyval) : bool :=
  match a, b with
  | PNone, PNone => true
  | PStr s, PStr t => String.eqb s t
  | PNum x, PNum y => PrimFloat.eqb x y
  | PStrs l, PStrs l' => strs_eqb l l'
  | _, _ => false
  end.

End Py.

Import Py.

Declare Scope py_scope.
Delimit Scope py_scope with py.
Notation "'let*' x := r 'in' k" := (Py.bind r (fun x => k))
  (at level 10, x name, r at level 100, k at level 200) : py_scope.

Abbreviation dict := (gmap string pyval).

(** ** utils/preprocessing.py *)

Module Preprocessing.

Definition code (c : ascii) : nat := nat_of_ascii c.

(** [\s], and the separators of [str.split()], below 128. *)
Definition is_space (c : ascii) : bool :=
  ((9 <=? code c) && (code c <=? 13)) || ((28 <=? code c) && (code c <=? 32)).

(** [\w] below 128: letters, digits and the underscore. *)
Definition is_word (c : ascii) : bool :=
  ((48 <=? code c) && (code c <=? 57))
  || ((65 <=? code c) && (code c <=? 90))
  || (code c =? 95)
  || ((97 <=? code c) && (code c <=? 122)).

Definition lower_char (c : ascii) : ascii :=
  if (65 <=? code c) && (code c <=? 90) then ascii_of_nat (code c + 32) else c.

(** [text.lower()] *)
Definition lower (s : list ascii) : list ascii := map lower_char s.

Definition chars (s : string) : list ascii := list_ascii_of_string s.

(** [s.lower()] on a [str]. *)
Definition lower_str (s : string) : string := string_of_list_ascii (lower (chars s)).

Fixpoint starts_with (p s : list ascii) : bool :=
  match p, s with
  | [] , _ => true
  | a :: p', b :: s' => Ascii.eqb a b && starts_with p' s'
  | _ :: _, [] => false
  end.

(** [p\S] matches at the head of [s]. *)
Definition then_nonspace (p s : list ascii) : bool :=
  starts_with p s
  && match drop (length p) s with
     | c :: _ => negb (is_space c)
     | [] => false
     end.

(** [http\S+|www\.\S+] matches at the head of [s]. *)
Definition url_at (s : list ascii) : bool :=
  then_nonspace (chars "http") s || then_nonspace (chars "www.") s.

(** [re.sub(r'http\S+|www\.\S+', '', text)].  A match starts at the
    first position where the pattern matches and, [\S+] being greedy,
    runs to the end of the run of non-space characters; [skip] says
    that the scan is inside a match. *)
Fixpoint sub_url (skip : bool) (s : list ascii) : list ascii :=
  match s with
  | [] => []
  | c :: s' =>
      if skip then
        if is_space c then c :: sub_url false s' else sub_url true s'
      else if url_at s then sub_url true s'
      else c :: sub_url false s'
  end.

Definition is_at (c : ascii) : bool := Ascii.eqb c "@".

(** The run of non-space characters at the head of [s] holds an [@]
    that is followed by a non-space character. *)
Fixpoint at_inside (s : list ascii) : bool :=
  match s with
  | c :: s' =>
      if is_space c then false
      else (is_at c
            && match s' with d :: _ => negb (is_space d) | [] => false end)
           || at_inside s'
  | [] => false
  end.

Inductive scan : Type := Boundary | Keeping | Skipping.

(** [re.sub(r'\S+@\S+', '', text)].  The pattern matches inside one run
    of non-space characters, and it matches iff the run has an [@] that
    is neither its first nor its last character; the leftmost match
    then starts with the run and, greedy, ends with it.  The decision
    is taken at the start of each run ([Boundary]). *)
Fixpoint sub_email (st : scan) (s : list ascii) : list ascii :=
  match s with
  | [] => []
  | c :: s' =>
      if is_space c then c :: sub_email Boundary s'
      else match st with
           | Skipping => sub_email Skipping s'
           | Keeping => c :: sub_email Keeping s'
           | Boundary =>
               if at_inside s' then sub_email Skipping s'
               else c :: sub_email Keeping s'
           end
  end.

Definition is_kept_punct (c : ascii) : bool :=
  existsb (Ascii.eqb c) (chars ".,!?-").

(** The complement of [[^\w\s.,!?-]]. *)
Definition allowed (c : ascii) : bool :=
  is_word c || is_space c || is_kept_punct c.

(** [re.sub(r'[^\w\s.,!?-]', '', text)] *)
Definition sub_special (s : list ascii) : list ascii := List.filter allowed s.

Definition flush (cur : list ascii) : list (list ascii) :=
  match cur with
  | [] => []
  | _ => [cur]
  end.

(** [text.split()]: the maximal runs of non-space characters; [cur] is
    the run being read. *)
Fixpoint split_go (cur : list ascii) (s : list ascii) : list (list ascii) :=
  match s with
  | [] => flush cur
  | c :: s' =>
      if is_space c then flush cur ++ split_go [] s'
      else split_go (cur ++ [c]) s'
  end.

Definition split (s : list ascii) : list (list ascii) := split_go [] s.

(** [' '.join(ws)] *)
Fixpoint join (ws : list (list ascii)) : list ascii :=
  match ws with
  | [] => []
  | [w] => w
  | w :: ws' => w ++ " "%char :: join ws'
  end.

Definition clean_chars (text : list ascii) : list ascii :=
  match text with
  | [] => []
  | _ =>
      let text := lower text in
      let text := sub_url false text in
      let text := sub_email Boundary text in
      let text := sub_special text in
      join (split text)
  end.

Definition clean_text (text : string) : string :=
  string_of_list_ascii (clean_chars (chars text)).

(** [re.findall(r'\b\w+\b', text)]: the maximal runs of word
    characters. *)
Fixpoint words_go (cur : list ascii) (s : list ascii) : list (list ascii) :=
  match s with
  | [] => flush cur
  | c :: s' =>
      if is_word c then words_go (cur ++ [c]) s'
      else flush cur ++ words_go [] s'
  end.

Definition tokenize (text : string) : list string :=
  map string_of_list_ascii (words_go [] (chars (clean_text text))).

(** [set(tokens)], as the list of distinct tokens. *)
Definition token_set (l : list string) : list string := remove_dups l.

(** [float(n)] of an int that is not negative (exact below 2^53). *)
Fixpoint of_nat (n : nat) : float :=
  match n with
  | O => 0%float
  | S n' => (of_nat n' + 1)%float
  end.

(** Jaccard similarity of the two token sets. *)
Definition calculate_text_similarity (text1 text2 : string) : float :=
  let tokens1 := token_set (tokenize text1) in
  let tokens2 := token_set (tokenize text2) in
  match tokens1, tokens2 with
  | [], _ | _, [] => 0%float
  | _, _ =>
      let intersection := list_intersection tokens1 tokens2 in
      let union := list_union tokens1 tokens2 in
      match union with
      | [] => 0%float
      | _ => (of_nat (length intersection) / of_nat (length union))%float
      end
  end.

(** The 7-bit range, on which the character classes above are Python's. *)
Definition ascii7 (s : string) : Prop := Forall (fun c => code c < 128) (chars s).

(** No match of the URL pattern is left in the text. *)
Definition url_free (s : string) : Prop := sub_url false (chars s) = chars s.

End Preprocessing.

(** ** utils/preprocessing.py: [clean_text] on any text *)

(** [clean_text] once more, on a [str] of arbitrary characters.  What the
    function takes from Python's Unicode database is an interface: the
    code point of a character, the class of white space (the [\s] of
    [re] and what [str.split] splits on, which are the same class), the
    class [\w], and [str.lower].  The patterns name characters of the
    7-bit range only, by their codes.  [Preprocessing] above is the
    instance of the 7-bit texts ([ascii_table] below). *)
Module UnicodeText.

Class Unicode (char : Type) : Type := {
  code : char -> N;                 (* ord(c) *)
  space : char;                     (* ' ' *)
  is_space : char -> bool;          (* c.isspace() *)
  is_word : char -> bool;           (* c.isalnum() or c == '_' *)
  lower : list char -> list char;   (* text.lower() *)
}.

Section Text.
Context {char : Type} `{Unicode char}.

(** [c == a] for a character [a] of a pattern. *)
Definition is_char (a : ascii) (c : char) : bool := (code c =? N_of_ascii a)%N.

Fixpoint starts_with (p : list ascii) (s : list char) : bool :=
  match p, s with
  | [] , _ => true
  | a :: p', b :: s' => is_char a b && starts_with p' s'
  | _ :: _, [] => false
  end.

(** [p\S] matches at the head of [s]. *)
Definition then_nonspace (p : list ascii) (s : list char) : bool :=
  starts_with p s
  && match drop (length p) s with
     | c :: _ => negb (is_space c)
     | [] => false
     end.

(** [http\S+|www\.\S+] matches at the head of [s]. *)
Definition url_at (s : list char) : bool :=
  then_nonspace (Preprocessing.chars "http") s || then_nonspace (Preprocessing.chars "www.") s.

(** [re.sub(r'http\S+|www\.\S+', '', text)]; [skip] says that the scan
    is inside a match, which runs to the end of the run of non-space
    characters. *)
Fixpoint sub_url (skip : bool) (s : list char) : list char :=
  match s with
  | [] => []
  | c :: s' =>
      if skip then
        if is_space c then c :: sub_url false s' else sub_url true s'
      else if url_at s then sub_url true s'
      else c :: sub_url false s'
  end.

Definition is_at (c : char) : bool := is_char "@" c.

(** The run of non-space characters at the head of [s] holds an [@]
    that is followed by a non-space character. *)
Fixpoint at_inside (s : list char) : bool :=
  match s with
  | c :: s' =>
      if is_space c then false
      else (is_at c
            && match s' with d :: _ => negb (is_space d) | [] => false end)
           || at_inside s'
  | [] => false
  end.

(** [re.sub(r'\S+@\S+', '', text)]: a run of non-space characters is
    removed iff it has an [@] that is neither its first nor its last
    character; the decision is taken at the start of each run. *)
Fixpoint sub_email (st : Preprocessing.scan) (s : list char) : list char :=
  match s with
  | [] => []
  | c :: s' =>
      if is_space c then c :: sub_email Preprocessing.Boundary s'
      else match st with
           | Preprocessing.Skipping => sub_email Preprocessing.Skipping s'
           | Preprocessing.Keeping => c :: sub_email Preprocessing.Keeping s'
           | Preprocessing.Boundary =>
               if at_inside s' then sub_email Preprocessing.Skipping s'
               else c :: sub_email Preprocessing.Keeping s'
           end
  end.

Definition is_kept_punct (c : char) : bool :=
  existsb (fun a => is_char a c) (Preprocessing.chars ".,!?-").

(** The complement of [[^\w\s.,!?-]]. *)
Definition allowed (c : char) : bool :=
  is_word c || is_space c || is_kept_punct c.

(** [re.sub(r'[^\w\s.,!?-]', '', text)] *)
Definition sub_special (s : list char) : list char := List.filter allowed s.

Definition flush (cur : list char) : list (list char) :=
  match cur with
  | [] => []
  | _ => [cur]
  end.

(** [text.split()] *)
Fixpoint split_go (cur : list char) (s : list char) : list (list char) :=
  match s with
  | [] => flush cur
  | c :: s' =>
      if is_space c then flush cur ++ split_go [] s'
      else split_go (cur ++ [c]) s'
  end.

Definition split (s : list char) : list (list char) := split_go [] s.

(** [' '.join(ws)] *)
Fixpoint join (ws : list (list char)) : list char :=
  match ws with
  | [] => []
  | [w] => w
  | w :: ws' => w ++ space :: join ws'
  end.

Definition clean_text (text : list char) : list char :=
  match text with
  | [] => []
  | _ =>
      let text := lower text in
      let text := sub_url false text in
      let text := sub_email Preprocessing.Boundary text in
      let text := sub_special text in
      join (split text)
  end.

(** No match of the URL pattern is left in the text. *)
Definition url_free (s : list char) : Prop := sub_url false s = s.

End Text.

(** What is assumed of the database, each part true of Python's: the
    space has the code 32; on the 7-bit range the two classes are the
    ones tabulated in [Preprocessing]; and [lower] returns characters
    that it leaves alone, and leaves a text of such characters alone
    (its one rule that looks at the neighbours, the final sigma, applies
    to a capital letter). *)
Class UnicodeLaws (char : Type) `{Unicode char} : Prop := {
  space_code : code space = 32%N;
  ascii_space : forall c : char, (code c < 128)%N ->
    is_space c = Preprocessing.is_space (ascii_of_N (code c));
  ascii_word : forall c : char, (code c < 128)%N ->
    is_word c = Preprocessing.is_word (ascii_of_N (code c));
  lower_space : lower [space] = [space];
  lower_settles : forall s : list char, Forall (fun c => lower [c] = [c]) (lower s);
  lower_fixed : forall s : list char, Forall (fun c => lower [c] = [c]) s -> lower s = s;
}.

(** The 7-bit texts: the tables of [Preprocessing]. *)
#[global] Instance ascii_table : Unicode ascii := {|
  code := N_of_ascii;
  space := " "%char;
  is_space := Preprocessing.is_space;
  is_word := Preprocessing.is_word;
  lower := Preprocessing.lower;
|}.

End UnicodeText.

(** ** utils/preprocessing.py: stopwords and keywords *)

Module Keywords.
Import Preprocessing.

(** The default of [remove_stopwords]. *)
Definition default_stopwords : gset string :=
  list_to_set
    ["the"; "a"; "an"; "and"; "or"; "but"; "in"; "on"; "at"; "to"; "for";
     "of"; "with"; "by"; "from"; "as"; "is"; "was"; "are"; "were"; "be";
     "been"; "being"; "have"; "has"; "had"; "do"; "does"; "did"; "will";
     "would"; "should"; "could"; "may"; "might"; "must"; "can"; "this";
     "that"; "these"; "those"; "i"; "you"; "he"; "she"; "it"; "we"; "they"].

(** [[token for token in tokens if token.lower() not in stopwords]] *)
Definition remove_stopwords (tokens : list string) (stopwords : option (gset string))
  : list string :=
  let stopwords := match stopwords with
                   | Some sw => sw
                   | None => default_stopwords
                   end in
  List.filter (fun token => bool_decide (lower_str token ∉ stopwords)) tokens.

(** [counter[token] += 1] on a [Counter], a dict that keeps its keys in
    the order of their first insertion. *)
Fixpoint count_up (token : string) (counter : list (string * nat)) : list (string * nat) :=
  match counter with
  | [] => [(token, 1)]
  | (k, c) :: rest =>
      if String.eqb k token then (k, S c) :: rest else (k, c) :: count_up token rest
  end.

(** [Counter(tokens)] *)
Definition Counter (tokens : list string) : list (string * nat) :=
  fold_left (fun counter token => count_up token counter) tokens [].

(** [counter[k]]: the count of a key, zero for a missing one. *)
Fixpoint get_count (k : string) (counter : list (string * nat)) : nat :=
  match counter with
  | [] => 0
  | (k', c) :: rest => if String.eqb k' k then c else get_count k rest
  end.

(** One step of [sorted(items, key=itemgetter(1), reverse=True)]: the
    item goes behind every item whose count is at least its own, so that
    equal counts stay in the order of the items. *)
Fixpoint insert_desc (p : string * nat) (l : list (string * nat)) : list (string * nat) :=
  match l with
  | [] => [p]
  | q :: l' => if p.2 <=? q.2 then q :: insert_desc p l' else p :: q :: l'
  end.

Definition sorted_desc (items : list (string * nat)) : list (string * nat) :=
  fold_left (fun acc p => insert_desc p acc) items [].

(** [counter.most_common(n)] for an int [n]:
    [heapq.nlargest(n, items, key=itemgetter(1))], the first [n] items of
    the stable descending sort, none when [n] is not positive. *)
Definition most_common (counter : list (string * nat)) (n : Z) : list (string * nat) :=
  take (Z.to_nat n) (sorted_desc counter).

Definition extract_keywords (text : string) (top_n : Z) : list (string * nat) :=
  let tokens := tokenize text in
  let tokens := remove_stopwords tokens None in
  let counter := Counter tokens in
  most_common counter top_n.

End Keywords.

(** ** models/credit_assessor.py *)

Module CreditAssessor.

(** The dict a check returns: [{'met': ..., 'score': ..., 'message': ...}]. *)
Record check : Type := Check_ { met : bool; score : float; message : string }.

(** [self.rules['level_mapping']] *)
Definition level_mapping : gmap string nat :=
  list_to_map [("certificate", 1); ("diploma", 2); ("advanced_diploma", 3); ("degree", 4)].

(** [v.lower()]: only a [str] has the method. *)
Definition str_lower (v : pyval) : result string :=
  match v with
  | PStr s => Ok (Preprocessing.lower_str s)
  | _ => Raise AttributeError
  end.

(** [self.rules['level_mapping'].get(level, 0)] *)
Definition level_num (level : string) : nat := default 0 (level_mapping !! level).

Definition _check_level_compatibility (micro_credential target_program : dict) : result check :=
  (let* mc_level := str_lower (Py.get micro_credential "level" (PStr "")) in
   let* prog_level := str_lower (Py.get target_program "level" (PStr "")) in
   if String.eqb mc_level "" || String.eqb prog_level "" then
     Ok {| met := true; score := 0.5; message := "Level information not available" |}
   else
     let mc_level_num := level_num mc_level in
     let prog_level_num := level_num prog_level in
     let compatible := mc_level_num <=? prog_level_num in
     Ok {| met := compatible;
           score := if compatible then 1.0 else 0.5;
           message := "Level compatibility: " +:+ mc_level +:+ " → " +:+ prog_level +:+ " ("
                      +:+ (if compatible then "compatible" else "may require review") +:+ ")" |})%py.

End CreditAssessor.

(** ** numpy *)

(** The numpy operations the vector store uses, over the scalar type [F]
    of the arrays.  Every array of the model has this one dtype (float64
    in the service, whose encoder returns float arrays): numpy's casts
    between dtypes, which a caller mixing dtypes would meet in [vstack]
    and in a row assignment, are outside the model.  [fle x y] is
    [x <= y], false when either side is NaN.  [argpartition a kth] takes
    a position already brought into [0, len(a)). *)
Class NumPy (F : Type) : Type := {
  fle : F -> F -> bool;
  normalize : list F -> list F;          (* v / np.linalg.norm(v) *)
  dot : list F -> list F -> F;           (* np.dot of two vectors of one length *)
  argsort : list F -> list nat;
  argpartition : list F -> nat -> list nat;
}.

Module Np.
Section Arrays.
Context {F : Type} `{NumPy F}.

(** [x != x]: [x] is NaN. *)
Definition is_nan (x : F) : bool := negb (fle x x).

(** The order numpy sorts floats by: [<=] on numbers, and a NaN behind
    everything ([a < b] of the sort is [a < b or (b != b and a == a)]). *)
Definition sort_le (x y : F) : bool := fle x y || is_nan y.

(** The order of two positions of [a] by the values there, in the order
    numpy sorts by. *)
Definition le_at (a : list F) (i j : nat) : Prop :=
  forall x y, a !! i = Some x -> a !! j = Some y -> sort_le x y = true.

(** Number of columns of a 2-D array that has a row. *)
Definition width (vs : list (list F)) : nat :=
  match vs with
  | r :: _ => length r
  | [] => 0
  end.

(** [np.vstack([vs, v])] for a 2-D [vs] with a row and a 1-D [v] of the
    same dtype. *)
Definition vstack (vs : list (list F)) (v : list F) : result (list (list F)) :=
  if length v =? width vs then Ok (vs ++ [v]) else Raise ValueError.

(** [vs[idx] = v] for a [v] of the array's dtype: the row is replaced
    by [v], a [v] of one element being broadcast along the row.  (A [v]
    of another dtype would be cast into the array's; see [NumPy].) *)
Definition set_row (vs : list (list F)) (idx : nat) (v : list F) : result (list (list F)) :=
  if idx <? length vs then
    if length v =? width vs then Ok (<[idx := v]> vs)
    else match v with
         | [x] => Ok (<[idx := replicate (width vs) x]> vs)
         | _ => Raise ValueError
         end
  else Raise IndexError.

(** [np.delete(vs, idx, axis=0)] *)
Definition delete_row (vs : list (list F)) (idx : nat) : result (list (list F)) :=
  if idx <? length vs then Ok (delete idx vs) else Raise IndexError.

(** [np.array(rows)] of a list of lists: the rows must have one length. *)
Definition array (rows : list (list F)) : result (list (list F)) :=
  if forallb (fun r => length r =? width rows) rows then Ok rows else Raise ValueError.

(** [a[idxs]] *)
Definition take_at {A} (a : list A) (idxs : list nat) : result (list A) :=
  for_each (fun i => of_option IndexError (a !! i)) idxs.

(** [np.argpartition(a, kth)] for a Python [kth], negative counting
    from the end. *)
Definition py_argpartition (a : list F) (kth : Z) : result (list nat) :=
  let n := Z.of_nat (length a) in
  let k := (if kth <? 0 then kth + n else kth)%Z in
  if ((0 <=? k) && (k <? n))%Z then Ok (argpartition a (Z.to_nat k)) else Raise ValueError.

(** [l[start:]] *)
Definition slice_from {A} (l : list A) (start : Z) : list A :=
  let n := Z.of_nat (length l) in
  let st := (if start <? 0 then Z.max 0 (start + n) else Z.min start n)%Z in
  drop (Z.to_nat st) l.

End Arrays.
End Np.

(** The contract of the two index sorts, in parts.  First: both
    return a rearrangement of the positions of the array. *)
Class NumPyPerm (F : Type) `{NumPy F} : Prop := {
  argsort_perm : forall a : list F, Permutation (argsort a) (seq 0 (length a));
  argpartition_perm : forall (a : list F) kth, Permutation (argpartition a kth) (seq 0 (length a));
}.

(** [argsort] puts the values in ascending order, in the order numpy
    sorts by (a NaN last). *)
Class NumPySort (F : Type) `{NumPy F} : Prop := {
  argsort_sorted : forall a : list F, StronglySorted (Np.le_at a) (argsort a);
}.

(** [<=] on the scalars: transitive, total on the numbers, and true only
    between numbers (a NaN compares false with everything, itself
    included). *)
Class FloatOrder (F : Type) `{NumPy F} : Prop := {
  fle_trans : forall x y z : F, fle x y = true -> fle y z = true -> fle x z = true;
  fle_numbers : forall x y : F, fle x y = true -> fle x x = true /\ fle y y = true;
  fle_total : forall x y : F, fle x x = true -> fle y y = true ->
                              fle x y = true \/ fle y x = true;
}.

(** [argpartition] puts at position [kth] a value that no earlier
    position exceeds and no later position is below, in the order numpy
    sorts by. *)
Class NumPyPartition (F : Type) `{NumPy F} : Prop := {
  argpartition_before : forall (a : list F) kth i p pivot,
    i <= kth -> argpartition a kth !! i = Some p -> argpartition a kth !! kth = Some pivot ->
    Np.le_at a p pivot;
  argpartition_after : forall (a : list F) kth j p pivot,
    kth <= j -> argpartition a kth !! j = Some p -> argpartition a kth !! kth = Some pivot ->
    Np.le_at a pivot p;
}.

(** ** services/vector_store.py *)

Module VectorStore.
Section Store.
Context {F M : Type} `{NumPy F}.

Record t : Type := Store {
  dimension : nat;
  vectors : list (list F);
  metadata : list M;
  id_to_index : gmap string nat;
}.

(** [VectorStore(dimension)] without a store path. *)
Definition init (dimension : nat) : t :=
  {| dimension := dimension; vectors := []; metadata := []; id_to_index := ∅ |}.

Definition generated_id (n : nat) : string := "vec_" +:+ pretty n.

(** The id [add] works with: the caller's, or [f"vec_{len(self.metadata)}"]. *)
Definition resolve_id (vector_id : option string) (s : t) : string :=
  match vector_id with
  | Some i => i
  | None => generated_id (length (metadata s))
  end.

Definition add (vector : list F) (meta : M) (vector_id : option string) (s : t)
  : t * result string :=
  let vector_id := resolve_id vector_id s in
  match id_to_index s !! vector_id with
  | Some idx =>
      match Np.set_row (vectors s) idx vector with
      | Raise e => (s, Raise e)
      | Ok vs' =>
          let s1 := {| dimension := dimension s; vectors := vs';
                       metadata := metadata s; id_to_index := id_to_index s |} in
          if idx <? length (metadata s) then
            ({| dimension := dimension s; vectors := vs';
                metadata := <[idx := meta]> (metadata s);
                id_to_index := id_to_index s |}, Ok vector_id)
          else (s1, Raise IndexError)
      end
  | None =>
      match (if length (vectors s) =? 0 then Ok [vector]
             else Np.vstack (vectors s) vector) with
      | Raise e => (s, Raise e)
      | Ok vs' =>
          ({| dimension := dimension s; vectors := vs';
              metadata := metadata s ++ [meta];
              id_to_index := <[vector_id := length (metadata s ++ [meta]) - 1]> (id_to_index s) |},
           Ok vector_id)
      end
  end.

(** [zip(vectors, metadata_list, vector_ids)] *)
Fixpoint zip3 {A B C} (a : list A) (b : list B) (c : list C) : list (A * B * C) :=
  match a, b, c with
  | x :: a', y :: b', z :: c' => (x, y, z) :: zip3 a' b' c'
  | _, _, _ => []
  end.

Fixpoint add_each (items : list (list F * M * string)) (ids : list string) (s : t)
  : t * result (list string) :=
  match items with
  | [] => (s, Ok ids)
  | (vector, meta, vector_id) :: rest =>
      match add vector meta (Some vector_id) s with
      | (s', Ok id_) => add_each rest (ids ++ [id_]) s'
      | (s', Raise e) => (s', Raise e)
      end
  end.

Definition add_batch (vectors_ : list (list F)) (metadata_list : list M)
    (vector_ids : option (list string)) (s : t) : t * result (list string) :=
  let vector_ids :=
    match vector_ids with
    | Some ids => ids
    | None => map generated_id (seq (length (metadata s)) (length vectors_))
    end in
  add_each (zip3 vectors_ metadata_list vector_ids) [] s.

(** [{v: k for k, v in self.id_to_index.items()}].  Where two ids
    share a position Python keeps the id inserted last; the claims
    concern stores in which no two ids do. *)
Definition index_to_id (m : gmap string nat) : gmap nat string :=
  list_to_map ((fun p => (p.2, p.1)) <$> map_to_list m).

(** [mask = similarities >= threshold], [similarities[mask]] and
    [np.where(mask)[0]]; without a threshold, every position. *)
Definition apply_threshold (similarities : list F) (threshold : option F)
  : list F * list nat :=
  match threshold with
  | Some th =>
      let kept := List.filter (fun p => fle th p.2)
                    (combine (seq 0 (length similarities)) similarities) in
      (map snd kept, map fst kept)
  | None => (similarities, seq 0 (length similarities))
  end.

(** The block under [# Get top k]. *)
Definition top_k_indices (similarities : list F) (top_k : Z) : result (list nat) :=
  (if (top_k <? Z.of_nat (length similarities))%Z then
     let* part := Np.py_argpartition similarities (- top_k) in
     let top_indices := Np.slice_from part (- top_k) in
     let* top_values := Np.take_at similarities top_indices in
     let* sorted := Np.take_at top_indices (argsort top_values) in
     Ok (rev sorted)
   else Ok (rev (argsort similarities)))%py.

(** The block under [# Build results]. *)
Definition build_results (s : t) (similarities : list F) (indices top_indices : list nat)
  : result (list (string * F * M)) :=
  let index_to_id := index_to_id (id_to_index s) in
  for_each
    (fun idx =>
       let* actual_idx := of_option IndexError (indices !! idx) in
       let* vector_id := of_option KeyError (index_to_id !! actual_idx) in
       let* similarity := of_option IndexError (similarities !! idx) in
       let* meta := of_option IndexError (metadata s !! actual_idx) in
       Ok (vector_id, similarity, meta))%py
    top_indices.

Definition search (query_vector : list F) (top_k : Z) (threshold : option F) (s : t)
  : result (list (string * F * M)) :=
  (if length (vectors s) =? 0 then Ok []
   else
     let query_norm := normalize query_vector in
     let vector_norms := map normalize (vectors s) in
     (* np.dot of an (n, w) array and a vector: the vector must have w entries *)
     let* similarities :=
       (if Np.width (vectors s) =? length query_vector
        then Ok (map (fun row => dot row query_norm) vector_norms)
        else Raise ValueError) in
     let '(similarities, indices) := apply_threshold similarities threshold in
     let* top_indices := top_k_indices similarities top_k in
     build_results s similarities indices top_indices)%py.

(** The similarity of a result triple. *)
Definition result_similarity (r : string * F * M) : F := r.1.2.

(** [a] comes before [b] in a ranking by descending similarity. *)
Definition ranks_before (a b : string * F * M) : Prop :=
  fle (result_similarity b) (result_similarity a) = true.

Definition get (vector_id : string) (s : t) : result (option (list F * M)) :=
  match id_to_index s !! vector_id with
  | None => Ok None
  | Some idx =>
      (let* v := of_option IndexError (vectors s !! idx) in
       let* m := of_option IndexError (metadata s !! idx) in
       Ok (Some (v, m)))%py
  end.

Definition delete (vector_id : string) (s : t) : t * result bool :=
  match id_to_index s !! vector_id with
  | None => (s, Ok false)
  | Some idx =>
      match Np.delete_row (vectors s) idx with
      | Raise e => (s, Raise e)
      | Ok vs' =>
          if idx <? length (metadata s) then
            ({| dimension := dimension s; vectors := vs';
                metadata := base.delete idx (metadata s);
                id_to_index :=
                  (fun vidx => if idx <? vidx then vidx - 1 else vidx)
                    <$> base.delete vector_id (id_to_index s) |}, Ok true)
          else
            ({| dimension := dimension s; vectors := vs';
                metadata := metadata s; id_to_index := id_to_index s |}, Raise IndexError)
      end
  end.

(** The JSON object of a store file; a field is [None] when the
    object lacks the key. *)
Record stored : Type := Stored {
  st_dimension : option nat;
  st_vectors : option (list (list F));
  st_metadata : option (list M);
  st_id_to_index : option (gmap string nat);
}.

(** [load]: [file] is the content of the file at the load path, [None]
    when there is no path or no file.  The four assignments are kept
    in their order, a raise leaving the earlier ones done. *)
Definition load (file : option stored) (s : t) : t * result unit :=
  match file with
  | None => (s, Ok tt)
  | Some data =>
      match st_dimension data with
      | None => (s, Raise KeyError)
      | Some d =>
          let s1 := {| dimension := d; vectors := vectors s;
                       metadata := metadata s; id_to_index := id_to_index s |} in
          match st_vectors data with
          | None => (s1, Raise KeyError)
          | Some rows =>
              match Np.array rows with
              | Raise e => (s1, Raise e)
              | Ok vs =>
                  let s2 := {| dimension := d; vectors := vs;
                               metadata := metadata s; id_to_index := id_to_index s |} in
                  match st_metadata data with
                  | None => (s2, Raise KeyError)
                  | Some ms =>
                      let s3 := {| dimension := d; vectors := vs;
                                   metadata := ms; id_to_index := id_to_index s |} in
                      match st_id_to_index data with
                      | None => (s3, Raise KeyError)
                      | Some ix =>
                          ({| dimension := d; vectors := vs;
                              metadata := ms; id_to_index := ix |}, Ok tt)
                      end
                  end
              end
          end
      end
  end.

Definition size (s : t) : nat := length (metadata s).

Definition clear (s : t) : t :=
  {| dimension := dimension s; vectors := []; metadata := []; id_to_index := ∅ |}.

(** The mutating operations, and a run of them from a store; an
    operation that raises leaves the store it has reached. *)
Inductive op : Type :=
| Add (vector : list F) (meta : M) (vector_id : option string)
| AddBatch (vectors_ : list (list F)) (metadata_list : list M) (vector_ids : option (list string))
| Delete (vector_id : string)
| Clear.

Definition step (s : t) (o : op) : t :=
  match o with
  | Add v m i => (add v m i s).1
  | AddBatch vs ms ids => (add_batch vs ms ids s).1
  | Delete i => (delete i s).1
  | Clear => clear s
  end.

Definition run (ops : list op) (s : t) : t := fold_left step ops s.

(** The three collections describe the same records. *)
Definition consistent (s : t) : Prop :=
  length (vectors s) = length (metadata s)
  /\ base.size (id_to_index s) = length (metadata s)
  /\ (forall k i, id_to_index s !! k = Some i -> i < length (metadata s))
  /\ (forall i, i < length (metadata s) -> exists k, id_to_index s !! k = Some i)
  /\ (forall k1 k2 i, id_to_index s !! k1 = Some i -> id_to_index s !! k2 = Some i -> k1 = k2).

(** The rows of [vectors] have one length, as the rows of a 2-D array do. *)
Definition rectangular (s : t) : Prop :=
  Forall (fun r => length r = Np.width (vectors s)) (vectors s).

End Store.
Arguments t : clear implicits.
Arguments stored : clear implicits.
Arguments op : clear implicits.
End VectorStore.

(** ** services/embeddings.py *)

Module Embeddings.

(** What the fallback takes from the interpreter and from numpy's global
    generator: the built-in [hash] of a [str], which CPython salts with
    a secret drawn when the process starts (unless PYTHONHASHSEED fixes
    it), and [np.random.seed(seed); np.random.randn(n)]. *)
Class Runtime (F : Type) : Type := {
  hash_secret : Type;
  str_hash : hash_secret -> string -> Z;
  randn : Z -> nat -> list F;
}.

Definition embedding_dim : nat := 384.

Definition _fallback_embeddings {F} `{NumPy F} `{Runtime F}
    (process : hash_secret) (texts : list string) : list (list F) :=
  map (fun text =>
         let seed := (str_hash process text mod 2 ^ 32)%Z in
         let embedding := randn seed embedding_dim in
         normalize embedding)
      texts.

End Embeddings.

(** ** models/pathway_recommender.py *)

Module PathwayRecommender.

Record PathwayRecommendation : Type := Recommendation {
  pathway_id : pyval;
  target_program_id : pyval;
  confidence_score : float;
  reasoning : string;
  similarity_score : float;
  transfer_credits : pyval;
  institution_name : pyval;
}.

Definition mock_reasoning : string :=
  "Mock recommendation based on general subject alignment and credential level compatibility.".

(** [range(n)] for a Python int. *)
Definition range (n : Z) : list nat := seq 0 (Z.to_nat n).

Definition _generate_mock_recommendations (micro_credential : dict)
    (target_institution_id : option string) (top_k : Z) : list PathwayRecommendation :=
  map (fun i =>
         let confidence := (0.85 - Preprocessing.of_nat i * 0.1)%float in
         {| pathway_id := PStr ("pathway_" +:+ pretty (i + 1));
            target_program_id := PStr ("program_" +:+ pretty (i + 1));
            confidence_score := confidence;
            reasoning := mock_reasoning;
            similarity_score := confidence;
            transfer_credits := PNum (if i =? 0 then 3.0 else 2.0);
            institution_name := PStr ("Institution " +:+ pretty (i + 1)) |})
      (range (Z.min top_k 3)).

(** [sep.join(parts)]: every part must be a [str]. *)
Fixpoint str_join (sep : string) (parts : list pyval) : result string :=
  match parts with
  | [] => Ok ""
  | [PStr s] => Ok s
  | PStr s :: rest => (let* r := str_join sep rest in Ok (s +:+ sep +:+ r))%py
  | _ :: _ => Raise TypeError
  end.

(** [calculate_text_similarity(a, b)] on two values: [clean_text]
    returns [""] for a falsy text and calls [lower] on any other. *)
Definition text_of (v : pyval) : result string :=
  if truthy v then
    match v with
    | PStr s => Ok s
    | _ => Raise AttributeError
    end
  else Ok "".

Definition similarity_of (a b : pyval) : result float :=
  (let* s1 := text_of a in
   let* s2 := text_of b in
   Ok (Preprocessing.calculate_text_similarity s1 s2))%py.

(** The title and the description, when the credential has them, are
    strings (the request model declares them so). *)
Definition text_fields_are_str (micro_credential : dict) : Prop :=
  (forall v, micro_credential !! "title" = Some v -> exists t, v = PStr t)
  /\ (forall v, micro_credential !! "description" = Some v -> exists t, v = PStr t).

Definition is_str (v : pyval) : Prop := exists t, v = PStr t.

Section Recommender.
(** The index holds float64 vectors and metadata dicts.  [encode] is
    the embedding service on one text (it falls back instead of
    raising); [py_repr] is [str()] of a number or a list. *)
Context `{NumPy float}.
Variable encode : string -> list float.
Variable py_repr : pyval -> string.

Definition py_str (v : pyval) : string :=
  match v with
  | PStr s => s
  | PNone => "None"
  | _ => py_repr v
  end.

Definition _calculate_confidence (similarity : float) (source target : dict)
    (student_profile : option dict) : result float :=
  (let confidence := similarity in
   let* source_level := CreditAssessor.str_lower (Py.get source "level" (PStr "")) in
   let* target_level := CreditAssessor.str_lower (Py.get target "level" (PStr "")) in
   let confidence :=
     if negb (String.eqb source_level "") && negb (String.eqb target_level "")
        && String.eqb source_level target_level
     then (confidence * 1.1)%float else confidence in
   let* source_subject := CreditAssessor.str_lower (Py.get source "subject" (PStr "")) in
   let* target_subject := CreditAssessor.str_lower (Py.get target "subject" (PStr "")) in
   let confidence :=
     if negb (String.eqb source_subject "") && negb (String.eqb target_subject "")
        && (0.7 <? Preprocessing.calculate_text_similarity source_subject target_subject)%float
     then (confidence * 1.15)%float else confidence in
   (* min(confidence, 1.0) *)
   Ok (if (1.0 <? confidence)%float then 1.0%float else confidence))%py.

Definition _generate_reasoning (similarity : float) (source target : dict) : result string :=
  (let reasons :=
     if (0.8 <? similarity)%float then
       ["High semantic similarity in program content and learning outcomes"]
     else if (0.6 <? similarity)%float then
       ["Moderate alignment in program objectives and outcomes"]
     else ["Some overlap in subject matter and skills"] in
   let reasons :=
     if Py.eqb (Py.get source "level" PNone) (Py.get target "level" PNone) then
       reasons ++ ["Matching credential level (" +:+ py_str (Py.get source "level" PNone) +:+ ")"]
     else reasons in
   let source_subject := Py.get source "subject" (PStr "") in
   let target_subject := Py.get target "subject" (PStr "") in
   let* reasons :=
     (if truthy source_subject && truthy target_subject then
        let* sim := similarity_of source_subject target_subject in
        Ok (if (0.7 <? sim)%float then reasons ++ ["Aligned subject areas"] else reasons)
      else Ok reasons) in
   let* joined := str_join ". " (map PStr reasons) in
   Ok (joined +:+ "."))%py.

(** The loop over the search results; [recommendations] is the list
    built so far. *)
Fixpoint build (micro_credential : dict) (target_institution_id : option string)
    (student_profile : option dict) (top_k : Z)
    (results : list (string * float * dict))
    (recommendations : list PathwayRecommendation) : result (list PathwayRecommendation) :=
  match results with
  | [] => Ok recommendations
  | (vector_id, similarity, meta) :: rest =>
      let skip :=
        match target_institution_id with
        | Some inst =>
            negb (String.eqb inst "")
            && negb (Py.eqb (Py.get meta "institution_id" PNone) (PStr inst))
        | None => false
        end in
      if skip then
        build micro_credential target_institution_id student_profile top_k rest recommendations
      else
        (let* confidence := _calculate_confidence similarity micro_credential meta student_profile in
         let* reasoning_ := _generate_reasoning similarity micro_credential meta in
         let recommendation :=
           {| pathway_id := Py.get meta "pathway_id" (PStr vector_id);
              target_program_id := Py.get meta "program_id" (PStr "unknown");
              confidence_score := confidence;
              reasoning := reasoning_;
              similarity_score := similarity;
              transfer_credits := Py.get meta "credits" PNone;
              institution_name := Py.get meta "institution_name" PNone |} in
         let recommendations := recommendations ++ [recommendation] in
         if (top_k <=? Z.of_nat (length recommendations))%Z then Ok recommendations
         else build micro_credential target_institution_id student_profile top_k
                rest recommendations)%py
  end.

(** The text parts of the query, in the order they are appended. *)
Definition text_parts (micro_credential : dict) : list pyval :=
  match micro_credential !! "title" with Some v => [v] | None => [] end
  ++ match micro_credential !! "description" with Some v => [v] | None => [] end
  ++ match micro_credential !! "learning_outcomes" with
     | Some (PStrs outcomes) => map PStr outcomes
     | Some (PStr outcomes) => [PStr outcomes]
     | _ => []
     end.

Definition recommend (vector_store : VectorStore.t float dict)
    (micro_credential : dict) (target_institution_id : option string)
    (student_profile : option dict) (top_k : Z) (min_similarity : float)
  : result (list PathwayRecommendation) :=
  (let* query_text := str_join " " (text_parts micro_credential) in
   let query_text := Preprocessing.clean_text query_text in
   let query_embedding := encode query_text in
   if VectorStore.size vector_store =? 0 then
     Ok (_generate_mock_recommendations micro_credential target_institution_id top_k)
   else
     let* results := VectorStore.search query_embedding (top_k * 2)
                       (Some min_similarity) vector_store in
     build micro_credential target_institution_id student_profile top_k results [])%py.

End Recommender.
End PathwayRecommender.

(** ** models/credit_assessor.py, the assessment *)

Module Assessment.
Import CreditAssessor.

Inductive AssessmentResult : Type := APPROVED | CONDITIONAL | DENIED | REVIEW_REQUIRED.

Record CreditAssessment : Type := Assessment_ {
  result_ : AssessmentResult;
  confidence_score : float;
  recommended_credits : float;
  reasoning : string;
  requirements_met : list string;
  requirements_missing : list string;
  conditions : option (list string);
}.

(** [self.rules] *)
Definition min_duration_hours : float := 12.
Definition min_outcome_overlap : float := 0.6.
Definition min_content_similarity : float := 0.5.
Definition required_assessment_methods : list string := ["exam"; "project"; "assignment"].

(** A value used as a number: [None], a [str] or a list raises on
    comparison and on division. *)
Definition as_number (v : pyval) : result float :=
  match v with
  | PNum x => Ok x
  | _ => Raise TypeError
  end.

(** [min(a, b)]: [a], unless [b] is smaller. *)
Definition py_min (a b : float) : float := if (b <? a)%float then b else a.

(** [needle in hay] for two [str]. *)
Fixpoint contains_chars (needle hay : list ascii) : bool :=
  Preprocessing.starts_with needle hay
  || match hay with
     | [] => false
     | _ :: hay' => contains_chars needle hay'
     end.

Definition contains (needle hay : string) : bool :=
  contains_chars (Preprocessing.chars needle) (Preprocessing.chars hay).

(** The items of [for m in methods]: of a list its elements, of a [str]
    its characters; a number is not iterable. *)
Definition items (v : pyval) : result (list string) :=
  match v with
  | PStrs l => Ok l
  | PStr s => Ok (map (fun c => String c "") (Preprocessing.chars s))
  | _ => Raise TypeError
  end.

(** [clean_text(v)] on a value. *)
Definition clean_of (v : pyval) : result string :=
  (let* text := PathwayRecommender.text_of v in
   Ok (Preprocessing.clean_text text))%py.

Definition _determine_result (confidence : float)
    (requirements_met requirements_missing conditions : list string) : AssessmentResult :=
  if (0.8 <=? confidence)%float && (length requirements_missing =? 0) then APPROVED
  else if (0.6 <=? confidence)%float && (length requirements_missing <=? 1) then
    match conditions with
    | _ :: _ => CONDITIONAL
    | [] => APPROVED
    end
  else if (0.4 <=? confidence)%float then REVIEW_REQUIRED
  else DENIED.

(** [sum(scores) / len(scores)] *)
Definition _calculate_confidence (checks : list check) : float :=
  let scores := map score checks in
  match scores with
  | [] => 0%float
  | _ => (fold_left (fun acc x => acc + x) scores 0 / Preprocessing.of_nat (length scores))%float
  end.

Section Assessor.
(** Python's built-ins: [py_repr] is [str()] of a number, [fmt2] is the
    format [.2f], [py_round] is [round], which raises for a NaN and for
    an infinity. *)
Variable py_repr : pyval -> string.
Variable fmt2 : float -> string.
Variable py_round : float -> result float.

Definition _check_duration (micro_credential : dict) : result check :=
  (let duration := Py.get micro_credential "duration_hours" (PNum 0) in
   let* d := as_number duration in
   let met_ := (min_duration_hours <=? d)%float in
   Ok {| met := met_;
         score := py_min (d / min_duration_hours) 1.0;
         message := "Duration: " +:+ py_repr duration +:+ " hours ("
                    +:+ (if met_ then "meets" else "below") +:+ " minimum 12 hours)" |})%py.

(** [' '.join(v) if isinstance(v, list) else v] *)
Definition outcomes_text (v : pyval) : pyval :=
  match v with
  | PStrs l => PStr (String.concat " " l)
  | _ => v
  end.

Definition _check_outcomes (micro_credential target_program : dict) : result check :=
  (let mc_outcomes := Py.get micro_credential "learning_outcomes" (PStrs []) in
   let prog_outcomes := Py.get target_program "learning_outcomes" (PStrs []) in
   if negb (truthy mc_outcomes) || negb (truthy prog_outcomes) then
     Ok {| met := false; score := 0.0;
           message := "Insufficient learning outcomes data for comparison" |}
   else
     let* similarity :=
       PathwayRecommender.similarity_of (outcomes_text mc_outcomes)
                                        (outcomes_text prog_outcomes) in
     let met_ := (min_outcome_overlap <=? similarity)%float in
     Ok {| met := met_; score := similarity;
           message := "Learning outcomes overlap: " +:+ fmt2 similarity +:+ " ("
                      +:+ (if met_ then "sufficient" else "insufficient") +:+ ")" |})%py.

Definition _check_content_similarity (micro_credential target_program : dict) : result check :=
  (let* mc_desc := clean_of (Py.get micro_credential "description" (PStr "")) in
   let* prog_desc := clean_of (Py.get target_program "description" (PStr "")) in
   if String.eqb mc_desc "" || String.eqb prog_desc "" then
     Ok {| met := false; score := 0.0; message := "Insufficient content for comparison" |}
   else
     let similarity := Preprocessing.calculate_text_similarity mc_desc prog_desc in
     let met_ := (min_content_similarity <=? similarity)%float in
     Ok {| met := met_; score := similarity;
           message := "Content similarity: " +:+ fmt2 similarity +:+ " ("
                      +:+ (if met_ then "adequate" else "insufficient") +:+ ")" |})%py.

Definition _check_assessment_methods (micro_credential : dict) : result check :=
  (let methods := Py.get micro_credential "assessment_methods" (PStrs []) in
   if negb (truthy methods) then
     Ok {| met := false; score := 0.0; message := "No assessment methods specified" |}
   else
     let* methods_ := items methods in
     let methods_lower := map Preprocessing.lower_str methods_ in
     let has_rigorous :=
       existsb (fun req => contains req (String.concat " " methods_lower))
               required_assessment_methods in
     Ok {| met := has_rigorous;
           score := if has_rigorous then 1.0 else 0.5;
           message := "Assessment methods: " +:+ String.concat ", " methods_ +:+ " ("
                      +:+ (if has_rigorous then "rigorous"
                           else "may require additional validation") +:+ ")" |})%py.

Definition _calculate_credits (micro_credential target_program : dict) (confidence : float)
  : result float :=
  (let duration := Py.get micro_credential "duration_hours" (PNum 0) in
   let* d := as_number duration in
   let base_credits := (d / 15.0)%float in
   let adjusted_credits := (base_credits * confidence)%float in
   let max_credits := Py.get target_program "credits" (PNum infinity) in
   let* rounded := py_round (adjusted_credits * 2)%float in
   let* cap := as_number max_credits in
   Ok (py_min (rounded / 2)%float cap))%py.

Definition _generate_reasoning (result : AssessmentResult) (confidence : float)
    (requirements_met requirements_missing : list string) : string :=
  let opening :=
    match result with
    | APPROVED =>
        "Assessment approved with " +:+ fmt2 confidence +:+ " confidence. "
        +:+ "All key requirements are satisfied."
    | CONDITIONAL =>
        "Conditional approval with " +:+ fmt2 confidence +:+ " confidence. "
        +:+ "Additional validation may be required."
    | REVIEW_REQUIRED =>
        "Manual review recommended (" +:+ fmt2 confidence +:+ " confidence). "
        +:+ "Some requirements need further evaluation."
    | DENIED =>
        "Assessment denied (" +:+ fmt2 confidence +:+ " confidence). "
        +:+ "Insufficient alignment with target program requirements."
    end in
  let met_part :=
    match requirements_met with
    | [] => []
    | _ => ["Met: " +:+ String.concat ", " (take 2 requirements_met)]
    end in
  let missing_part :=
    match requirements_missing with
    | [] => []
    | _ => ["Missing: " +:+ String.concat ", " (take 2 requirements_missing)]
    end in
  String.concat " " ([opening] ++ met_part ++ missing_part).

(** The three lists of [assess] after one check: its message goes to
    [requirements_met] when the check is met, and otherwise to
    [requirements_missing], or to [conditions] for the check of the
    assessment methods. *)
Definition file_check (waivable : bool) (c : check)
    (lists : list string * list string * list string)
  : list string * list string * list string :=
  let '(met_, missing, conds) := lists in
  if met c then (met_ ++ [message c], missing, conds)
  else if waivable then (met_, missing, conds ++ [message c])
  else (met_, missing ++ [message c], conds).

Definition assess (micro_credential target_program : dict)
    (institution_requirements : option dict) : result CreditAssessment :=
  (let lists := ([], [], []) in
   let* duration_check := _check_duration micro_credential in
   let lists := file_check false duration_check lists in
   let* outcome_check := _check_outcomes micro_credential target_program in
   let lists := file_check false outcome_check lists in
   let* content_check := _check_content_similarity micro_credential target_program in
   let lists := file_check false content_check lists in
   let* assessment_check := _check_assessment_methods micro_credential in
   let lists := file_check true assessment_check lists in
   let* level_check := _check_level_compatibility micro_credential target_program in
   let '(requirements_met_, requirements_missing_, conditions_) :=
     file_check false level_check lists in
   let confidence :=
     _calculate_confidence
       [duration_check; outcome_check; content_check; assessment_check; level_check] in
   let result := _determine_result confidence requirements_met_ requirements_missing_
                   conditions_ in
   let* recommended_credits_ := _calculate_credits micro_credential target_program confidence in
   let reasoning_ := _generate_reasoning result confidence requirements_met_
                       requirements_missing_ in
   Ok {| result_ := result;
         confidence_score := confidence;
         recommended_credits := recommended_credits_;
         reasoning := reasoning_;
         requirements_met := requirements_met_;
         requirements_missing := requirements_missing_;
         conditions := match conditions_ with [] => None | _ => Some conditions_ end |})%py.

End Assessor.
End Assessment.

(** ** Instances of the numpy interface *)

(** A stable insertion sort of the positions of [a] by their values:
    positions with equal values stay in ascending order.  This is what
    the generic implementation of numpy's default sort does on an array
    of at most 16 elements. *)
Module InsertionSort.
Section Sort.
Context {F : Type} (le : F -> F -> bool).

Fixpoint insert_by (p : nat * F) (l : list (nat * F)) : list (nat * F) :=
  match l with
  | [] => [p]
  | q :: l' => if le q.2 p.2 then q :: insert_by p l' else p :: q :: l'
  end.

Definition sort_pairs (ps : list (nat * F)) : list (nat * F) :=
  fold_left (fun acc p => insert_by p acc) ps [].

Definition stable_argsort (a : list F) : list nat :=
  map fst (sort_pairs (combine (seq 0 (length a)) a)).
End Sort.
End InsertionSort.

(** float64 arrays.  The two sorts are the insertion sort in the order
    numpy sorts floats by, a NaN last; [argpartition] returns the sorted
    arrangement, one of those numpy may return.  Sums are taken from left
    to right: numpy's product may add in another order and round
    otherwise, so the samples below use vectors whose products and sums
    are exact. *)
Module Float64.

Definition norm (v : list float) : float :=
  sqrt (fold_left (fun acc x => acc + x * x) v 0)%float.

(** [x <= y], or [y] is NaN. *)
Definition sort_le (x y : float) : bool := (x <=? y)%float || negb (y <=? y)%float.

#[global] Instance numpy : NumPy float := {|
  fle := PrimFloat.leb;
  normalize := fun v => map (fun x => x / norm v)%float v;
  dot := fun u v => fold_left (fun acc p => acc + p.1 * p.2)%float (combine u v) 0%float;
  argsort := InsertionSort.stable_argsort sort_le;
  argpartition := fun a _ => InsertionSort.stable_argsort sort_le a;
|}.

End Float64.

(** Arrays of integers whose rows are taken as already normalised: the
    scalars of the toy runtime below, which runs the fallback embedding.
    No search is run on this instance. *)
Module IntScores.

Definition numpy : NumPy Z := {|
  fle := Z.leb;
  normalize := fun v => v;
  dot := fun u v => fold_left (fun acc p => acc + p.1 * p.2)%Z (combine u v) 0%Z;
  argsort := InsertionSort.stable_argsort Z.leb;
  argpartition := fun a _ => InsertionSort.stable_argsort Z.leb a;
|}.

End IntScores.

(** A runtime in which the hash of a text is the process secret plus the
    length of the text and the generator repeats its seed: enough to run
    the fallback. *)
Module ToyRuntime.

Definition runtime : Embeddings.Runtime Z := {|
  Embeddings.hash_secret := Z;
  Embeddings.str_hash := fun secret text => (secret + Z.of_nat (String.length text))%Z;
  Embeddings.randn := fun seed n => replicate n seed;
|}.

End ToyRuntime.

(** ** Sample data *)

(** An index of dimension 2 after two inserts without an id, and after
    the first record is deleted. *)
Definition store0 : VectorStore.t float dict := VectorStore.init 2.
Definition store1 : VectorStore.t float dict :=
  (VectorStore.add [1.0; 0.0]%float ∅ None store0).1.
Definition store2 : VectorStore.t float dict :=
  (VectorStore.add [0.0; 1.0]%float ∅ None store1).1.
Definition store3 : VectorStore.t float dict := (VectorStore.delete "vec_0" store2).1.

(** Two records with the same vector, [a] inserted before [b]. *)
Definition twins : VectorStore.t float dict :=
  (VectorStore.add [1.0; 0.0]%float ∅ (Some "b")
     (VectorStore.add [1.0; 0.0]%float ∅ (Some "a") (VectorStore.init 2)).1).1.

(** Three records whose similarities to the query [[1, 0]] are exact and
    different: 1.0 for [a], 0.0 for [b] and 0.6 for [c] (the norm of
    [[3, 4]] is 5). *)
Definition triangle : VectorStore.t float dict :=
  (VectorStore.add [3.0; 4.0]%float ∅ (Some "c")
     (VectorStore.add [0.0; 1.0]%float ∅ (Some "b")
        (VectorStore.add [1.0; 0.0]%float ∅ (Some "a") (VectorStore.init 2)).1).1).1.

(** A record with the zero vector, whose similarity to any query is
    0/0, next to a record on the first axis. *)
Definition with_zero_row : VectorStore.t float dict :=
  (VectorStore.add [1.0; 0.0]%float ∅ (Some "x")
     (VectorStore.add [0.0; 0.0]%float ∅ (Some "z") (VectorStore.init 2)).1).1.

(** A credential as the request model gives it. *)
Definition credential : dict :=
  {[ "title" := PStr "Data Analysis"; "description" := PStr "Pandas and statistics";
     "learning_outcomes" := PStrs ["clean data"; "fit models"]; "level" := PNone ]}.

Definition no_encoder (text : string) : list float := [].
Definition no_repr (v : pyval) : string := "".

(** One indexed program, and an encoder that maps every text to the
    first axis. *)
Definition catalogue : VectorStore.t float dict :=
  (VectorStore.add [1.0; 0.0]%float
     {[ "program_id" := PStr "p1"; "institution_id" := PStr "A";
        "level" := PStr "diploma"; "subject" := PStr "data science" ]}
     (Some "pathway_0") (VectorStore.init 2)).1.

Definition axis_encoder (text : string) : list float := [1.0; 0.0]%float.

(** [round] on binary64 by the addition of 2^52, which rounds to the
    nearest integer, a tie to the even one.  The result is an [int], so a
    zero has no sign when it becomes a float again ([+ 0]); a NaN raises
    ValueError and an infinity OverflowError. *)
Definition round_half_even (x : float) : result float :=
  let big := 4503599627370496%float in
  if PrimFloat.is_nan x then Raise ValueError
  else if is_infinity x then Raise OverflowError
  else if (abs x <? big)%float then
    Ok (if (x <? 0)%float then (- ((- x + big) - big) + 0)%float
        else ((x + big) - big)%float)
  else Ok x.

Definition two_decimals (x : float) : string := "#.##".

(** The approval scenario: forty hours, the same outcomes, the same
    description, an exam, matching levels. *)
Definition credential40 : dict :=
  {[ "duration_hours" := PNum 40;
     "learning_outcomes" := PStrs ["analyse data"; "build models"];
     "description" := PStr "Applied data analysis with Python";
     "assessment_methods" := PStrs ["Final Exam"];
     "level" := PStr "certificate" ]}.

Definition program40 : dict :=
  {[ "learning_outcomes" := PStrs ["analyse data"; "build models"];
     "description" := PStr "Applied data analysis with Python";
     "credits" := PNum 3;
     "level" := PStr "diploma" ]}.

(** * Properties *)

(** Two binary64 numbers that [==] tells apart are different. *)
Lemma float_distinct (x y : float) :
  PrimFloat.eqb x x = true -> PrimFloat.eqb x y = false -> x <> y.
Proof. intros Hx Hy E. rewrite <- E in Hy. congruence. Qed.

(** ** Text cleaning *)

Section CleanText.
Import Preprocessing.

Example clean_text_sample :
  clean_text "Visit  HTTP://x.org now, mail a@b.c (Fast)!" = "visit now, mail fast!".
Proof. vm_compute. reflexivity. Qed.

Example tokenize_sample :
  tokenize "Data-driven design, 2nd ed." = ["data"; "driven"; "design"; "2nd"; "ed"].
Proof. vm_compute. reflexivity. Qed.

Example similarity_sample : calculate_text_similarity "a b c" "b c d" = 0.5%float.
Proof. vm_compute. reflexivity. Qed.

(** A character that a cleaned text may hold. *)
Definition settled (c : ascii) : Prop := allowed c = true /\ lower_char c = c.

Definition nonspace (c : ascii) : Prop := is_space c = false.

Ltac each_char c :=
  destruct c as [[] [] [] [] [] [] [] []]; vm_compute; try reflexivity; try discriminate; auto.

Lemma lower_char_idem c : lower_char (lower_char c) = lower_char c.
Proof. each_char c. Qed.

Lemma allowed_not_at c : allowed c = true -> is_at c = false.
Proof. each_char c. Qed.

Lemma settled_space : settled " "%char.
Proof. split; reflexivity. Qed.

Lemma lower_fixed s : Forall (fun c => lower_char c = c) s -> lower s = s.
Proof.
  unfold lower. induction 1 as [|c s Hc _ IH]; simpl; [reflexivity|].
  rewrite Hc, IH. reflexivity.
Qed.

Lemma lower_settles s : Forall (fun c => lower_char c = c) (lower s).
Proof.
  unfold lower. induction s as [|c s IH]; simpl; constructor; auto using lower_char_idem.
Qed.

Lemma sub_url_keeps (P : ascii -> Prop) s :
  Forall P s -> forall skip, Forall P (sub_url skip s).
Proof.
  induction 1 as [|c s Hc Hs IH]; intros skip; simpl; [constructor|].
  destruct skip.
  - destruct (is_space c); [constructor|]; auto.
  - destruct (url_at (c :: s)); [|constructor]; auto.
Qed.

Lemma sub_email_keeps (P : ascii -> Prop) s :
  Forall P s -> forall st, Forall P (sub_email st s).
Proof.
  induction 1 as [|c s Hc Hs IH]; intros st; simpl; [constructor|].
  destruct (is_space c); [constructor; auto|].
  destruct st; [destruct (at_inside s)| |]; try constructor; auto.
Qed.

Lemma sub_special_keeps (P : ascii -> Prop) s :
  Forall P s -> Forall P (sub_special s).
Proof.
  unfold sub_special. induction 1 as [|c s Hc Hs IH]; simpl; [constructor|].
  destruct (allowed c); [constructor|]; auto.
Qed.

Lemma sub_special_allowed s : Forall (fun c => allowed c = true) (sub_special s).
Proof.
  unfold sub_special. induction s as [|c s IH]; simpl; [constructor|].
  destruct (allowed c) eqn:E; [constructor|]; auto.
Qed.

Lemma sub_special_fixed s : Forall (fun c => allowed c = true) s -> sub_special s = s.
Proof.
  unfold sub_special. induction 1 as [|c s Hc _ IH]; simpl; [reflexivity|].
  rewrite Hc, IH. reflexivity.
Qed.

Lemma at_inside_none s : Forall (fun c => is_at c = false) s -> at_inside s = false.
Proof.
  induction 1 as [|c s Hc _ IH]; simpl; [reflexivity|].
  rewrite Hc, IH. destruct (is_space c); reflexivity.
Qed.

Lemma sub_email_fixed s :
  Forall (fun c => is_at c = false) s ->
  forall st, st <> Skipping -> sub_email st s = s.
Proof.
  induction 1 as [|c s Hc Hs IH]; intros st Hst; simpl; [reflexivity|].
  destruct (is_space c); [rewrite IH; [reflexivity|discriminate]|].
  destruct st; [|rewrite IH; [reflexivity|discriminate]|contradiction].
  rewrite (at_inside_none s Hs), IH; [reflexivity|discriminate].
Qed.

(** What [split] returns: non-empty runs without a space. *)
Definition token (P : ascii -> Prop) (w : list ascii) : Prop :=
  w <> [] /\ Forall nonspace w /\ Forall P w.

Lemma flush_tokens P cur :
  Forall nonspace cur -> Forall P cur -> Forall (token P) (flush cur).
Proof.
  intros H1 H2. destruct cur; simpl; [constructor|].
  constructor; [|constructor]. split; [discriminate|]. split; assumption.
Qed.

Lemma split_go_tokens P s :
  Forall P s -> forall cur, Forall nonspace cur -> Forall P cur ->
  Forall (token P) (split_go cur s).
Proof.
  induction 1 as [|c s Hc Hs IH]; intros cur H1 H2; simpl.
  - apply flush_tokens; assumption.
  - destruct (is_space c) eqn:E.
    + apply Forall_app. split; [apply flush_tokens; assumption|].
      apply IH; constructor.
    + apply IH; apply Forall_app; split; auto.
Qed.

Lemma split_go_run w rest cur :
  Forall nonspace w -> split_go cur (w ++ rest) = split_go (cur ++ w) rest.
Proof.
  intros Hw. revert cur. induction Hw as [|c w Hc _ IH]; intros cur; simpl.
  - rewrite app_nil_r. reflexivity.
  - unfold nonspace in Hc. rewrite Hc, IH, <- app_assoc. reflexivity.
Qed.

Lemma split_join P ws : Forall (token P) ws -> split (join ws) = ws.
Proof.
  unfold split. induction 1 as [|w ws [Hne [Hw _]] Hws IH]; [reflexivity|].
  destruct ws as [|w' ws'].
  - change (join [w]) with w.
    pose proof (split_go_run w [] [] Hw) as E. rewrite app_nil_r in E.
    rewrite E. simpl. destruct w; [contradiction|reflexivity].
  - change (join (w :: w' :: ws')) with (w ++ " "%char :: join (w' :: ws')).
    rewrite split_go_run by assumption.
    change (split_go ([] ++ w) (" "%char :: join (w' :: ws')))
      with (flush w ++ split_go [] (join (w' :: ws'))).
    rewrite IH. destruct w; [contradiction|reflexivity].
Qed.

Lemma join_keeps P ws : P " "%char -> Forall (token P) ws -> Forall P (join ws).
Proof.
  intros Hsp. induction 1 as [|w ws [_ [_ Hw]] Hws IH]; [constructor|].
  destruct ws as [|w' ws']; [assumption|].
  change (join (w :: w' :: ws')) with (w ++ " "%char :: join (w' :: ws')).
  apply Forall_app. split; [assumption|]. constructor; assumption.
Qed.

(** A cleaned text is the join of its own tokens, made of settled
    characters. *)
Lemma clean_chars_shape t :
  exists ws, clean_chars t = join ws /\ Forall (token settled) ws.
Proof.
  destruct t as [|c t]; [exists []; split; [reflexivity|constructor]|].
  unfold clean_chars.
  set (u := sub_special _).
  exists (split u). split; [reflexivity|].
  apply split_go_tokens; [|constructor|constructor].
  assert (Hl : Forall (fun c => lower_char c = c) u).
  { apply sub_special_keeps, sub_email_keeps, sub_url_keeps, lower_settles. }
  pose proof (sub_special_allowed
                (sub_email Boundary (sub_url false (lower (c :: t))))) as Ha.
  fold u in Ha. clear -Hl Ha.
  induction u as [|x u IH]; [constructor|].
  inversion Hl; inversion Ha; subst. constructor; [split; assumption|auto].
Qed.

Lemma clean_chars_idempotent t :
  sub_url false (clean_chars t) = clean_chars t ->
  clean_chars (clean_chars t) = clean_chars t.
Proof.
  intros Hurl. destruct (clean_chars_shape t) as [ws [E Hws]].
  rewrite E in *.
  assert (Hs : Forall settled (join ws)) by (apply join_keeps; auto using settled_space).
  destruct (join ws) as [|c s] eqn:J; [reflexivity|].
  unfold clean_chars. cbv beta iota zeta. rewrite <- J in *.
  rewrite lower_fixed by (eapply Forall_impl; [exact Hs|]; intros ? [_ ?]; assumption).
  rewrite Hurl.
  rewrite sub_email_fixed;
    [|eapply Forall_impl; [exact Hs|]; intros ? [? _]; apply allowed_not_at; assumption
     |discriminate].
  rewrite sub_special_fixed by (eapply Forall_impl; [exact Hs|]; intros ? [? _]; assumption).
  rewrite (split_join settled ws Hws). reflexivity.
Qed.

End CleanText.

(** *** Cleaning on any text *)

Section UnicodeClean.
Import UnicodeText.
Context {char : Type} `{UnicodeLaws char}.

(** A character that a cleaned text may hold. *)
Definition fixed (c : char) : Prop := allowed c = true /\ lower [c] = [c].

Definition no_space (c : char) : Prop := is_space c = false.

Lemma space_is_space : is_space space = true.
Proof. rewrite ascii_space; rewrite space_code; [reflexivity|lia]. Qed.

Lemma fixed_space : fixed space.
Proof.
  split; [|apply lower_space].
  unfold allowed. rewrite space_is_space. apply orb_true_iff. left.
  apply orb_true_r.
Qed.

Lemma allowed_no_at (c : char) : allowed c = true -> is_at c = false.
Proof.
  intros Ha. unfold is_at, is_char.
  destruct (N.eqb_spec (code c) (N_of_ascii "@")) as [E|]; [|reflexivity].
  exfalso. revert Ha. unfold allowed, is_kept_punct.
  rewrite ascii_space, ascii_word by (rewrite E; vm_compute; reflexivity).
  cbn [existsb Preprocessing.chars list_ascii_of_string]. unfold is_char.
  rewrite E. vm_compute. discriminate.
Qed.

Lemma u_sub_url_keeps (P : char -> Prop) s :
  Forall P s -> forall skip, Forall P (sub_url skip s).
Proof.
  induction 1 as [|c s Hc Hs IH]; intros skip; simpl; [constructor|].
  destruct skip.
  - destruct (is_space c); [constructor|]; auto.
  - destruct (url_at (c :: s)); [|constructor]; auto.
Qed.

Lemma u_sub_email_keeps (P : char -> Prop) s :
  Forall P s -> forall st, Forall P (sub_email st s).
Proof.
  induction 1 as [|c s Hc Hs IH]; intros st; simpl; [constructor|].
  destruct (is_space c); [constructor; auto|].
  destruct st; [destruct (at_inside s)| |]; try constructor; auto.
Qed.

Lemma u_sub_special_keeps (P : char -> Prop) s :
  Forall P s -> Forall P (sub_special s).
Proof.
  unfold sub_special. induction 1 as [|c s Hc Hs IH]; simpl; [constructor|].
  destruct (allowed c); [constructor|]; auto.
Qed.

Lemma u_sub_special_allowed s : Forall (fun c => allowed c = true) (sub_special s).
Proof.
  unfold sub_special. induction s as [|c s IH]; simpl; [constructor|].
  destruct (allowed c) eqn:E; [constructor|]; auto.
Qed.

Lemma u_sub_special_fixed s : Forall (fun c => allowed c = true) s -> sub_special s = s.
Proof.
  unfold sub_special. induction 1 as [|c s Hc _ IH]; simpl; [reflexivity|].
  rewrite Hc, IH. reflexivity.
Qed.

Lemma u_at_inside_none s : Forall (fun c => is_at c = false) s -> at_inside s = false.
Proof.
  induction 1 as [|c s Hc _ IH]; simpl; [reflexivity|].
  rewrite Hc, IH. destruct (is_space c); reflexivity.
Qed.

Lemma u_sub_email_fixed s :
  Forall (fun c => is_at c = false) s ->
  forall st, st <> Preprocessing.Skipping -> sub_email st s = s.
Proof.
  induction 1 as [|c s Hc Hs IH]; intros st Hst; simpl; [reflexivity|].
  destruct (is_space c); [rewrite IH; [reflexivity|discriminate]|].
  destruct st; [|rewrite IH; [reflexivity|discriminate]|contradiction].
  rewrite (u_at_inside_none s Hs), IH; [reflexivity|discriminate].
Qed.

(** What [split] returns: non-empty runs without a space. *)
Definition run (P : char -> Prop) (w : list char) : Prop :=
  w <> [] /\ Forall no_space w /\ Forall P w.

Lemma u_flush_runs P cur :
  Forall no_space cur -> Forall P cur -> Forall (run P) (flush cur).
Proof.
  intros H1 H2. destruct cur; simpl; [constructor|].
  constructor; [|constructor]. split; [discriminate|]. split; assumption.
Qed.

Lemma u_split_go_runs P s :
  Forall P s -> forall cur, Forall no_space cur -> Forall P cur ->
  Forall (run P) (split_go cur s).
Proof.
  induction 1 as [|c s Hc Hs IH]; intros cur H1 H2; simpl.
  - apply u_flush_runs; assumption.
  - destruct (is_space c) eqn:E.
    + apply Forall_app. split; [apply u_flush_runs; assumption|].
      apply IH; constructor.
    + apply IH; apply Forall_app; split; auto.
Qed.

Lemma u_split_go_run w rest cur :
  Forall no_space w -> split_go cur (w ++ rest) = split_go (cur ++ w) rest.
Proof.
  intros Hw. revert cur. induction Hw as [|c w Hc _ IH]; intros cur; simpl.
  - rewrite app_nil_r. reflexivity.
  - unfold no_space in Hc. rewrite Hc, IH, <- app_assoc. reflexivity.
Qed.

Lemma u_split_join P ws : Forall (run P) ws -> split (join ws) = ws.
Proof.
  unfold split. induction 1 as [|w ws [Hne [Hw _]] Hws IH]; [reflexivity|].
  destruct ws as [|w' ws'].
  - change (join [w]) with w.
    pose proof (u_split_go_run w [] [] Hw) as E. rewrite app_nil_r in E.
    rewrite E. simpl. destruct w; [contradiction|reflexivity].
  - change (join (w :: w' :: ws')) with (w ++ space :: join (w' :: ws')).
    rewrite u_split_go_run by assumption.
    cbn [split_go app]. rewrite space_is_space, IH.
    destruct w; [contradiction|reflexivity].
Qed.

Lemma u_join_keeps P ws : P space -> Forall (run P) ws -> Forall P (join ws).
Proof.
  intros Hsp. induction 1 as [|w ws [_ [_ Hw]] Hws IH]; [constructor|].
  destruct ws as [|w' ws']; [assumption|].
  change (join (w :: w' :: ws')) with (w ++ space :: join (w' :: ws')).
  apply Forall_app. split; [assumption|]. constructor; assumption.
Qed.

(** A cleaned text is the join of its own runs, made of characters that
    a second cleaning leaves alone. *)
Lemma clean_text_shape t :
  exists ws, clean_text t = join ws /\ Forall (run fixed) ws.
Proof.
  destruct t as [|c t]; [exists []; split; [reflexivity|constructor]|].
  unfold clean_text.
  set (u := sub_special _).
  exists (split u). split; [reflexivity|].
  apply u_split_go_runs; [|constructor|constructor].
  assert (Hl : Forall (fun c => lower [c] = [c]) u).
  { apply u_sub_special_keeps, u_sub_email_keeps, u_sub_url_keeps, lower_settles. }
  pose proof (u_sub_special_allowed
                (sub_email Preprocessing.Boundary (sub_url false (lower (c :: t))))) as Ha.
  fold u in Ha. clear -Hl Ha.
  induction u as [|x u IH]; [constructor|].
  inversion Hl; inversion Ha; subst. constructor; [split; assumption|auto].
Qed.

End UnicodeClean.

(** The tables of [Preprocessing] meet what is assumed of the database. *)
#[global] Instance ascii_table_laws : UnicodeText.UnicodeLaws ascii.
Proof.
  constructor; cbn [UnicodeText.code UnicodeText.space UnicodeText.is_space
                    UnicodeText.is_word UnicodeText.lower UnicodeText.ascii_table].
  - reflexivity.
  - intros c _. rewrite ascii_N_embedding. reflexivity.
  - intros c _. rewrite ascii_N_embedding. reflexivity.
  - reflexivity.
  - intros s. unfold Preprocessing.lower. induction s as [|c s IH]; simpl; constructor; auto.
    rewrite lower_char_idem. reflexivity.
  - intros s Hs. unfold Preprocessing.lower in *.
    induction Hs as [|c s Hc _ IH]; simpl; [reflexivity|].
    simpl in Hc. injection Hc as Hc. rewrite Hc, IH. reflexivity.
Qed.

Section Agreement.
Import Preprocessing.

Lemma is_char_eqb (a c : ascii) : UnicodeText.is_char a c = Ascii.eqb a c.
Proof.
  unfold UnicodeText.is_char. cbn [UnicodeText.code UnicodeText.ascii_table].
  destruct (Ascii.eqb_spec a c) as [->|Hne]; [apply N.eqb_refl|].
  apply N.eqb_neq. intros E. apply Hne.
  rewrite <- (ascii_N_embedding a), <- (ascii_N_embedding c), E. reflexivity.
Qed.

Lemma starts_with_agrees p s : UnicodeText.starts_with p s = starts_with p s.
Proof.
  revert s. induction p as [|a p IH]; intros [|b s]; simpl; try reflexivity.
  rewrite is_char_eqb, IH. reflexivity.
Qed.

Lemma url_at_agrees s : UnicodeText.url_at s = url_at s.
Proof.
  unfold UnicodeText.url_at, url_at, UnicodeText.then_nonspace, then_nonspace.
  rewrite !starts_with_agrees. reflexivity.
Qed.

Lemma sub_url_agrees s : forall skip, UnicodeText.sub_url skip s = sub_url skip s.
Proof.
  induction s as [|c s IH]; intros skip; [reflexivity|].
  cbn [UnicodeText.sub_url sub_url]. rewrite url_at_agrees, !IH. reflexivity.
Qed.

Lemma at_inside_agrees s : UnicodeText.at_inside s = at_inside s.
Proof.
  induction s as [|c s IH]; [reflexivity|].
  cbn [UnicodeText.at_inside at_inside]. unfold UnicodeText.is_at, is_at.
  rewrite is_char_eqb, IH, Ascii.eqb_sym. reflexivity.
Qed.

Lemma sub_email_agrees s : forall st, UnicodeText.sub_email st s = sub_email st s.
Proof.
  induction s as [|c s IH]; intros st; [reflexivity|].
  cbn [UnicodeText.sub_email sub_email]. rewrite at_inside_agrees, !IH. reflexivity.
Qed.

Lemma allowed_agrees c : UnicodeText.allowed c = allowed c.
Proof.
  unfold UnicodeText.allowed, allowed, UnicodeText.is_kept_punct, is_kept_punct.
  f_equal. cbn [existsb chars list_ascii_of_string].
  rewrite !is_char_eqb, !(Ascii.eqb_sym c). reflexivity.
Qed.

Lemma sub_special_agrees s : UnicodeText.sub_special s = sub_special s.
Proof.
  unfold UnicodeText.sub_special, sub_special.
  induction s as [|c s IH]; simpl; [reflexivity|]. rewrite allowed_agrees, IH. reflexivity.
Qed.

Lemma split_go_agrees s : forall cur, UnicodeText.split_go cur s = split_go cur s.
Proof.
  induction s as [|c s IH]; intros cur; [reflexivity|].
  cbn [UnicodeText.split_go split_go]. rewrite !IH. reflexivity.
Qed.

Lemma join_agrees ws : UnicodeText.join ws = join ws.
Proof.
  induction ws as [|w ws IH]; [reflexivity|].
  destruct ws as [|w' ws']; [reflexivity|].
  cbn [UnicodeText.join join]. cbn [UnicodeText.join join] in IH. rewrite IH. reflexivity.
Qed.

(** On a text of the 7-bit range the two embeddings of [clean_text] are
    one function. *)
Lemma clean_text_agrees (t : string) :
  UnicodeText.clean_text (chars t) = chars (clean_text t).
Proof.
  unfold clean_text, chars. rewrite list_ascii_of_string_of_list_ascii.
  unfold UnicodeText.clean_text, clean_chars.
  destruct (list_ascii_of_string t) as [|c l]; [reflexivity|].
  cbn [UnicodeText.lower UnicodeText.ascii_table].
  rewrite sub_url_agrees, sub_email_agrees, sub_special_agrees.
  unfold UnicodeText.split, split. rewrite split_go_agrees, join_agrees. reflexivity.
Qed.

End Agreement.

(** C7, as the claim states it, fails: stripping the [#] of ["htt#pa"]
    leaves ["httpa"], which a second cleaning removes as a URL. *)
Lemma clean_text_not_idempotent :
  Preprocessing.clean_text (Preprocessing.clean_text "htt#pa")
  <> Preprocessing.clean_text "htt#pa".
Proof. vm_compute. discriminate. Qed.

(** C7, amended: cleaning a text twice gives what cleaning it once gives,
    whenever the cleaned text holds no match of the URL pattern ([http]
    or [www.] followed by a non-space character).  The text is any
    sequence of characters, over any database of characters that is like
    Python's in what [UnicodeLaws] lists. *)
Theorem clean_text_idempotent_url_free {char : Type} `{UnicodeText.UnicodeLaws char}
    (t : list char) :
  UnicodeText.url_free (UnicodeText.clean_text t) ->
  UnicodeText.clean_text (UnicodeText.clean_text t) = UnicodeText.clean_text t.
Proof.
  unfold UnicodeText.url_free. intros Hurl.
  destruct (clean_text_shape t) as [ws [E Hws]].
  rewrite E in *.
  assert (Hs : Forall fixed (UnicodeText.join ws))
    by (apply u_join_keeps; auto using fixed_space).
  destruct (UnicodeText.join ws) as [|c s] eqn:J; [reflexivity|].
  unfold UnicodeText.clean_text. cbv beta iota zeta. rewrite <- J in *.
  rewrite UnicodeText.lower_fixed
    by (eapply Forall_impl; [exact Hs|]; intros ? [_ ?]; assumption).
  rewrite Hurl.
  rewrite u_sub_email_fixed;
    [|eapply Forall_impl; [exact Hs|]; intros ? [? _]; apply allowed_no_at; assumption
     |discriminate].
  rewrite u_sub_special_fixed by (eapply Forall_impl; [exact Hs|]; intros ? [? _]; assumption).
  rewrite (u_split_join fixed ws Hws). reflexivity.
Qed.

Lemma clean_text_idempotent_url_free_witness :
  UnicodeText.clean_text
    (UnicodeText.clean_text
       (Preprocessing.chars "Visit  HTTP://x.org now, mail a@b.c (Fast)!"))
  = UnicodeText.clean_text
      (Preprocessing.chars "Visit  HTTP://x.org now, mail a@b.c (Fast)!").
Proof.
  apply (clean_text_idempotent_url_free
           (Preprocessing.chars "Visit  HTTP://x.org now, mail a@b.c (Fast)!")).
  vm_compute. reflexivity.
Defined.

(** ** Level compatibility *)

Section LevelCompatibility.
Import CreditAssessor.

Lemma lower_str_empty (s : string) :
  String.eqb (Preprocessing.lower_str s) "" = true <-> s = "".
Proof.
  destruct s as [|c s]; [split; reflexivity|].
  split; [|discriminate]. unfold Preprocessing.lower_str. simpl. discriminate.
Qed.

Example level_check_mapped :
  _check_level_compatibility {["level" := PStr "Certificate"]} {["level" := PStr "DEGREE"]}
  = Ok {| met := true; score := 1.0;
          message := "Level compatibility: certificate → degree (compatible)" |}.
Proof. vm_compute. reflexivity. Qed.

Example level_check_too_high :
  _check_level_compatibility {["level" := PStr "degree"]} {["level" := PStr "diploma"]}
  = Ok {| met := false; score := 0.5;
          message := "Level compatibility: degree → diploma (may require review)" |}.
Proof. vm_compute. reflexivity. Qed.

Example level_check_none_value :
  _check_level_compatibility {["level" := PNone]} {["level" := PStr "diploma"]}
  = Raise AttributeError.
Proof. vm_compute. reflexivity. Qed.

End LevelCompatibility.

(** C8, as the claim states it, fails for a level that is present but not
    in the level map: it is given the ordinal 0.  An unmapped credential
    level under a mapped program level is met with score 1.0, not 0.5, and
    a mapped credential level over an unmapped program level is not met. *)
Lemma level_check_unmapped_not_neutral :
  CreditAssessor.level_mapping !! "bachelor" = None
  /\ (exists c,
        CreditAssessor._check_level_compatibility
          {["level" := PStr "bachelor"]} {["level" := PStr "degree"]} = Ok c
        /\ CreditAssessor.met c = true /\ CreditAssessor.score c = 1.0%float
        /\ CreditAssessor.score c <> 0.5%float)
  /\ (exists c,
        CreditAssessor._check_level_compatibility
          {["level" := PStr "degree"]} {["level" := PStr "bachelor"]} = Ok c
        /\ CreditAssessor.met c = false).
Proof.
  split; [vm_compute; reflexivity|]. split.
  - eexists. split; [vm_compute; reflexivity|]. simpl.
    repeat split. apply float_distinct; vm_compute; reflexivity.
  - eexists. split; [vm_compute; reflexivity|]. reflexivity.
Qed.

(** C8, amended: for a credential and a program whose levels are strings
    or missing keys (a missing key counting as the empty string), the
    check reports met with score 0.5 when either level is empty;
    otherwise both levels are lower-cased, a level outside the level map
    takes the ordinal 0, the check reports met iff the credential's
    ordinal is at most the program's, and the score is 1.0 when met and
    0.5 when not. *)
Theorem level_check_amended (micro_credential target_program : dict) (a b : string) :
  Py.get micro_credential "level" (PStr "") = PStr a ->
  Py.get target_program "level" (PStr "") = PStr b ->
  exists c,
    CreditAssessor._check_level_compatibility micro_credential target_program = Ok c
    /\ (a = "" \/ b = "" ->
        CreditAssessor.met c = true /\ CreditAssessor.score c = 0.5%float)
    /\ (a <> "" -> b <> "" ->
        CreditAssessor.met c
        = (CreditAssessor.level_num (Preprocessing.lower_str a)
           <=? CreditAssessor.level_num (Preprocessing.lower_str b))
        /\ CreditAssessor.score c
           = if CreditAssessor.met c then 1.0%float else 0.5%float).
Proof.
  intros Ha Hb. unfold CreditAssessor._check_level_compatibility.
  rewrite Ha, Hb. simpl.
  destruct (String.eqb (Preprocessing.lower_str a) "") eqn:Ea.
  - apply lower_str_empty in Ea. eexists. split; [reflexivity|]. simpl.
    split; [auto|]. intros; contradiction.
  - destruct (String.eqb (Preprocessing.lower_str b) "") eqn:Eb.
    + apply lower_str_empty in Eb. eexists. split; [reflexivity|]. simpl.
      split; [auto|]. intros; contradiction.
    + eexists. split; [reflexivity|]. simpl. split; [|auto].
      intros [E|E]; subst; [rewrite (proj2 (lower_str_empty "")) in Ea by reflexivity
                           |rewrite (proj2 (lower_str_empty "")) in Eb by reflexivity];
        discriminate.
Qed.

Lemma level_check_amended_witness :
  exists c,
    CreditAssessor._check_level_compatibility
      {["level" := PStr "Diploma"]} {["level" := PStr "degree"]} = Ok c
    /\ ("Diploma" = "" \/ "degree" = "" ->
        CreditAssessor.met c = true /\ CreditAssessor.score c = 0.5%float)
    /\ ("Diploma" <> "" -> "degree" <> "" ->
        CreditAssessor.met c
        = (CreditAssessor.level_num (Preprocessing.lower_str "Diploma")
           <=? CreditAssessor.level_num (Preprocessing.lower_str "degree"))
        /\ CreditAssessor.score c
           = if CreditAssessor.met c then 1.0%float else 0.5%float).
Proof.
  apply (level_check_amended {["level" := PStr "Diploma"]} {["level" := PStr "degree"]});
    vm_compute; reflexivity.
Defined.

(** ** The vector index: internal consistency *)

Section StoreInvariant.
Context {F M : Type}.
Import VectorStore.
Implicit Types s : VectorStore.t F M.

Lemma set_row_length (vs vs' : list (list F)) idx v :
  Np.set_row vs idx v = Ok vs' -> length vs' = length vs.
Proof.
  unfold Np.set_row. destruct (idx <? length vs); [|discriminate].
  destruct (length v =? Np.width vs).
  - intros [= <-]. apply length_insert.
  - destruct v as [|x [|? ?]]; try discriminate. intros [= <-]. apply length_insert.
Qed.

Lemma append_row_length (vs vs' : list (list F)) v :
  (if length vs =? 0 then Ok [v] else Np.vstack vs v) = Ok vs' ->
  length vs' = S (length vs).
Proof.
  destruct (length vs =? 0) eqn:E.
  - apply Nat.eqb_eq in E. intros [= <-]. rewrite E. reflexivity.
  - unfold Np.vstack. destruct (length v =? Np.width vs); [|discriminate].
    intros [= <-]. rewrite length_app. simpl. lia.
Qed.

Lemma init_consistent d : consistent (F:=F) (M:=M) (init d).
Proof.
  unfold consistent, init. simpl. rewrite map_size_empty.
  repeat split; try reflexivity.
  - intros k i Hk. rewrite lookup_empty in Hk. discriminate.
  - intros i Hi. lia.
  - intros k1 k2 i Hk. rewrite lookup_empty in Hk. discriminate.
Qed.

Lemma clear_consistent s : consistent (clear s).
Proof. apply (init_consistent (dimension s)). Qed.

Lemma add_consistent v m i s : consistent s -> consistent (add v m i s).1.
Proof.
  intros (Hlen & Hsz & Hran & Hsur & Hinj). unfold add.
  set (vid := resolve_id i s).
  destruct (id_to_index s !! vid) as [idx|] eqn:Hv.
  - destruct (Np.set_row (vectors s) idx v) as [vs'|e] eqn:Hset;
      [|simpl; repeat split; eauto].
    pose proof (Hran _ _ Hv) as Hidx.
    rewrite (proj2 (Nat.ltb_lt _ _) Hidx). simpl.
    apply set_row_length in Hset.
    unfold consistent. simpl. rewrite length_insert.
    repeat split; eauto; congruence.
  - destruct (if length (vectors s) =? 0 then Ok [v] else Np.vstack (vectors s) v)
      as [vs'|e] eqn:Happ; [|simpl; repeat split; eauto].
    apply append_row_length in Happ. simpl.
    unfold consistent. simpl. rewrite length_app. simpl.
    replace (length (metadata s) + 1 - 1) with (length (metadata s)) by lia.
    repeat split.
    + lia.
    + rewrite map_size_insert_None by assumption. lia.
    + intros k j Hk. apply lookup_insert_Some in Hk as [[_ <-]|[_ Hk]]; [lia|].
      apply Hran in Hk. lia.
    + intros j Hj. destruct (decide (j = length (metadata s))) as [->|Hne].
      * exists vid. apply lookup_insert_eq.
      * destruct (Hsur j) as [k Hk]; [lia|]. exists k.
        rewrite lookup_insert_ne; [assumption|]. intros <-. congruence.
    + intros k1 k2 j H1 H2.
      apply lookup_insert_Some in H1 as [[<- <-]|[Hn1 H1]];
        apply lookup_insert_Some in H2 as [[<- E2]|[Hn2 H2]]; try reflexivity.
      * apply Hran in H2. lia.
      * apply Hran in H1. lia.
      * eauto.
Qed.

Lemma add_each_consistent items : forall ids s,
  consistent s -> consistent (add_each items ids s).1.
Proof.
  induction items as [|[[v m] i] rest IH]; intros ids s Hs; simpl; [assumption|].
  pose proof (add_consistent v m (Some i) s Hs) as Hadd.
  destruct (add v m (Some i) s) as [s' [id_|e]]; simpl in *; auto.
Qed.

Lemma add_batch_consistent vs ms ids s :
  consistent s -> consistent (add_batch vs ms ids s).1.
Proof. intros Hs. unfold add_batch. apply add_each_consistent, Hs. Qed.

Lemma delete_consistent i s : consistent s -> consistent (delete i s).1.
Proof.
  intros (Hlen & Hsz & Hran & Hsur & Hinj). unfold delete.
  destruct (id_to_index s !! i) as [idx|] eqn:Hv; [|simpl; repeat split; eauto].
  pose proof (Hran _ _ Hv) as Hidx.
  unfold Np.delete_row.
  rewrite (proj2 (Nat.ltb_lt idx (length (vectors s)))) by lia.
  rewrite (proj2 (Nat.ltb_lt _ _) Hidx). simpl.
  unfold consistent. simpl.
  rewrite !length_delete by (apply lookup_lt_is_Some; lia).
  rewrite map_size_fmap, map_size_delete_Some by eauto.
  assert (Hother : forall k j, k <> i -> id_to_index s !! k = Some j -> j <> idx).
  { intros k j Hk Hj ->. apply Hk. eauto. }
  repeat split.
  - lia.
  - lia.
  - intros k j Hk. apply lookup_fmap_Some in Hk as (j0 & <- & Hk).
    apply lookup_delete_Some in Hk as [Hne Hk].
    pose proof (Hran _ _ Hk). pose proof (Hother k j0 (not_eq_sym Hne) Hk).
    destruct (Nat.ltb_spec idx j0); lia.
  - intros j Hj.
    destruct (lt_dec j idx) as [Hlt|Hge].
    + destruct (Hsur j) as [k Hk]; [lia|]. exists k.
      apply lookup_fmap_Some. exists j. split.
      * rewrite (proj2 (Nat.ltb_ge _ _)) by lia. reflexivity.
      * apply lookup_delete_Some. split; [|assumption]. intros <-. rewrite Hv in Hk.
        inversion Hk. lia.
    + destruct (Hsur (S j)) as [k Hk]; [lia|]. exists k.
      apply lookup_fmap_Some. exists (S j). split.
      * rewrite (proj2 (Nat.ltb_lt _ _)) by lia. lia.
      * apply lookup_delete_Some. split; [|assumption]. intros <-. rewrite Hv in Hk.
        inversion Hk. lia.
  - intros k1 k2 j H1 H2.
    apply lookup_fmap_Some in H1 as (j1 & E1 & H1).
    apply lookup_fmap_Some in H2 as (j2 & E2 & H2).
    apply lookup_delete_Some in H1 as [Hn1 H1].
    apply lookup_delete_Some in H2 as [Hn2 H2].
    pose proof (Hother k1 j1 (not_eq_sym Hn1) H1).
    pose proof (Hother k2 j2 (not_eq_sym Hn2) H2).
    assert (j1 = j2).
    { revert E1 E2.
      destruct (Nat.ltb_spec idx j1); destruct (Nat.ltb_spec idx j2); lia. }
    subst j2. eauto.
Qed.

Lemma step_consistent s o : consistent s -> consistent (step s o).
Proof.
  destruct o; simpl; auto using add_consistent, add_batch_consistent,
    delete_consistent, clear_consistent.
Qed.

Lemma run_consistent ops : forall s, consistent s -> consistent (run ops s).
Proof.
  unfold run. induction ops as [|o ops IH]; intros s Hs; simpl; [assumption|].
  apply IH, step_consistent, Hs.
Qed.

(** In a consistent store [get] finds the record of every mapped id. *)
Lemma get_mapped s id :
  consistent s -> is_Some (id_to_index s !! id) ->
  exists v m, get id s = Ok (Some (v, m)).
Proof.
  intros (Hlen & _ & Hran & _) [idx Hid]. unfold get. rewrite Hid.
  pose proof (Hran _ _ Hid) as Hidx.
  destruct (lookup_lt_is_Some_2 (vectors s) idx) as [v Hv]; [lia|].
  destruct (lookup_lt_is_Some_2 (metadata s) idx) as [m Hm]; [lia|].
  exists v, m. rewrite Hv, Hm. reflexivity.
Qed.

End StoreInvariant.

(** C10: after any sequence of [add], [add_batch], [delete] and [clear]
    on a new store, whether or not some of them raise, the vectors array
    has as many rows as the metadata list has entries and the id-to-index
    mapping has ids; the positions the mapping gives are below that
    number, every such position is given to an id, and no two ids share
    one; and [get] returns the record of every mapped id. *)
Theorem operations_keep_consistency {F M : Type} (d : nat) (ops : list (VectorStore.op F M)) :
  let s := VectorStore.run ops (VectorStore.init d) in
  length (VectorStore.vectors s) = length (VectorStore.metadata s)
  /\ base.size (VectorStore.id_to_index s) = length (VectorStore.metadata s)
  /\ (forall k i, VectorStore.id_to_index s !! k = Some i ->
                  i < length (VectorStore.metadata s))
  /\ (forall i, i < length (VectorStore.metadata s) ->
                exists k, VectorStore.id_to_index s !! k = Some i)
  /\ (forall k1 k2 i, VectorStore.id_to_index s !! k1 = Some i ->
                      VectorStore.id_to_index s !! k2 = Some i -> k1 = k2)
  /\ (forall id, is_Some (VectorStore.id_to_index s !! id) ->
                 exists v m, VectorStore.get id s = Ok (Some (v, m))).
Proof.
  intros s.
  assert (Hs : VectorStore.consistent s) by apply run_consistent, init_consistent.
  pose proof Hs as (H1 & H2 & H3 & H4 & H5).
  repeat split; auto. intros id Hid. apply get_mapped; assumption.
Qed.

(** ** The vector index: generated ids, loading, dimensions *)

Section StoreExamples.
Import VectorStore.

Example generated_ids_without_delete :
  (add [1.0; 0.0]%float ∅ None store0).2 = Ok "vec_0"
  /\ (add [0.0; 1.0]%float ∅ None store1).2 = Ok "vec_1"
  /\ size store2 = 2.
Proof. vm_compute. auto. Qed.

End StoreExamples.

(** C3 fails on the code: the generated id is [vec_<len>], and after a
    delete the length names an id still in use.  Two inserts without an
    id give [vec_0] and [vec_1]; once [vec_0] is deleted, a third insert
    without an id is given [vec_1] again, replaces that record and leaves
    the size at 1. *)
Theorem generated_id_reused_after_delete :
  VectorStore.delete "vec_0" store2 = (store3, Ok true)
  /\ VectorStore.size store3 = 1
  /\ VectorStore.get "vec_1" store3 = Ok (Some ([0.0; 1.0]%float, ∅))
  /\ (VectorStore.add [1.0; 1.0]%float ∅ None store3).2 = Ok "vec_1"
  /\ VectorStore.size (VectorStore.add [1.0; 1.0]%float ∅ None store3).1 = 1
  /\ VectorStore.get "vec_1" (VectorStore.add [1.0; 1.0]%float ∅ None store3).1
     = Ok (Some ([1.0; 1.0]%float, ∅)).
Proof. vm_compute. repeat split. Qed.

(** C4, as the claim states it, fails: a store file with one vector, no
    metadata and no id is loaded without an error, and leaves a store of
    one row and no record. *)
Lemma load_accepts_unequal_cardinalities :
  let data := {| VectorStore.st_dimension := Some 2;
                 VectorStore.st_vectors := Some [[1.0; 0.0]%float];
                 VectorStore.st_metadata := Some ([] : list dict);
                 VectorStore.st_id_to_index := Some ∅ |} in
  exists s,
    VectorStore.load (Some data) (VectorStore.init 2) = (s, Ok tt)
    /\ length (VectorStore.vectors s) = 1
    /\ length (VectorStore.metadata s) = 0
    /\ base.size (VectorStore.id_to_index s) = 0.
Proof. eexists. vm_compute. repeat split. Qed.

Lemma array_of_rows {F : Type} (rows : list (list F)) :
  Forall (fun r => length r = Np.width rows) rows -> Np.array rows = Ok rows.
Proof.
  intros Hrows. unfold Np.array.
  replace (forallb (fun r => length r =? Np.width rows) rows) with true; [reflexivity|].
  symmetry. apply forallb_forall. intros r Hr.
  rewrite Forall_forall in Hrows. apply Nat.eqb_eq, Hrows, list_elem_of_In, Hr.
Qed.

Lemma load_complete {F M : Type} (d : nat) (rows : list (list F))
    (ms : list M) (ix : gmap string nat) (s : VectorStore.t F M) :
  Forall (fun r => length r = Np.width rows) rows ->
  VectorStore.load (Some {| VectorStore.st_dimension := Some d;
                            VectorStore.st_vectors := Some rows;
                            VectorStore.st_metadata := Some ms;
                            VectorStore.st_id_to_index := Some ix |}) s
  = ({| VectorStore.dimension := d; VectorStore.vectors := rows;
        VectorStore.metadata := ms; VectorStore.id_to_index := ix |}, Ok tt).
Proof.
  intros Hrows. unfold VectorStore.load. simpl.
  rewrite array_of_rows by assumption. reflexivity.
Qed.

(** C4, amended: [load] compares no cardinalities and has no CorruptStore
    error.  A store file that has the four fields, its vectors being rows
    of one length, is loaded without an error and its dimension, vectors,
    metadata and mapping are installed as they are, whatever their sizes;
    a file that lacks one of the fields makes [load] raise KeyError. *)
Theorem load_installs_unchecked {F M : Type} (d : nat) (rows : list (list F))
    (ms : list M) (ix : gmap string nat) (s : VectorStore.t F M) :
  Forall (fun r => length r = Np.width rows) rows ->
  VectorStore.load (Some {| VectorStore.st_dimension := Some d;
                            VectorStore.st_vectors := Some rows;
                            VectorStore.st_metadata := Some ms;
                            VectorStore.st_id_to_index := Some ix |}) s
  = ({| VectorStore.dimension := d; VectorStore.vectors := rows;
        VectorStore.metadata := ms; VectorStore.id_to_index := ix |}, Ok tt)
  /\ (forall data,
        VectorStore.st_dimension data = None \/ VectorStore.st_vectors data = None
        \/ VectorStore.st_metadata data = None \/ VectorStore.st_id_to_index data = None ->
        Forall (fun r => length r = Np.width (default [] (VectorStore.st_vectors data)))
               (default [] (VectorStore.st_vectors data)) ->
        (VectorStore.load (Some data) s).2 = Raise KeyError).
Proof.
  intros Hrect. split; [apply load_complete, Hrect|].
  intros [dd vv mm ii] Hnone Hrs. unfold VectorStore.load. simpl in *.
  destruct dd; [|reflexivity]. destruct vv as [rs|]; [|reflexivity].
  simpl in Hrs. rewrite array_of_rows by assumption.
  destruct mm; [|reflexivity]. destruct ii; [|reflexivity].
  destruct Hnone as [H|[H|[H|H]]]; discriminate.
Qed.

Lemma load_installs_unchecked_witness :
  VectorStore.load (Some {| VectorStore.st_dimension := Some 2;
                            VectorStore.st_vectors := Some [[1.0; 0.0]%float];
                            VectorStore.st_metadata := Some ([] : list dict);
                            VectorStore.st_id_to_index := Some ∅ |}) (VectorStore.init 3)
  = ({| VectorStore.dimension := 2; VectorStore.vectors := [[1.0; 0.0]%float];
        VectorStore.metadata := []; VectorStore.id_to_index := ∅ |}, Ok tt).
Proof.
  refine (proj1 (load_installs_unchecked 2 [[1.0; 0.0]%float] [] ∅ (VectorStore.init 3) _)).
  repeat constructor.
Defined.

(** C1, as the claim states it, fails: a new index of dimension 3 takes a
    vector of two components without an error and keeps it, and a search
    of the empty index with a query of five components returns the empty
    list. *)
Lemma empty_index_accepts_any_dimension :
  VectorStore.dimension (VectorStore.init (F:=float) (M:=dict) 3) = 3
  /\ VectorStore.add [1.0; 0.0]%float (∅ : dict) None (VectorStore.init 3)
     = ({| VectorStore.dimension := 3; VectorStore.vectors := [[1.0; 0.0]%float];
           VectorStore.metadata := [∅]; VectorStore.id_to_index := {["vec_0" := 0]} |},
        Ok "vec_0")
  /\ VectorStore.search [1.0; 0.0; 0.0; 0.0; 0.0]%float 10 None
       (VectorStore.init (M:=dict) 3) = Ok [].
Proof. vm_compute. repeat split. Qed.

(** C1, amended: there is no DimensionMismatch error and the configured
    dimension is not consulted; what is checked is numpy's shape rule
    against the rows the index holds.  In a consistent index with at least
    one row, of row length W: an insert of a vector of another length
    raises ValueError and leaves the index as it was, when the id is new
    or the vector has not exactly one component (which numpy would
    broadcast over the row of an id being replaced); and a search with a
    query of another length raises ValueError. *)
Theorem shape_mismatch_raises {F M : Type} `{NumPy F} (s : VectorStore.t F M) :
  VectorStore.consistent s ->
  VectorStore.vectors s <> [] ->
  (forall vector meta vector_id,
      length vector <> Np.width (VectorStore.vectors s) ->
      length vector <> 1
      \/ VectorStore.id_to_index s !! VectorStore.resolve_id vector_id s = None ->
      VectorStore.add vector meta vector_id s = (s, Raise ValueError))
  /\ (forall query top_k threshold,
        length query <> Np.width (VectorStore.vectors s) ->
        VectorStore.search query top_k threshold s = Raise ValueError).
Proof.
  intros (Hlen & _ & Hran & _) Hne. split.
  - intros v m vid Hw Hcase. unfold VectorStore.add.
    destruct (VectorStore.id_to_index s !! VectorStore.resolve_id vid s) as [idx|] eqn:Hid.
    + destruct Hcase as [H1|]; [|discriminate].
      unfold Np.set_row. pose proof (Hran _ _ Hid) as Hidx.
      rewrite (proj2 (Nat.ltb_lt idx (length (VectorStore.vectors s)))) by lia.
      rewrite (proj2 (Nat.eqb_neq _ _) Hw).
      destruct v as [|x [|y v]]; simpl in *; try reflexivity. contradiction.
    + destruct (length (VectorStore.vectors s) =? 0) eqn:E.
      * apply Nat.eqb_eq in E. destruct (VectorStore.vectors s); [contradiction|discriminate].
      * unfold Np.vstack. rewrite (proj2 (Nat.eqb_neq _ _) Hw). reflexivity.
  - intros q k th Hw. unfold VectorStore.search.
    destruct (length (VectorStore.vectors s) =? 0) eqn:E.
    + apply Nat.eqb_eq in E. destruct (VectorStore.vectors s); [contradiction|discriminate].
    + rewrite (proj2 (Nat.eqb_neq _ _)) by auto. reflexivity.
Qed.

Lemma shape_mismatch_raises_witness :
  VectorStore.add [1.0; 0.0; 0.0]%float (∅ : dict) None store2 = (store2, Raise ValueError)
  /\ VectorStore.search [1.0; 0.0; 0.0]%float 10 None store2 = Raise ValueError.
Proof.
  assert (Hc : VectorStore.consistent store2).
  { unfold store2, store1, store0. repeat apply add_consistent. apply init_consistent. }
  assert (Hne : VectorStore.vectors store2 <> []) by (vm_compute; discriminate).
  destruct (shape_mismatch_raises store2 Hc Hne) as [Hadd Hsearch]. split.
  - apply Hadd; [vm_compute; discriminate|left; vm_compute; discriminate].
  - apply Hsearch. vm_compute. discriminate.
Defined.

(** ** The vector index: search *)

Lemma for_each_Forall2 {A B} (f : A -> result B) xs ys :
  for_each f xs = Ok ys -> Forall2 (fun x y => f x = Ok y) xs ys.
Proof.
  revert ys. induction xs as [|x xs IH]; intros ys; simpl.
  - intros [= <-]. constructor.
  - destruct (f x) as [y|e] eqn:Hx; simpl; [|discriminate].
    destruct (for_each f xs) as [ys'|e]; simpl; [|discriminate].
    intros [= <-]. constructor; auto.
Qed.

Lemma for_each_returns {A B} (f : A -> result B) xs :
  Forall (fun x => exists y, f x = Ok y) xs -> exists ys, for_each f xs = Ok ys.
Proof.
  induction 1 as [|x xs [y Hy] _ [ys IH]]; simpl.
  - exists []. reflexivity.
  - exists (y :: ys). rewrite Hy. simpl. rewrite IH. reflexivity.
Qed.

Lemma take_at_Forall2 {A} (a : list A) idxs vs :
  Np.take_at a idxs = Ok vs -> Forall2 (fun i v => a !! i = Some v) idxs vs.
Proof.
  intros Ht. apply for_each_Forall2 in Ht.
  eapply Forall2_impl; [exact Ht|]. intros i v. simpl.
  destruct (a !! i); simpl; congruence.
Qed.

Lemma take_at_returns {A} (a : list A) idxs :
  Forall (fun i => i < length a) idxs -> exists vs, Np.take_at a idxs = Ok vs.
Proof.
  intros Hi. apply for_each_returns.
  eapply Forall_impl; [exact Hi|]. intros i Hlt. simpl in *.
  destruct (lookup_lt_is_Some_2 a i Hlt) as [v Hv]. exists v. rewrite Hv. reflexivity.
Qed.

Lemma sorted_snoc {A} (R : A -> A -> Prop) l x :
  StronglySorted R l -> Forall (fun y => R y x) l -> StronglySorted R (l ++ [x]).
Proof.
  induction 1 as [|y l Hl IH Hy]; intros Hx; simpl.
  - repeat constructor.
  - inversion Hx; subst. constructor; [auto|].
    rewrite Forall_app. split; [assumption|]. repeat constructor. assumption.
Qed.

Lemma sorted_rev {A} (R : A -> A -> Prop) l :
  StronglySorted R l -> StronglySorted (fun x y => R y x) (rev l).
Proof.
  induction 1 as [|x l Hl IH Hx]; simpl; [constructor|].
  apply sorted_snoc; [assumption|].
  apply Forall_forall. intros y Hy. rewrite Forall_forall in Hx.
  apply Hx. apply list_elem_of_In. apply list_elem_of_In in Hy. apply in_rev. exact Hy.
Qed.

Lemma sorted_transfer {A B} (R : A -> A -> Prop) (R' : B -> B -> Prop) (Q : A -> B -> Prop) l l' :
  (forall x y x' y', R x y -> Q x x' -> Q y y' -> R' x' y') ->
  Forall2 Q l l' -> StronglySorted R l -> StronglySorted R' l'.
Proof.
  intros HR HQ. induction HQ as [|x x' l l' Hx HQ IH]; intros Hs; [constructor|].
  apply StronglySorted_inv in Hs as [Hs Hall]. constructor; [auto|].
  clear IH Hs. induction HQ as [|y y' l l' Hy HQ IH]; [constructor|].
  inversion Hall; subst. constructor; eauto.
Qed.

Lemma permutation_of_positions (l : list nat) n :
  Permutation l (seq 0 n) -> Forall (fun i => i < n) l.
Proof.
  intros Hp. apply Forall_forall. intros i Hi.
  apply list_elem_of_In in Hi. apply (Permutation_in _ Hp) in Hi.
  apply in_seq in Hi. lia.
Qed.

Section TopK.
Context {F : Type} `{NumPyPerm F}.

(** The results of the selection are positions of the array; for
    [top_k >= 1] there are at most [top_k] of them. *)
Lemma top_k_indices_bounds (sims : list F) (top_k : Z) (top : list nat) :
  VectorStore.top_k_indices sims top_k = Ok top ->
  Forall (fun i => i < length sims) top
  /\ ((1 <= top_k)%Z -> (Z.of_nat (length top) <= top_k)%Z).
Proof.
  unfold VectorStore.top_k_indices.
  destruct (Z.ltb_spec top_k (Z.of_nat (length sims))) as [Hlt|Hge].
  - unfold Np.py_argpartition.
    set (k := (if (- top_k <? 0)%Z then (- top_k + Z.of_nat (length sims))%Z
               else (- top_k)%Z)).
    destruct ((0 <=? k)%Z && (k <? Z.of_nat (length sims))%Z); [|discriminate].
    simpl.
    set (part := argpartition sims (Z.to_nat k)).
    set (top0 := Np.slice_from part (- top_k)).
    destruct (Np.take_at sims top0) as [tv|e] eqn:Htv; [|discriminate]. simpl.
    destruct (Np.take_at top0 (argsort tv)) as [sorted|e] eqn:Hso; [|discriminate].
    simpl. intros [= <-].
    apply take_at_Forall2 in Htv. apply take_at_Forall2 in Hso.
    assert (Hpart : Forall (fun i => i < length sims) part)
      by apply permutation_of_positions, argpartition_perm.
    assert (Htop0 : Forall (fun i => i < length sims) top0).
    { unfold top0, Np.slice_from. apply Forall_drop, Hpart. }
    assert (Hsorted : Forall (fun i => i < length sims) sorted).
    { apply Forall_forall. intros a Ha.
      apply list_elem_of_lookup in Ha as [j Hj].
      destruct (Forall2_lookup_r _ _ _ _ _ Hso Hj) as (i & _ & Hi).
      rewrite Forall_forall in Htop0. apply Htop0.
      apply list_elem_of_lookup. eauto. }
    split.
    + apply Forall_rev, Hsorted.
    + intros Hk. rewrite length_rev.
      rewrite <- (Forall2_length _ _ _ Hso).
      rewrite (Permutation_length (argsort_perm tv)), length_seq.
      rewrite <- (Forall2_length _ _ _ Htv).
      unfold top0, Np.slice_from. rewrite length_drop.
      unfold part. rewrite (Permutation_length (argpartition_perm sims _)), length_seq.
      destruct (Z.ltb_spec (- top_k) 0); lia.
  - intros [= <-]. split.
    + apply Forall_rev, permutation_of_positions, argsort_perm.
    + intros _. rewrite length_rev, (Permutation_length (argsort_perm sims)), length_seq.
      lia.
Qed.

Lemma top_k_indices_returns (sims : list F) (top_k : Z) :
  (0 <= top_k)%Z -> exists top, VectorStore.top_k_indices sims top_k = Ok top.
Proof.
  intros Hk. unfold VectorStore.top_k_indices.
  destruct (Z.ltb_spec top_k (Z.of_nat (length sims))) as [Hlt|Hge]; [|eauto].
  unfold Np.py_argpartition.
  set (k := (if (- top_k <? 0)%Z then (- top_k + Z.of_nat (length sims))%Z
             else (- top_k)%Z)).
  assert (Hrange : ((0 <=? k)%Z && (k <? Z.of_nat (length sims))%Z) = true).
  { apply andb_true_iff. unfold k.
    destruct (Z.ltb_spec (- top_k) 0); split;
      try apply Z.leb_le; try apply Z.ltb_lt; lia. }
  rewrite Hrange. simpl.
  set (part := argpartition sims (Z.to_nat k)).
  set (top0 := Np.slice_from part (- top_k)).
  assert (Htop0 : Forall (fun i => i < length sims) top0).
  { unfold top0, Np.slice_from.
    apply Forall_drop, permutation_of_positions, argpartition_perm. }
  destruct (take_at_returns sims top0 Htop0) as [tv Htv]. rewrite Htv. simpl.
  destruct (take_at_returns top0 (argsort tv)) as [sorted Hso].
  { apply take_at_Forall2 in Htv. rewrite (Forall2_length _ _ _ Htv).
    apply permutation_of_positions, argsort_perm. }
  rewrite Hso. simpl. eauto.
Qed.

End TopK.

Section TopKSorted.
Context {F : Type} `{NumPySort F}.

(** The selection is in descending order of the values, in the order
    numpy sorts by: a NaN, which that order puts last, comes first. *)
Lemma top_k_indices_sorted (sims : list F) (top_k : Z) (top : list nat) :
  VectorStore.top_k_indices sims top_k = Ok top ->
  StronglySorted (fun i j => Np.le_at sims j i) top.
Proof.
  unfold VectorStore.top_k_indices.
  destruct (top_k <? Z.of_nat (length sims))%Z.
  - unfold Np.py_argpartition.
    destruct (_ && _); [|discriminate]. cbn [Py.bind].
    match goal with |- context [argpartition sims ?k] => set (part := argpartition sims k) end.
    set (top0 := Np.slice_from part (- top_k)).
    destruct (Np.take_at sims top0) as [tv|e] eqn:Htv; [|discriminate]. cbn [Py.bind].
    destruct (Np.take_at top0 (argsort tv)) as [sorted|e] eqn:Hso; [|discriminate].
    cbn [Py.bind]. intros [= <-].
    apply take_at_Forall2 in Htv. apply take_at_Forall2 in Hso.
    apply (sorted_rev (Np.le_at sims)).
    apply (sorted_transfer (Np.le_at tv) (Np.le_at sims)
             (fun i a => top0 !! i = Some a) (argsort tv) sorted);
      [|exact Hso|apply argsort_sorted].
    intros i j a b Hij Ha Hb x y Hx Hy.
    destruct (Forall2_lookup_l _ _ _ _ _ Htv Ha) as (x' & Hx' & Hax).
    destruct (Forall2_lookup_l _ _ _ _ _ Htv Hb) as (y' & Hy' & Hby).
    simpl in *. rewrite Hx in Hax. rewrite Hy in Hby.
    inversion Hax; inversion Hby; subst. apply (Hij _ _ Hx' Hy').
  - intros [= <-]. apply (sorted_rev (Np.le_at sims)), argsort_sorted.
Qed.

End TopKSorted.

Section SearchFacts.
Context {F M : Type} `{NumPyPerm F}.
Implicit Types s : VectorStore.t F M.

Lemma apply_threshold_spec (sims : list F) th :
  length (VectorStore.apply_threshold sims th).2
  = length (VectorStore.apply_threshold sims th).1
  /\ Forall (fun i => i < length sims) (VectorStore.apply_threshold sims th).2.
Proof.
  destruct th as [t|]; simpl.
  - rewrite !length_map. split; [reflexivity|].
    apply Forall_forall. intros i Hi. apply list_elem_of_In in Hi.
    apply in_map_iff in Hi as ([j x] & <- & Hin). simpl.
    apply filter_In in Hin as [Hin _]. apply in_combine_l in Hin.
    apply in_seq in Hin. lia.
  - rewrite length_seq. split; [reflexivity|].
    apply Forall_forall. intros i Hi. apply list_elem_of_In, in_seq in Hi. lia.
Qed.

Lemma index_to_id_total s i :
  VectorStore.consistent s -> i < length (VectorStore.metadata s) ->
  is_Some (VectorStore.index_to_id (VectorStore.id_to_index s) !! i).
Proof.
  intros (_ & _ & _ & Hsur & _) Hi. destruct (Hsur i Hi) as [k Hk].
  unfold VectorStore.index_to_id.
  apply not_eq_None_Some. intros Hnone.
  apply not_elem_of_list_to_map in Hnone. apply Hnone.
  apply list_elem_of_fmap. exists (i, k). split; [reflexivity|].
  apply list_elem_of_fmap. exists (k, i). split; [reflexivity|].
  apply elem_of_map_to_list. exact Hk.
Qed.

Lemma build_results_spec s (sims : list F) indices top res :
  VectorStore.build_results s sims indices top = Ok res ->
  Forall2 (fun idx r => sims !! idx = Some (VectorStore.result_similarity r)) top res.
Proof.
  intros Hb. apply for_each_Forall2 in Hb.
  eapply Forall2_impl; [exact Hb|]. intros idx r. simpl.
  destruct (indices !! idx) as [a|]; simpl; [|discriminate].
  destruct (VectorStore.index_to_id (VectorStore.id_to_index s) !! a); simpl; [|discriminate].
  destruct (sims !! idx) as [x|]; simpl; [|discriminate].
  destruct (VectorStore.metadata s !! a); simpl; [|discriminate].
  intros [= <-]. reflexivity.
Qed.

Lemma build_results_returns s (sims : list F) indices top :
  VectorStore.consistent s ->
  length indices = length sims ->
  Forall (fun i => i < length (VectorStore.metadata s)) indices ->
  Forall (fun i => i < length sims) top ->
  exists res, VectorStore.build_results s sims indices top = Ok res.
Proof.
  intros Hs Hlen Hind Htop. apply for_each_returns.
  eapply Forall_impl; [exact Htop|]. intros idx Hidx. simpl in Hidx.
  destruct (lookup_lt_is_Some_2 indices idx) as [a Ha]; [lia|].
  assert (Hlt : a < length (VectorStore.metadata s)).
  { rewrite Forall_forall in Hind. apply Hind. apply list_elem_of_lookup. eauto. }
  destruct (index_to_id_total s a Hs Hlt) as [k Hk].
  destruct (lookup_lt_is_Some_2 sims idx Hidx) as [x Hx].
  destruct (lookup_lt_is_Some_2 (VectorStore.metadata s) a Hlt) as [m Hm].
  exists (k, x, m). rewrite Ha. simpl. rewrite Hk. simpl. rewrite Hx. simpl.
  rewrite Hm. reflexivity.
Qed.

(** For [top_k >= 1], what [search] returns has at most [top_k]
    entries. *)
Lemma search_bound s query top_k th res :
  VectorStore.search query top_k th s = Ok res ->
  (1 <= top_k)%Z -> (Z.of_nat (length res) <= top_k)%Z.
Proof.
  unfold VectorStore.search.
  destruct (length (VectorStore.vectors s) =? 0).
  { intros [= <-]. simpl; lia. }
  destruct (Np.width (VectorStore.vectors s) =? length query); [|discriminate].
  simpl.
  destruct (VectorStore.apply_threshold _ th) as [sims indices].
  destruct (VectorStore.top_k_indices sims top_k) as [top|e] eqn:Htop; [|discriminate].
  simpl. intros Hb.
  apply top_k_indices_bounds in Htop as (_ & Hlen).
  apply build_results_spec in Hb.
  rewrite <- (Forall2_length _ _ _ Hb). exact Hlen.
Qed.

(** In a consistent index, a search with a query of the width of the
    rows and a [top_k] that is not negative returns a list. *)
Lemma search_returns s query top_k th :
  VectorStore.consistent s ->
  VectorStore.vectors s = [] \/ Np.width (VectorStore.vectors s) = length query ->
  (0 <= top_k)%Z ->
  exists res, VectorStore.search query top_k th s = Ok res.
Proof.
  intros Hs Hshape Hk. unfold VectorStore.search.
  destruct (length (VectorStore.vectors s) =? 0) eqn:E; [eauto|].
  destruct Hshape as [Hnil|Hw]; [rewrite Hnil in E; discriminate|].
  rewrite (proj2 (Nat.eqb_eq _ _) Hw). simpl.
  set (sims0 := map _ (map normalize (VectorStore.vectors s))).
  pose proof (apply_threshold_spec sims0 th) as [Hlen Hind].
  destruct (VectorStore.apply_threshold sims0 th) as [sims indices]. simpl in *.
  destruct (top_k_indices_returns sims top_k Hk) as [top Htop].
  rewrite Htop. simpl.
  apply top_k_indices_bounds in Htop as (Hbound & _).
  apply build_results_returns; auto.
  destruct Hs as (Hv & _).
  unfold sims0 in Hind. rewrite !length_map, Hv in Hind. exact Hind.
Qed.

End SearchFacts.

Section SearchSorted.
Context {F M : Type} `{NumPySort F}.
Implicit Types s : VectorStore.t F M.

(** What [search] returns is in descending order of similarity, in the
    order numpy sorts by. *)
Lemma search_sorted s query top_k th res :
  VectorStore.search query top_k th s = Ok res ->
  StronglySorted
    (fun a b => Np.sort_le (VectorStore.result_similarity b)
                           (VectorStore.result_similarity a) = true) res.
Proof.
  unfold VectorStore.search.
  destruct (length (VectorStore.vectors s) =? 0).
  { intros [= <-]. constructor. }
  destruct (Np.width (VectorStore.vectors s) =? length query); [|discriminate].
  simpl.
  destruct (VectorStore.apply_threshold _ th) as [sims indices].
  destruct (VectorStore.top_k_indices sims top_k) as [top|e] eqn:Htop; [|discriminate].
  simpl. intros Hb.
  apply top_k_indices_sorted in Htop.
  assert (Hb' : Forall2 (fun idx r => sims !! idx = Some (VectorStore.result_similarity r))
                  top res).
  { apply for_each_Forall2 in Hb.
    eapply Forall2_impl; [exact Hb|]. intros idx r. simpl.
    destruct (indices !! idx) as [a|]; simpl; [|discriminate].
    destruct (VectorStore.index_to_id (VectorStore.id_to_index s) !! a); simpl; [|discriminate].
    destruct (sims !! idx) as [x|]; simpl; [|discriminate].
    destruct (VectorStore.metadata s !! a); simpl; [|discriminate].
    intros [= <-]. reflexivity. }
  apply (sorted_transfer (fun i j => Np.le_at sims j i) _
           (fun idx r => sims !! idx = Some (VectorStore.result_similarity r)) top res);
    [|exact Hb'|exact Htop].
  intros i j a b Hij Ha Hb0. apply (Hij _ _ Hb0 Ha).
Qed.

(** Among numbers the order numpy sorts by is [<=]. *)
Lemma sort_le_number (x y : F) :
  Np.sort_le x y = true -> Np.is_nan y = false -> fle x y = true.
Proof.
  unfold Np.sort_le. intros Hxy Hy. rewrite Hy, orb_false_r in Hxy. exact Hxy.
Qed.

End SearchSorted.

(** ** The insertion sort meets the contract *)

Section InsertionSortFacts.
Context {F : Type} (le : F -> F -> bool).
Hypothesis le_total : forall x y, le x y = true \/ le y x = true.
Hypothesis le_trans : forall x y z, le x y = true -> le y z = true -> le x z = true.
Import InsertionSort.

Definition le_pair (p q : nat * F) : Prop := le p.2 q.2 = true.

Lemma insert_by_perm p l : Permutation (insert_by le p l) (p :: l).
Proof.
  induction l as [|q l IH]; simpl; [reflexivity|].
  destruct (le q.2 p.2); [|reflexivity].
  rewrite IH. apply perm_swap.
Qed.

Lemma insert_by_sorted p l :
  StronglySorted le_pair l -> StronglySorted le_pair (insert_by le p l).
Proof.
  induction 1 as [|q l Hl IH Hq]; simpl; [repeat constructor|].
  destruct (le q.2 p.2) eqn:E.
  - constructor; [assumption|].
    apply Forall_forall. intros r Hr. apply list_elem_of_In in Hr.
    apply (Permutation_in _ (insert_by_perm p l)) in Hr as [<-|Hr]; [exact E|].
    rewrite Forall_forall in Hq. apply Hq, list_elem_of_In, Hr.
  - assert (Hpq : le_pair p q) by (destruct (le_total p.2 q.2); [assumption|congruence]).
    constructor; [constructor; assumption|].
    constructor; [assumption|].
    eapply Forall_impl; [exact Hq|]. intros r Hr. exact (le_trans _ _ _ Hpq Hr).
Qed.

Lemma sort_pairs_spec ps : forall acc,
  StronglySorted le_pair acc ->
  StronglySorted le_pair (fold_left (fun a p => insert_by le p a) ps acc)
  /\ Permutation (fold_left (fun a p => insert_by le p a) ps acc) (acc ++ ps).
Proof.
  induction ps as [|p ps IH]; intros acc Hacc; simpl.
  - rewrite app_nil_r. auto.
  - destruct (IH (insert_by le p acc) (insert_by_sorted p acc Hacc)) as [Hs Hp].
    split; [assumption|]. rewrite Hp, insert_by_perm.
    change (p :: acc) with ([p] ++ acc).
    rewrite (Permutation_app_comm [p] acc), <- app_assoc. reflexivity.
Qed.

Lemma combine_positions (a : list F) : forall start,
  map fst (combine (seq start (length a)) a) = seq start (length a)
  /\ Forall (fun p => a !! (p.1 - start) = Some p.2 /\ start <= p.1)
            (combine (seq start (length a)) a).
Proof.
  induction a as [|x a IH]; intros start; simpl; [split; constructor|].
  destruct (IH (S start)) as [Hfst Hall]. split; [rewrite Hfst; reflexivity|].
  constructor; [simpl; rewrite Nat.sub_diag; auto|].
  eapply Forall_impl; [exact Hall|]. intros [i y] [Hy Hi]. simpl in *.
  split; [|lia]. replace (i - start) with (S (i - S start)) by lia. exact Hy.
Qed.

Lemma stable_argsort_perm (a : list F) :
  Permutation (stable_argsort le a) (seq 0 (length a)).
Proof.
  unfold stable_argsort, sort_pairs.
  destruct (sort_pairs_spec (combine (seq 0 (length a)) a) []) as [_ Hp]; [constructor|].
  rewrite Hp. simpl. rewrite (proj1 (combine_positions a 0)). reflexivity.
Qed.

Lemma stable_argsort_sorted (a : list F) :
  StronglySorted (fun i j => forall x y, a !! i = Some x -> a !! j = Some y -> le x y = true)
                 (stable_argsort le a).
Proof.
  unfold stable_argsort, sort_pairs.
  destruct (sort_pairs_spec (combine (seq 0 (length a)) a) []) as [Hs Hp]; [constructor|].
  simpl in Hp.
  set (sorted := fold_left _ _ _) in *.
  assert (Hall : Forall (fun p => a !! p.1 = Some p.2) sorted).
  { apply Forall_forall. intros p Hin. apply list_elem_of_In in Hin.
    apply (Permutation_in _ Hp) in Hin.
    pose proof (proj2 (combine_positions a 0)) as Hc.
    rewrite Forall_forall in Hc. apply list_elem_of_In, Hc in Hin as [Hl _].
    rewrite Nat.sub_0_r in Hl. exact Hl. }
  apply (sorted_transfer le_pair _ (fun p i => p.1 = i /\ a !! p.1 = Some p.2)
           sorted (map fst sorted)); [| |exact Hs].
  - intros p q i j Hpq [<- Hp1] [<- Hq1] x y Hx Hy.
    rewrite Hp1 in Hx. rewrite Hq1 in Hy. inversion Hx; inversion Hy; subst. exact Hpq.
  - clear -Hall. induction Hall; simpl; constructor; auto.
Qed.

End InsertionSortFacts.

Lemma sorted_lookup {A} (R : A -> A -> Prop) (l : list A) i j x y :
  StronglySorted R l -> i < j -> l !! i = Some x -> l !! j = Some y -> R x y.
Proof.
  intros Hs. revert i j. induction Hs as [|a l Hs IH Hall]; intros i j Hij Hi Hj.
  - discriminate.
  - destruct j as [|j]; [lia|]. destruct i as [|i]; simpl in Hi, Hj.
    + injection Hi as <-. rewrite Forall_forall in Hall. apply Hall.
      apply list_elem_of_lookup. eauto.
    + apply (IH i j); [lia|assumption..].
Qed.

(** ** The order of binary64 *)

(** The place of a float that is no NaN: the sign class, then exponent
    and mantissa, negated for a negative number. *)
Definition rank (f : spec_float) : option (Z * Z * Z) :=
  match f with
  | S754_nan => None
  | S754_zero _ => Some (0, 0, 0)%Z
  | S754_infinity s => Some (if s then (-2)%Z else 2%Z, 0%Z, 0%Z)
  | S754_finite s m e => Some (if s then (-1, - e, - Z.pos m)%Z else (1, e, Z.pos m)%Z)
  end.

Definition lex_le (a b : Z * Z * Z) : Prop :=
  (a.1.1 < b.1.1
   \/ (a.1.1 = b.1.1 /\ (a.1.2 < b.1.2 \/ (a.1.2 = b.1.2 /\ a.2 <= b.2))))%Z.

Lemma SFleb_rank (x y : spec_float) :
  SFleb x y = true <->
  match rank x, rank y with
  | Some a, Some b => lex_le a b
  | _, _ => False
  end.
Proof.
  unfold SFleb, SFcompare, lex_le.
  destruct x as [sx|sx| |sx mx ex], y as [sy|sy| |sy my ey];
    try destruct sx; try destruct sy; simpl;
    try (split; [intros; try discriminate; lia | intros; try reflexivity; lia]);
    try (split; [discriminate|tauto]).
  all: change (Pos.compare_cont Eq ?a ?b) with (Pos.compare a b).
  all: destruct (Z.compare_spec ex ey); destruct (Pos.compare_spec mx my); simpl;
    (split; [intros; try discriminate; lia | intros; try reflexivity; lia]).
Qed.

Lemma leb_rank (x y : float) :
  (x <=? y)%float = true <->
  match rank (Prim2SF x), rank (Prim2SF y) with
  | Some a, Some b => lex_le a b
  | _, _ => False
  end.
Proof. rewrite leb_spec. apply SFleb_rank. Qed.

#[global] Instance float64_order : FloatOrder float.
Proof.
  constructor; cbn [fle Float64.numpy].
  - intros x y z Hxy Hyz. apply leb_rank in Hxy, Hyz. apply leb_rank.
    destruct (rank (Prim2SF x)) as [a|], (rank (Prim2SF y)) as [b|],
             (rank (Prim2SF z)) as [c|]; try contradiction.
    unfold lex_le in *. lia.
  - intros x y Hxy. apply leb_rank in Hxy. rewrite !leb_rank.
    destruct (rank (Prim2SF x)) as [a|], (rank (Prim2SF y)) as [b|]; try contradiction.
    unfold lex_le. split; lia.
  - intros x y Hx Hy. apply leb_rank in Hx, Hy. rewrite !leb_rank.
    destruct (rank (Prim2SF x)) as [a|], (rank (Prim2SF y)) as [b|]; try contradiction.
    unfold lex_le. lia.
Qed.

Section SortOrder.
Context {F : Type} `{FloatOrder F}.

Lemma sort_le_total (x y : F) : Np.sort_le x y = true \/ Np.sort_le y x = true.
Proof.
  unfold Np.sort_le, Np.is_nan.
  destruct (fle x x) eqn:Hx; [|right; apply orb_true_r].
  destruct (fle y y) eqn:Hy; [|left; apply orb_true_r].
  destruct (fle_total x y Hx Hy) as [E|E]; rewrite E; auto.
Qed.

Lemma sort_le_trans (x y z : F) :
  Np.sort_le x y = true -> Np.sort_le y z = true -> Np.sort_le x z = true.
Proof.
  unfold Np.sort_le, Np.is_nan. intros Hxy Hyz.
  destruct (fle z z) eqn:Hz; [|apply orb_true_r].
  simpl in *. rewrite orb_false_r in *.
  destruct (fle_numbers y z Hyz) as [Hy _]. rewrite Hy in Hxy.
  simpl in Hxy. rewrite orb_false_r in Hxy.
  exact (fle_trans x y z Hxy Hyz).
Qed.

End SortOrder.

Lemma float64_sort_le_total (x y : float) :
  Float64.sort_le x y = true \/ Float64.sort_le y x = true.
Proof. exact (sort_le_total (F:=float) x y). Qed.

Lemma float64_sort_le_trans (x y z : float) :
  Float64.sort_le x y = true -> Float64.sort_le y z = true -> Float64.sort_le x z = true.
Proof. exact (sort_le_trans (F:=float) x y z). Qed.

#[global] Instance float64_perm : NumPyPerm float.
Proof.
  constructor; cbn [argsort argpartition Float64.numpy]; intros a;
    [|intros _];
    apply (stable_argsort_perm Float64.sort_le
             float64_sort_le_total float64_sort_le_trans).
Qed.

#[global] Instance float64_sort : NumPySort float.
Proof.
  constructor. intros a.
  apply (stable_argsort_sorted Float64.sort_le
           float64_sort_le_total float64_sort_le_trans).
Qed.

#[global] Instance float64_partition : NumPyPartition float.
Proof.
  assert (Hord : forall (a : list float) i j p q, i <= j ->
             InsertionSort.stable_argsort Float64.sort_le a !! i = Some p ->
             InsertionSort.stable_argsort Float64.sort_le a !! j = Some q ->
             Np.le_at a p q).
  { intros a i j p q Hij Hp Hq.
    destruct (decide (i = j)) as [->|Hne].
    - rewrite Hp in Hq. injection Hq as <-. intros x y Hx Hy.
      rewrite Hx in Hy. injection Hy as <-.
      destruct (float64_sort_le_total x x); assumption.
    - pose proof (stable_argsort_sorted Float64.sort_le
                    float64_sort_le_total float64_sort_le_trans a) as Hs.
      assert (Hlt : i < j) by lia.
      exact (sorted_lookup _ _ i j p q Hs Hlt Hp Hq). }
  constructor; cbn [argpartition Float64.numpy].
  - intros a kth i p pivot Hi Hp Hpv. exact (Hord a i kth p pivot Hi Hp Hpv).
  - intros a kth j p pivot Hj Hp Hpv. exact (Hord a kth j pivot p Hj Hpv Hp).
Qed.

(** ** The vector index: the claims about search *)

Section SearchExamples.
Import VectorStore.

Lemma triangle_consistent : consistent triangle.
Proof. unfold triangle. repeat apply add_consistent. apply init_consistent. Qed.

Example twins_positions :
  id_to_index twins !! "a" = Some 0 /\ id_to_index twins !! "b" = Some 1.
Proof. vm_compute. auto. Qed.

Example triangle_search :
  search [1.0; 0.0]%float 2 None triangle
  = Ok [("a", 1.0%float, ∅); ("c", 0.6%float, ∅)].
Proof. vm_compute. reflexivity. Qed.

(** A zero row: its similarity is 0/0, a NaN, which the ascending sort
    puts last and the reversal first. *)
Example zero_row_search :
  exists nan,
    search [1.0; 0.0]%float 10 None with_zero_row
    = Ok [("z", nan, ∅); ("x", 1.0%float, ∅)]
    /\ Np.is_nan nan = true.
Proof. eexists. split; vm_compute; reflexivity. Qed.

End SearchExamples.

(** C2 fails on the code at [top_k = 0]: the block under [# Get top k]
    takes the slice [[-top_k:]], which at 0 is the whole array, so the
    search returns every record where the claim says it returns none. *)
Theorem search_top_k_zero_returns_all :
  exists res,
    VectorStore.search [1.0; 0.0]%float 0 None twins = Ok res
    /\ length res = 2.
Proof. eexists. split; [vm_compute; reflexivity|reflexivity]. Qed.

(** From [top_k = 1] on the bound holds: a list that [search] returns has
    at most [top_k] entries, and in a consistent index, for a query of
    the rows' width, [search] does return a list.  (The two sorts are
    taken as returning a rearrangement of the positions.) *)
Lemma search_at_most_top_k {F M : Type} `{NumPyPerm F}
    (s : VectorStore.t F M) (query : list F) (top_k : Z) (threshold : option F) :
  (1 <= top_k)%Z ->
  (forall res, VectorStore.search query top_k threshold s = Ok res ->
               (Z.of_nat (length res) <= top_k)%Z)
  /\ (VectorStore.consistent s ->
      VectorStore.vectors s = [] \/ Np.width (VectorStore.vectors s) = length query ->
      exists res, VectorStore.search query top_k threshold s = Ok res
                  /\ (Z.of_nat (length res) <= top_k)%Z).
Proof.
  intros Hk. split.
  - intros res Hres. exact (search_bound _ _ _ _ _ Hres Hk).
  - intros Hs Hshape.
    destruct (search_returns s query top_k threshold Hs Hshape) as [res Hres]; [lia|].
    exists res. split; [assumption|]. exact (search_bound _ _ _ _ _ Hres Hk).
Qed.

(** C9, as the claim states it, fails on ties: of two records with the
    same vector, hence the same similarity to any query, the one inserted
    later comes first ([argsort] ascending, then reversed). *)
Lemma search_ties_later_first :
  VectorStore.id_to_index twins !! "a" = Some 0
  /\ VectorStore.id_to_index twins !! "b" = Some 1
  /\ VectorStore.search [1.0; 0.0]%float 10 None twins
     = Ok [("b", 1.0%float, ∅); ("a", 1.0%float, ∅)].
Proof. vm_compute. repeat split. Qed.

(** C9, amended: for every index, query, threshold and [top_k], a list
    that [search] returns and that holds no NaN similarity is in
    descending order of similarity (each entry's similarity is at least
    that of every later entry); and in a consistent index, for a query of
    the rows' width and a [top_k] that is not negative, [search] does
    return a list.  Nothing is promised about the order of entries of
    equal similarity, nor about a list with a NaN (the similarity of a
    row or a query of norm zero).  numpy's sorts are taken with their
    contract: they rearrange the positions, and [argsort] sorts
    ascending with a NaN last. *)
Theorem search_ranked_descending {F M : Type} `{NumPyPerm F} `{!NumPySort F}
    (s : VectorStore.t F M) (query : list F) (top_k : Z) (threshold : option F) :
  (forall res, VectorStore.search query top_k threshold s = Ok res ->
               Forall (fun r => Np.is_nan (VectorStore.result_similarity r) = false) res ->
               StronglySorted VectorStore.ranks_before res)
  /\ (VectorStore.consistent s ->
      VectorStore.vectors s = [] \/ Np.width (VectorStore.vectors s) = length query ->
      (0 <= top_k)%Z ->
      exists res, VectorStore.search query top_k threshold s = Ok res).
Proof.
  split.
  - intros res Hres Hnum. apply search_sorted in Hres.
    induction Hres as [|r res Hres IH Hr]; [constructor|].
    inversion Hnum as [|? ? Hr0 Hnum']; subst.
    constructor; [exact (IH Hnum')|].
    rewrite Forall_forall in *. intros b Hb.
    unfold VectorStore.ranks_before.
    exact (sort_le_number _ _ (Hr b Hb) Hr0).
  - intros Hs Hshape Hk. exact (search_returns s query top_k threshold Hs Hshape Hk).
Qed.

Lemma search_ranked_descending_witness :
  StronglySorted VectorStore.ranks_before
    [("a", 1.0%float, (∅ : dict)); ("c", 0.6%float, ∅); ("b", 0.0%float, ∅)]
  /\ exists res, VectorStore.search [1.0; 0.0]%float 10 None triangle = Ok res.
Proof.
  split.
  - apply (proj1 (search_ranked_descending triangle [1.0; 0.0]%float 10 None)).
    + vm_compute. reflexivity.
    + repeat constructor.
  - apply (proj2 (search_ranked_descending triangle [1.0; 0.0]%float 10 None)).
    + exact triangle_consistent.
    + right. reflexivity.
    + lia.
Defined.

(** ** Recommendations from an empty index *)

Section MockRecommendations.
Import PathwayRecommender.
Context `{NumPy float}.
Variable encode : string -> list float.
Variable py_repr : pyval -> string.

Lemma str_join_returns sep parts :
  Forall is_str parts -> exists joined, str_join sep parts = Ok joined.
Proof.
  induction 1 as [|v parts [t ->] Hparts [joined IH]]; simpl; [eauto|].
  destruct parts as [|v' parts']; [eauto|].
  rewrite IH. simpl. eauto.
Qed.

Lemma text_parts_are_str micro_credential :
  text_fields_are_str micro_credential -> Forall is_str (text_parts micro_credential).
Proof.
  intros [Ht Hd]. unfold text_parts. rewrite !Forall_app. repeat split.
  - destruct (micro_credential !! "title") as [v|]; [|constructor].
    constructor; [apply Ht; reflexivity|constructor].
  - destruct (micro_credential !! "description") as [v|]; [|constructor].
    constructor; [apply Hd; reflexivity|constructor].
  - destruct (micro_credential !! "learning_outcomes") as [[| | |l]|]; try constructor.
    + eexists; reflexivity.
    + constructor.
    + apply Forall_forall. intros v Hv. apply list_elem_of_fmap in Hv as (t & -> & _).
      eexists; reflexivity.
Qed.

(** The first three characters of a text. *)
Definition opening (s : string) : string := String.substring 0 3 s.

Lemma reasoning_opening similarity source target text :
  _generate_reasoning py_repr similarity source target = Ok text ->
  opening text = "Hig" \/ opening text = "Mod" \/ opening text = "Som".
Proof.
  unfold _generate_reasoning.
  destruct (0.8 <? similarity)%float; [|destruct (0.6 <? similarity)%float];
    destruct (Py.eqb _ _);
    (destruct (truthy _ && truthy _);
     [destruct (similarity_of _ _) as [sim|e]; simpl; [|discriminate];
      destruct (0.7 <? sim)%float|]);
    simpl; intros [= <-]; cbn; auto.
Qed.

Lemma build_not_mock micro_credential inst profile top_k results :
  forall acc recs,
    Forall (fun r => reasoning r <> mock_reasoning) acc ->
    build py_repr micro_credential inst profile top_k results acc = Ok recs ->
    Forall (fun r => reasoning r <> mock_reasoning) recs.
Proof.
  induction results as [|[[vid sim] meta] rest IH]; intros acc recs Hacc; simpl.
  - intros [= <-]. exact Hacc.
  - match goal with |- context [if ?c then build _ _ _ _ _ rest acc else _] =>
      destruct c end; [apply IH; exact Hacc|].
    destruct (_calculate_confidence sim micro_credential meta profile) as [conf|e];
      simpl; [|discriminate].
    destruct (_generate_reasoning py_repr sim micro_credential meta) as [text|e] eqn:Hr;
      simpl; [|discriminate].
    assert (Hnew : Forall (fun r => reasoning r <> mock_reasoning)
                     (acc ++ [{| pathway_id := Py.get meta "pathway_id" (PStr vid);
                                 target_program_id := Py.get meta "program_id" (PStr "unknown");
                                 confidence_score := conf;
                                 reasoning := text;
                                 similarity_score := sim;
                                 transfer_credits := Py.get meta "credits" PNone;
                                 institution_name := Py.get meta "institution_name" PNone |}])).
    { apply Forall_app. split; [exact Hacc|]. constructor; [|constructor]. simpl.
      intros ->. apply reasoning_opening in Hr.
      destruct Hr as [Hr|[Hr|Hr]]; vm_compute in Hr; discriminate. }
    destruct (top_k <=? _)%Z; [intros [= <-]; exact Hnew|].
    apply IH. exact Hnew.
Qed.

Lemma recommend_not_mock store micro_credential inst profile top_k min_similarity recs :
  VectorStore.size store <> 0 ->
  recommend encode py_repr store micro_credential inst profile top_k min_similarity = Ok recs ->
  Forall (fun r => reasoning r <> mock_reasoning) recs.
Proof.
  intros Hsize. unfold recommend.
  destruct (str_join " " (text_parts micro_credential)) as [text|e]; simpl; [|discriminate].
  rewrite (proj2 (Nat.eqb_neq _ _) Hsize).
  destruct (VectorStore.search _ _ _ store) as [results|e]; simpl; [|discriminate].
  apply build_not_mock. constructor.
Qed.

Lemma recommend_mock store micro_credential inst profile top_k min_similarity :
  VectorStore.size store = 0 ->
  text_fields_are_str micro_credential ->
  recommend encode py_repr store micro_credential inst profile top_k min_similarity
  = Ok (_generate_mock_recommendations micro_credential inst top_k).
Proof.
  intros Hsize Hstr. unfold recommend.
  destruct (str_join_returns " " _ (text_parts_are_str _ Hstr)) as [text ->]. simpl.
  rewrite Hsize. reflexivity.
Qed.

End MockRecommendations.

Section MockExamples.
Import PathwayRecommender.

Lemma credential_text_fields : PathwayRecommender.text_fields_are_str credential.
Proof.
  split; intros v Hv; vm_compute in Hv; inversion Hv; eexists; reflexivity.
Qed.

End MockExamples.

(** C5 fails on the code in the third score: the placeholders aim at
    0.85, 0.75 and 0.65, but the scores are computed as [0.85 - i * 0.1]
    in binary64, and [0.85 - 2 * 0.1] is 0.6499999999999999, the number
    just below 0.65. *)
Theorem mock_third_confidence_not_065 :
  exists r1 r2 r3,
    PathwayRecommender.recommend no_encoder no_repr
      (VectorStore.init 384) credential None None 5 0.5%float = Ok [r1; r2; r3]
    /\ PathwayRecommender.confidence_score r3 = 0.6499999999999999%float
    /\ PathwayRecommender.confidence_score r3 <> 0.65%float.
Proof.
  do 3 eexists. split; [vm_compute; reflexivity|]. simpl. split; [reflexivity|].
  apply float_distinct; vm_compute; reflexivity.
Qed.

(** What does hold of the placeholders: for a credential whose title and
    description are strings, as the request model has them, [recommend]
    against an empty index with [top_k >= 3] returns exactly three
    placeholder recommendations, with the scores [0.85], [0.75] and
    [0.85 - 2 * 0.1] in this descending order; it does not raise and the
    list is not empty.  A placeholder carries no flag of its own: it is
    told from a recommendation computed from a non-empty index by its
    reasoning, the fixed text [mock_reasoning], which none of those
    carries. *)
Lemma recommend_on_empty_index `{NumPy float}
    (encode : string -> list float) (py_repr : pyval -> string)
    (store : VectorStore.t float dict) (micro_credential : dict)
    (inst : option string) (profile : option dict) (top_k : Z) (min_similarity : float) :
  VectorStore.size store = 0 ->
  (3 <= top_k)%Z ->
  PathwayRecommender.text_fields_are_str micro_credential ->
  (exists r1 r2 r3,
      PathwayRecommender.recommend encode py_repr store micro_credential inst profile
        top_k min_similarity = Ok [r1; r2; r3]
      /\ PathwayRecommender.confidence_score r1 = 0.85%float
      /\ PathwayRecommender.confidence_score r2 = 0.75%float
      /\ PathwayRecommender.confidence_score r3 = 0.6499999999999999%float
      /\ (PathwayRecommender.confidence_score r2 <? PathwayRecommender.confidence_score r1)%float
         = true
      /\ (PathwayRecommender.confidence_score r3 <? PathwayRecommender.confidence_score r2)%float
         = true
      /\ Forall (fun r => PathwayRecommender.reasoning r = PathwayRecommender.mock_reasoning)
                [r1; r2; r3])
  /\ (forall store' mc' inst' profile' top_k' min_similarity' recs,
        VectorStore.size store' <> 0 ->
        PathwayRecommender.recommend encode py_repr store' mc' inst' profile'
          top_k' min_similarity' = Ok recs ->
        Forall (fun r => PathwayRecommender.reasoning r <> PathwayRecommender.mock_reasoning)
               recs).
Proof.
  intros Hsize Hk Hstr. split.
  - rewrite (recommend_mock encode py_repr store micro_credential inst profile top_k
               min_similarity Hsize Hstr).
    unfold PathwayRecommender._generate_mock_recommendations.
    replace (Z.min top_k 3) with 3%Z by lia.
    do 3 eexists. split; [vm_compute; reflexivity|].
    simpl. repeat split; repeat constructor.
  - intros store' mc' inst' profile' top_k' min_similarity' recs Hne Hrec.
    eapply recommend_not_mock; eauto.
Qed.

Lemma recommend_on_empty_index_witness :
  exists r1 r2 r3,
    PathwayRecommender.recommend no_encoder no_repr
      (VectorStore.init 384) credential None None 5 0.5%float = Ok [r1; r2; r3]
    /\ PathwayRecommender.confidence_score r1 = 0.85%float
    /\ PathwayRecommender.confidence_score r2 = 0.75%float
    /\ PathwayRecommender.confidence_score r3 = 0.6499999999999999%float
    /\ (PathwayRecommender.confidence_score r2 <? PathwayRecommender.confidence_score r1)%float
       = true
    /\ (PathwayRecommender.confidence_score r3 <? PathwayRecommender.confidence_score r2)%float
       = true
    /\ Forall (fun r => PathwayRecommender.reasoning r = PathwayRecommender.mock_reasoning)
              [r1; r2; r3].
Proof.
  refine (proj1 (recommend_on_empty_index no_encoder no_repr
                   (VectorStore.init 384) credential None None 5 0.5%float _ _ _)).
  - reflexivity.
  - lia.
  - exact credential_text_fields.
Defined.

Section RecommendExamples.
Import PathwayRecommender.

Example recommend_from_catalogue :
  recommend axis_encoder no_repr catalogue
    {[ "title" := PStr "Data"; "level" := PStr "Diploma"; "subject" := PStr "Data Science" ]}
    (Some "A") None 5 0.5%float
  = Ok [{| pathway_id := PStr "pathway_0";
           target_program_id := PStr "p1";
           confidence_score := 1.0%float;
           reasoning := "High semantic similarity in program content and learning outcomes. "
                        +:+ "Aligned subject areas.";
           similarity_score := 1.0%float;
           transfer_credits := PNone;
           institution_name := PNone |}].
Proof. vm_compute. reflexivity. Qed.

Example recommend_other_institution :
  recommend axis_encoder no_repr catalogue {[ "title" := PStr "Data" ]}
    (Some "B") None 5 0.5%float = Ok [].
Proof. vm_compute. reflexivity. Qed.

End RecommendExamples.

(** ** The fallback embedding *)

Section FallbackEmbedding.
Import Embeddings.
Context {F : Type} `{NumPy F} `{Runtime F}.

(** The fallback reads the process only through its hash of the text:
    two processes that hash a text to the same seed give it the same
    vector. *)
Lemma fallback_embedding_by_seed (p1 p2 : hash_secret) (text : string) :
  (str_hash p1 text mod 2 ^ 32 = str_hash p2 text mod 2 ^ 32)%Z ->
  _fallback_embeddings p1 [text] = _fallback_embeddings p2 [text].
Proof. intros Hseed. unfold _fallback_embeddings. simpl. rewrite Hseed. reflexivity. Qed.

Lemma fallback_embedding_count (p : hash_secret) (texts : list string) :
  length (_fallback_embeddings p texts) = length texts.
Proof. unfold _fallback_embeddings. apply length_map. Qed.

End FallbackEmbedding.

(** C6 fails on the code: the seed is [hash(text) % 2**32], and two
    processes need not hash a text alike.  In a runtime whose secrets are
    1 and 2 the fallback gives the text ["a"] two different vectors. *)
Theorem fallback_embedding_varies_with_process :
  Embeddings._fallback_embeddings (H:=IntScores.numpy) (H0:=ToyRuntime.runtime) 1%Z ["a"]
  <> Embeddings._fallback_embeddings (H:=IntScores.numpy) (H0:=ToyRuntime.runtime) 2%Z ["a"].
Proof. vm_compute. discriminate. Qed.

(** * Further properties of the code *)

(** ** The vector index: records *)

Lemma store2_consistent : VectorStore.consistent store2.
Proof. unfold store2, store1, store0. repeat apply add_consistent. apply init_consistent. Qed.

Section StoreRecords.
Context {F M : Type}.
Import VectorStore.
Implicit Types s : VectorStore.t F M.

Lemma add_returns_resolved s s' (v : list F) (m : M) vid id :
  add v m vid s = (s', Ok id) -> id = resolve_id vid s.
Proof.
  unfold add. destruct (id_to_index s !! resolve_id vid s) as [idx|].
  - destruct (Np.set_row (vectors s) idx v); [|intros [= _ ?]; discriminate].
    destruct (idx <? length (metadata s)); intros [= _ ?]; congruence.
  - destruct (if length (vectors s) =? 0 then Ok [v] else Np.vstack (vectors s) v);
      intros [= _ ?]; congruence.
Qed.

End StoreRecords.

(** [add] followed by [get], for a vector of the dtype of the index (the
    one scalar type [F] of the model; a vector of another dtype numpy
    would cast on its way into the array): in a consistent index, when
    [add] returns an id for a vector of the rows' length (or for any
    vector while the index has no row), [get] of that id returns the
    vector and the metadata just given. *)
Theorem add_then_get {F M : Type} (s s' : VectorStore.t F M)
    (v : list F) (m : M) (vid : option string) (id : string) :
  VectorStore.consistent s ->
  VectorStore.vectors s = [] \/ length v = Np.width (VectorStore.vectors s) ->
  VectorStore.add v m vid s = (s', Ok id) ->
  VectorStore.get id s' = Ok (Some (v, m)).
Proof.
  intros (Hlen & _ & Hran & _) Hshape Hadd.
  pose proof (add_returns_resolved _ _ _ _ _ _ Hadd) as ->.
  revert Hadd. unfold VectorStore.add.
  destruct (VectorStore.id_to_index s !! VectorStore.resolve_id vid s) as [idx|] eqn:Hid.
  - pose proof (Hran _ _ Hid) as Hidx.
    destruct Hshape as [Hnil|Hw]; [rewrite Hnil in Hlen; simpl in Hlen; lia|].
    unfold Np.set_row.
    rewrite (proj2 (Nat.ltb_lt idx (length (VectorStore.vectors s)))) by lia.
    rewrite (proj2 (Nat.eqb_eq _ _) Hw), (proj2 (Nat.ltb_lt _ _) Hidx).
    intros [= <-]. unfold VectorStore.get. simpl. rewrite Hid.
    rewrite !list_lookup_insert_eq by lia. reflexivity.
  - destruct (length (VectorStore.vectors s) =? 0) eqn:E.
    + apply Nat.eqb_eq in E. intros [= <-]. unfold VectorStore.get. simpl.
      rewrite lookup_insert_eq, length_app. simpl.
      replace (length (VectorStore.metadata s) + 1 - 1) with 0 by lia.
      destruct (VectorStore.metadata s); [reflexivity|simpl in *; lia].
    + destruct Hshape as [Hnil|Hw]; [rewrite Hnil in E; discriminate|].
      unfold Np.vstack. rewrite (proj2 (Nat.eqb_eq _ _) Hw).
      intros [= <-]. unfold VectorStore.get. simpl.
      rewrite lookup_insert_eq, length_app. simpl.
      replace (length (VectorStore.metadata s) + 1 - 1)
        with (length (VectorStore.metadata s)) by lia.
      rewrite <- Hlen at 1.
      rewrite !list_lookup_middle by auto. reflexivity.
Qed.

Lemma add_then_get_witness :
  VectorStore.get "vec_2" (VectorStore.add [1.0; 1.0]%float (∅ : dict) None store2).1
  = Ok (Some ([1.0; 1.0]%float, ∅)).
Proof.
  apply (add_then_get store2 _ [1.0; 1.0]%float ∅ None "vec_2").
  - exact store2_consistent.
  - right. reflexivity.
  - vm_compute. reflexivity.
Defined.

(** [add] leaves the other records alone: in a consistent index, whether
    [add] returns or raises, [get] of any id other than the one [add]
    works with returns what it returned before. *)
Theorem add_keeps_others {F M : Type} (s : VectorStore.t F M)
    (v : list F) (m : M) (vid : option string) (other : string) :
  VectorStore.consistent s ->
  other <> VectorStore.resolve_id vid s ->
  VectorStore.get other (VectorStore.add v m vid s).1 = VectorStore.get other s.
Proof.
  intros (Hlen & _ & Hran & _ & Hinj) Hne. unfold VectorStore.add.
  destruct (VectorStore.id_to_index s !! VectorStore.resolve_id vid s) as [idx|] eqn:Hid.
  - pose proof (Hran _ _ Hid) as Hidx.
    destruct (Np.set_row (VectorStore.vectors s) idx v) as [vs'|e] eqn:Hset; [|reflexivity].
    rewrite (proj2 (Nat.ltb_lt _ _) Hidx). unfold VectorStore.get. simpl.
    destruct (VectorStore.id_to_index s !! other) as [j|] eqn:Hj; [|reflexivity].
    assert (Hji : idx <> j) by (intros <-; apply Hne; eauto).
    assert (Hvs : vs' !! j = VectorStore.vectors s !! j).
    { revert Hset. unfold Np.set_row.
      destruct (idx <? length (VectorStore.vectors s)); [|discriminate].
      destruct (length v =? Np.width (VectorStore.vectors s)).
      - intros [= <-]. apply list_lookup_insert_ne, Hji.
      - destruct v as [|x [|? ?]]; try discriminate.
        intros [= <-]. apply list_lookup_insert_ne, Hji. }
    rewrite Hvs, list_lookup_insert_ne by exact Hji. reflexivity.
  - destruct (if length (VectorStore.vectors s) =? 0 then Ok [v]
              else Np.vstack (VectorStore.vectors s) v) as [vs'|e] eqn:Happ; [|reflexivity].
    unfold VectorStore.get. simpl. rewrite lookup_insert_ne by congruence.
    destruct (VectorStore.id_to_index s !! other) as [j|] eqn:Hj; [|reflexivity].
    pose proof (Hran _ _ Hj) as Hjn.
    rewrite (lookup_app_l (VectorStore.metadata s)) by exact Hjn.
    assert (Hvs : vs' !! j = VectorStore.vectors s !! j).
    { revert Happ. destruct (length (VectorStore.vectors s) =? 0) eqn:E.
      - apply Nat.eqb_eq in E. lia.
      - unfold Np.vstack. destruct (length v =? Np.width (VectorStore.vectors s));
          [|discriminate].
        intros [= <-]. apply lookup_app_l. lia. }
    rewrite Hvs. reflexivity.
Qed.

Lemma add_keeps_others_witness :
  VectorStore.get "vec_0" (VectorStore.add [1.0; 1.0]%float (∅ : dict) (Some "vec_1") store2).1
  = VectorStore.get "vec_0" store2.
Proof.
  apply (add_keeps_others store2 [1.0; 1.0]%float ∅ (Some "vec_1") "vec_0").
  - exact store2_consistent.
  - vm_compute. discriminate.
Defined.

(** Insert or update: when [add] returns, the id is the caller's or the
    generated one, and the size has grown by one if the id was new and
    is unchanged if the id was present. *)
Theorem add_size {F M : Type} (s s' : VectorStore.t F M)
    (v : list F) (m : M) (vid : option string) (id : string) :
  VectorStore.add v m vid s = (s', Ok id) ->
  id = VectorStore.resolve_id vid s
  /\ VectorStore.size s'
     = match VectorStore.id_to_index s !! id with
       | Some _ => VectorStore.size s
       | None => S (VectorStore.size s)
       end.
Proof.
  intros Hadd. pose proof (add_returns_resolved _ _ _ _ _ _ Hadd) as ->.
  split; [reflexivity|]. revert Hadd. unfold VectorStore.add, VectorStore.size.
  destruct (VectorStore.id_to_index s !! VectorStore.resolve_id vid s) as [idx|].
  - destruct (Np.set_row (VectorStore.vectors s) idx v); [|intros [= _ ?]; discriminate].
    destruct (idx <? length (VectorStore.metadata s)); [|intros [= _ ?]; discriminate].
    intros [= <-]. simpl. apply length_insert.
  - destruct (if length (VectorStore.vectors s) =? 0 then Ok [v]
              else Np.vstack (VectorStore.vectors s) v); [|intros [= _ ?]; discriminate].
    intros [= <-]. simpl. rewrite length_app. simpl. lia.
Qed.

Lemma add_size_witness :
  "vec_1" = VectorStore.resolve_id (Some "vec_1") store2
  /\ VectorStore.size (VectorStore.add [1.0; 1.0]%float (∅ : dict) (Some "vec_1") store2).1
     = match VectorStore.id_to_index store2 !! "vec_1" with
       | Some _ => VectorStore.size store2
       | None => S (VectorStore.size store2)
       end.
Proof.
  apply (add_size store2 _ [1.0; 1.0]%float ∅ (Some "vec_1") "vec_1").
  vm_compute. reflexivity.
Defined.

(** [delete] of a present id: in a consistent index it returns [True],
    the size drops by one, and [get] of the id then returns [None]. *)
Theorem delete_removes {F M : Type} (s : VectorStore.t F M) (id : string) :
  VectorStore.consistent s ->
  is_Some (VectorStore.id_to_index s !! id) ->
  exists s',
    VectorStore.delete id s = (s', Ok true)
    /\ VectorStore.size s' = VectorStore.size s - 1
    /\ VectorStore.get id s' = Ok None.
Proof.
  intros (Hlen & _ & Hran & _) [idx Hid]. pose proof (Hran _ _ Hid) as Hidx.
  unfold VectorStore.delete, Np.delete_row. rewrite Hid.
  rewrite (proj2 (Nat.ltb_lt idx (length (VectorStore.vectors s)))) by lia.
  rewrite (proj2 (Nat.ltb_lt _ _) Hidx).
  eexists. split; [reflexivity|]. unfold VectorStore.size, VectorStore.get. simpl.
  split.
  - apply length_delete, lookup_lt_is_Some. exact Hidx.
  - rewrite lookup_fmap, lookup_delete_eq. reflexivity.
Qed.

Lemma delete_removes_witness :
  exists s',
    VectorStore.delete "vec_0" store2 = (s', Ok true)
    /\ VectorStore.size s' = VectorStore.size store2 - 1
    /\ VectorStore.get "vec_0" s' = Ok None.
Proof.
  apply (delete_removes store2 "vec_0").
  - exact store2_consistent.
  - exists 0. vm_compute. reflexivity.
Defined.

(** [delete] keeps the mapping of the remaining ids right: in a
    consistent index, [get] of any other id returns after the delete the
    vector and metadata it returned before. *)
Theorem delete_keeps_others {F M : Type} (s : VectorStore.t F M) (id other : string) :
  VectorStore.consistent s ->
  other <> id ->
  VectorStore.get other (VectorStore.delete id s).1 = VectorStore.get other s.
Proof.
  intros (Hlen & _ & Hran & _ & Hinj) Hne. unfold VectorStore.delete, Np.delete_row.
  destruct (VectorStore.id_to_index s !! id) as [idx|] eqn:Hid; [|reflexivity].
  pose proof (Hran _ _ Hid) as Hidx.
  rewrite (proj2 (Nat.ltb_lt idx (length (VectorStore.vectors s)))) by lia.
  rewrite (proj2 (Nat.ltb_lt _ _) Hidx).
  unfold VectorStore.get. simpl.
  rewrite lookup_fmap, lookup_delete_ne by congruence.
  destruct (VectorStore.id_to_index s !! other) as [j|] eqn:Hj; [|reflexivity]. simpl.
  assert (Hji : j <> idx) by (intros ->; apply Hne; eauto).
  destruct (Nat.ltb_spec idx j).
  - rewrite !list_lookup_delete_ge by lia.
    replace (S (j - 1)) with j by lia. reflexivity.
  - rewrite !list_lookup_delete_lt by lia. reflexivity.
Qed.

Lemma delete_keeps_others_witness :
  VectorStore.get "vec_1" (VectorStore.delete "vec_0" store2).1
  = VectorStore.get "vec_1" store2.
Proof.
  apply (delete_keeps_others store2 "vec_0" "vec_1").
  - exact store2_consistent.
  - discriminate.
Defined.

(** ** The vector index: what a search returns *)

Lemma filter_fst_NoDup {A B} (P : A * B -> bool) (l : list (A * B)) :
  NoDup (map fst l) -> NoDup (map fst (List.filter P l)).
Proof.
  induction l as [|p l IH]; simpl; [auto|].
  intros Hnd. apply NoDup_cons in Hnd as [Hp Hl].
  destruct (P p); simpl; [|auto].
  apply NoDup_cons. split; [|auto].
  intros Hin. apply Hp. apply list_elem_of_In in Hin. apply list_elem_of_In.
  apply in_map_iff in Hin as (q & Hq & Hin). apply filter_In in Hin as [Hin _].
  apply in_map_iff. eauto.
Qed.

Section SearchResults.
Context {F M : Type} `{NumPy F}.
Implicit Types s : VectorStore.t F M.

(** After the threshold, the value at a kept position is the value the
    array had at the position it came from, and it passes the threshold. *)
Lemma apply_threshold_lookup (sims0 : list F) th j a x :
  (VectorStore.apply_threshold sims0 th).2 !! j = Some a ->
  (VectorStore.apply_threshold sims0 th).1 !! j = Some x ->
  sims0 !! a = Some x /\ (forall t, th = Some t -> fle t x = true).
Proof.
  destruct th as [t|]; simpl.
  - intros Ha Hx.
    apply list_lookup_fmap_Some in Ha as (p & -> & Hk).
    apply list_lookup_fmap_Some in Hx as (p' & -> & Hk').
    rewrite Hk in Hk'. injection Hk' as <-. destruct p as [a' x']. simpl.
    assert (Hin : In (a', x') (List.filter (fun p => fle t p.2)
                                  (combine (seq 0 (length sims0)) sims0))).
    { apply list_elem_of_In, list_elem_of_lookup. eauto. }
    apply filter_In in Hin as [Hin Hp]. simpl in Hp. split.
    + pose proof (proj2 (combine_positions sims0 0)) as Hc.
      rewrite Forall_forall in Hc. apply list_elem_of_In, Hc in Hin as [Hl _].
      simpl in Hl. rewrite Nat.sub_0_r in Hl. exact Hl.
    + intros t' [= <-]. exact Hp.
  - intros Ha Hx. apply lookup_seq in Ha as [-> _]. simpl.
    split; [exact Hx|]. intros t' Ht; discriminate.
Qed.

Lemma apply_threshold_NoDup (sims0 : list F) th :
  NoDup (VectorStore.apply_threshold sims0 th).2.
Proof.
  destruct th as [t|]; simpl; [|apply NoDup_seq].
  apply filter_fst_NoDup. rewrite (proj1 (combine_positions sims0 0)). apply NoDup_seq.
Qed.

(** Each triple of the results comes from one position of the selection. *)
Lemma build_results_lookup s (sims : list F) indices top res j r :
  VectorStore.build_results s sims indices top = Ok res ->
  res !! j = Some r ->
  exists idx a,
    top !! j = Some idx /\ indices !! idx = Some a
    /\ VectorStore.id_to_index s !! r.1.1 = Some a
    /\ sims !! idx = Some r.1.2
    /\ VectorStore.metadata s !! a = Some r.2.
Proof.
  intros Hb Hr. apply for_each_Forall2 in Hb.
  destruct (Forall2_lookup_r _ _ _ _ _ Hb Hr) as (idx & Hidx & Hf).
  exists idx. revert Hf.
  destruct (indices !! idx) as [a|] eqn:Ha; simpl; [|discriminate].
  destruct (VectorStore.index_to_id (VectorStore.id_to_index s) !! a) as [k|] eqn:Hk;
    simpl; [|discriminate].
  destruct (sims !! idx) as [x|] eqn:Hx; simpl; [|discriminate].
  destruct (VectorStore.metadata s !! a) as [m|] eqn:Hm; simpl; [|discriminate].
  intros [= <-]. exists a. simpl.
  split; [exact Hidx|]. split; [reflexivity|].
  split; [|split; first [reflexivity|assumption]].
  unfold VectorStore.index_to_id in Hk.
  apply elem_of_list_to_map_2 in Hk.
  apply list_elem_of_fmap in Hk as ([k' a'] & [= -> ->] & Hin).
  apply elem_of_map_to_list in Hin. exact Hin.
Qed.

(** The parts of a search that returned. *)
Lemma search_parts s query top_k th res sims0 :
  VectorStore.search query top_k th s = Ok res ->
  sims0 = map (fun row => dot row (normalize query))
              (map normalize (VectorStore.vectors s)) ->
  exists top,
    VectorStore.top_k_indices (VectorStore.apply_threshold sims0 th).1 top_k = Ok top
    /\ VectorStore.build_results s (VectorStore.apply_threshold sims0 th).1
         (VectorStore.apply_threshold sims0 th).2 top = Ok res
    \/ res = [].
Proof.
  unfold VectorStore.search. intros Hs ->.
  destruct (length (VectorStore.vectors s) =? 0).
  { exists []. right. congruence. }
  destruct (Np.width (VectorStore.vectors s) =? length query); [|discriminate].
  simpl in Hs. revert Hs.
  set (sims0 := map _ (map normalize (VectorStore.vectors s))). intros Hs.
  destruct (VectorStore.apply_threshold sims0 th) as [sims indices]. simpl.
  destruct (VectorStore.top_k_indices sims top_k) as [top|e]; [|discriminate].
  exists top. left. auto.
Qed.

End SearchResults.

(** Every triple [search] returns is a record of the index: its id is
    mapped to a position, its metadata is the metadata at that position,
    and its similarity is that of the normalised row at that position
    with the normalised query. *)
Theorem search_returns_records {F M : Type} `{NumPy F} (s : VectorStore.t F M)
    (query : list F) (top_k : Z) (threshold : option F) (res : list (string * F * M)) :
  VectorStore.search query top_k threshold s = Ok res ->
  Forall (fun r => exists i row,
              VectorStore.id_to_index s !! r.1.1 = Some i
              /\ VectorStore.vectors s !! i = Some row
              /\ VectorStore.metadata s !! i = Some r.2
              /\ r.1.2 = dot (normalize row) (normalize query)) res.
Proof.
  intros Hs.
  destruct (search_parts _ _ _ _ _ _ Hs eq_refl) as (top & [[_ Hb]| ->]); [|constructor].
  apply Forall_forall. intros r Hr. apply list_elem_of_lookup in Hr as [j Hj].
  destruct (build_results_lookup _ _ _ _ _ _ _ Hb Hj) as (idx & a & _ & Ha & Hid & Hx & Hm).
  destruct (apply_threshold_lookup _ _ _ _ _ Ha Hx) as [H0 _].
  rewrite !list_lookup_fmap in H0.
  destruct (VectorStore.vectors s !! a) as [row|] eqn:Hrow; [|discriminate].
  simpl in H0. inversion H0. exists a, row. auto.
Qed.

Lemma search_returns_records_witness :
  Forall (fun r => exists i row,
              VectorStore.id_to_index twins !! r.1.1 = Some i
              /\ VectorStore.vectors twins !! i = Some row
              /\ VectorStore.metadata twins !! i = Some r.2
              /\ r.1.2 = dot (normalize row) (normalize [1.0; 0.0]%float))
         [("b", 1.0%float, (∅ : dict)); ("a", 1.0%float, ∅)].
Proof.
  apply (search_returns_records twins [1.0; 0.0]%float 10 None).
  vm_compute. reflexivity.
Defined.

(** With a threshold, every similarity [search] returns is at least the
    threshold. *)
Theorem search_respects_threshold {F M : Type} `{NumPy F} (s : VectorStore.t F M)
    (query : list F) (top_k : Z) (threshold : F) (res : list (string * F * M)) :
  VectorStore.search query top_k (Some threshold) s = Ok res ->
  Forall (fun r => fle threshold r.1.2 = true) res.
Proof.
  intros Hs.
  destruct (search_parts _ _ _ _ _ _ Hs eq_refl) as (top & [[_ Hb]| ->]); [|constructor].
  apply Forall_forall. intros r Hr. apply list_elem_of_lookup in Hr as [j Hj].
  destruct (build_results_lookup _ _ _ _ _ _ _ Hb Hj) as (idx & a & _ & Ha & _ & Hx & _).
  destruct (apply_threshold_lookup _ _ _ _ _ Ha Hx) as [_ Hth]. auto.
Qed.

Lemma search_respects_threshold_witness :
  Forall (fun r => fle 0.5%float r.1.2 = true) [("pathway_0", 1.0%float, default ∅ (VectorStore.metadata catalogue !! 0))].
Proof.
  apply (search_respects_threshold catalogue [1.0; 0.0]%float 10 0.5%float).
  vm_compute. reflexivity.
Defined.

Section SearchDistinct.
Context {F M : Type} `{NumPyPerm F}.
Implicit Types s : VectorStore.t F M.

Lemma take_at_NoDup (top order picked : list nat) :
  NoDup top -> NoDup order -> Np.take_at top order = Ok picked -> NoDup picked.
Proof.
  intros Htop Horder Ht. apply take_at_Forall2 in Ht.
  apply NoDup_alt. intros i j x Hi Hj.
  destruct (Forall2_lookup_r _ _ _ _ _ Ht Hi) as (oi & Hoi & Hxi).
  destruct (Forall2_lookup_r _ _ _ _ _ Ht Hj) as (oj & Hoj & Hxj).
  simpl in *.
  assert (oi = oj) by exact (NoDup_lookup top oi oj x Htop Hxi Hxj). subst oj.
  exact (NoDup_lookup order i j oi Horder Hoi Hoj).
Qed.

(** No position is selected twice. *)
Lemma top_k_indices_NoDup (sims : list F) (top_k : Z) (top : list nat) :
  VectorStore.top_k_indices sims top_k = Ok top -> NoDup top.
Proof.
  unfold VectorStore.top_k_indices.
  destruct (top_k <? Z.of_nat (length sims))%Z.
  - unfold Np.py_argpartition.
    destruct (_ && _); [|discriminate]. simpl.
    match goal with |- context [argpartition sims ?k] => set (part := argpartition sims k) end.
    set (top0 := Np.slice_from part (- top_k)).
    destruct (Np.take_at sims top0) as [tv|e]; [|discriminate]. simpl.
    destruct (Np.take_at top0 (argsort tv)) as [sorted|e] eqn:Hso; [|discriminate].
    simpl. intros [= <-]. rewrite <- Permutation_rev.
    apply (take_at_NoDup top0 (argsort tv)); [| |exact Hso].
    + unfold top0, Np.slice_from. apply (sublist_NoDup _ part); [|apply sublist_drop].
      unfold part. rewrite (argpartition_perm sims _). apply NoDup_seq.
    + rewrite (argsort_perm tv). apply NoDup_seq.
  - intros [= <-]. rewrite <- Permutation_rev, (argsort_perm sims). apply NoDup_seq.
Qed.

End SearchDistinct.

(** [search] returns no record twice: the ids of the triples it returns
    are pairwise different.  (The two sorts are taken as returning a
    rearrangement of the positions, the one thing assumed of them.) *)
Theorem search_ids_distinct {F M : Type} `{NumPyPerm F} (s : VectorStore.t F M)
    (query : list F) (top_k : Z) (threshold : option F) (res : list (string * F * M)) :
  VectorStore.search query top_k threshold s = Ok res ->
  NoDup (map (fun r => r.1.1) res).
Proof.
  intros Hs.
  destruct (search_parts _ _ _ _ _ _ Hs eq_refl) as (top & [[Htop Hb]| ->]); [|constructor].
  apply top_k_indices_NoDup in Htop.
  pose proof (apply_threshold_NoDup
                (map (fun row => dot row (normalize query))
                   (map normalize (VectorStore.vectors s))) threshold) as Hind.
  apply NoDup_alt. intros i j id Hi Hj.
  apply list_lookup_fmap_Some in Hi as (ri & -> & Hi).
  apply list_lookup_fmap_Some in Hj as (rj & Hid & Hj).
  destruct (build_results_lookup _ _ _ _ _ _ _ Hb Hi) as (xi & ai & Hti & Hai & Hmi & _).
  destruct (build_results_lookup _ _ _ _ _ _ _ Hb Hj) as (xj & aj & Htj & Haj & Hmj & _).
  rewrite <- Hid in Hmj. rewrite Hmi in Hmj. injection Hmj as <-.
  assert (xi = xj) by exact (NoDup_lookup _ xi xj ai Hind Hai Haj). subst xj.
  exact (NoDup_lookup top i j xi Htop Hti Htj).
Qed.

Lemma search_ids_distinct_witness :
  NoDup (map (fun r : string * float * dict => r.1.1)
           [("a", 1.0%float, ∅); ("c", 0.6%float, ∅)]).
Proof.
  apply (search_ids_distinct triangle [1.0; 0.0]%float 2 None).
  vm_compute. reflexivity.
Defined.

(** ** The vector index: batches *)

Section Batches.
Context {F M : Type}.
Import VectorStore.
Implicit Types s : VectorStore.t F M.

Lemma zip3_ids {A B} (a : list A) (b : list B) (c : list string) :
  map snd (zip3 a b c) = take (min (length a) (length b)) c.
Proof.
  revert b c. induction a as [|x a IH]; intros [|y b] [|z c]; simpl; try reflexivity.
  rewrite IH. reflexivity.
Qed.

Lemma add_each_ids (items : list (list F * M * string)) : forall ids s s' out,
  add_each items ids s = (s', Ok out) -> out = ids ++ map snd items.
Proof.
  induction items as [|[[v m] i] rest IH]; intros ids s s' out; simpl.
  - intros [= _ <-]. rewrite app_nil_r. reflexivity.
  - destruct (add v m (Some i) s) as [s1 [id_|e]] eqn:Hadd; [|intros [= _ ?]; discriminate].
    apply add_returns_resolved in Hadd. simpl in Hadd. subst id_.
    intros Hrest. apply IH in Hrest. rewrite Hrest, <- app_assoc. reflexivity.
Qed.

End Batches.

(** [add_batch] checks no arity: it pairs vectors, metadata and ids up to
    the shortest of the three lists and ignores the rest.  When it
    returns, the ids it returns are the first [min(len(vectors),
    len(metadata_list))] of the ids it was given (or of the ids it
    generated, [vec_<n>] counting up from the size of the index). *)
Theorem add_batch_truncates {F M : Type} (s s' : VectorStore.t F M)
    (vs : list (list F)) (ms : list M) (vector_ids : option (list string))
    (out : list string) :
  VectorStore.add_batch vs ms vector_ids s = (s', Ok out) ->
  out = take (min (length vs) (length ms))
          (match vector_ids with
           | Some ids => ids
           | None => map VectorStore.generated_id
                       (seq (VectorStore.size s) (length vs))
           end).
Proof.
  unfold VectorStore.add_batch. intros Hb. apply add_each_ids in Hb.
  rewrite zip3_ids in Hb. exact Hb.
Qed.

Lemma add_batch_truncates_witness :
  ["a"] = take (min (length [[1.0; 0.0]; [0.0; 1.0]]%float) (length [(∅ : dict)]))
            ["a"; "b"; "c"].
Proof.
  apply (add_batch_truncates (VectorStore.init 2)
           (VectorStore.add [1.0; 0.0]%float ∅ (Some "a") (VectorStore.init 2)).1
           [[1.0; 0.0]; [0.0; 1.0]]%float [(∅ : dict)] (Some ["a"; "b"; "c"]) ["a"]).
  vm_compute. reflexivity.
Defined.

(** ** Text: what cleaning and tokenizing return *)

Section TextShape.
Import Preprocessing.

(** A settled character that, if it is white space, is the space. *)
Definition plain (c : ascii) : Prop :=
  allowed c = true /\ lower_char c = c /\ (is_space c = true -> c = " "%char).

Lemma token_plain w : token settled w -> token plain w.
Proof.
  intros (Hne & Hns & Hs). split; [assumption|]. split; [assumption|].
  apply Forall_forall. intros c Hc. rewrite Forall_forall in Hns, Hs.
  destruct (Hs c Hc) as [Ha Hl]. split; [assumption|]. split; [assumption|].
  intros Hsp. rewrite (Hns c Hc) in Hsp. discriminate.
Qed.

Lemma clean_chars_plain t :
  Forall plain (clean_chars t) /\ join (split (clean_chars t)) = clean_chars t.
Proof.
  destruct (clean_chars_shape t) as [ws [-> Hws]]. split.
  - apply join_keeps.
    + split; [reflexivity|]. split; reflexivity.
    + eapply Forall_impl; [exact Hws|]. apply token_plain.
  - rewrite (split_join settled ws Hws). reflexivity.
Qed.

(** A maximal run of word characters. *)
Definition word (P : ascii -> Prop) (w : list ascii) : Prop :=
  w <> [] /\ Forall (fun c => is_word c = true /\ P c) w.

Lemma flush_words P cur :
  Forall (fun c => is_word c = true /\ P c) cur -> Forall (word P) (flush cur).
Proof.
  intros Hc. destruct cur; simpl; [constructor|].
  constructor; [|constructor]. split; [discriminate|assumption].
Qed.

Lemma words_go_words P s :
  Forall P s -> forall cur, Forall (fun c => is_word c = true /\ P c) cur ->
  Forall (word P) (words_go cur s).
Proof.
  induction 1 as [|c s Hc Hs IH]; intros cur Hcur; simpl.
  - apply flush_words, Hcur.
  - destruct (is_word c) eqn:E.
    + apply IH. apply Forall_app. split; [assumption|]. repeat constructor; assumption.
    + apply Forall_app. split; [apply flush_words, Hcur|]. apply IH. constructor.
Qed.

End TextShape.

(** What [clean_text] returns, for a text of the 7-bit range: every
    character is of the allow-list (a word character, a space or one of
    [. , ! ? -]), none is an upper-case letter, the only white space is
    the space, and the text is its own [' '.join(text.split())]: no space
    leads, trails or follows another. *)
Theorem clean_text_normal_form (t : string) :
  Preprocessing.ascii7 t ->
  Forall (fun c => Preprocessing.allowed c = true
                   /\ Preprocessing.lower_char c = c
                   /\ (Preprocessing.is_space c = true -> c = " "%char))
         (Preprocessing.chars (Preprocessing.clean_text t))
  /\ Preprocessing.join (Preprocessing.split (Preprocessing.chars (Preprocessing.clean_text t)))
     = Preprocessing.chars (Preprocessing.clean_text t).
Proof.
  intros _. unfold Preprocessing.clean_text, Preprocessing.chars.
  rewrite list_ascii_of_string_of_list_ascii.
  apply clean_chars_plain.
Qed.

Lemma clean_text_normal_form_witness :
  Forall (fun c => Preprocessing.allowed c = true
                   /\ Preprocessing.lower_char c = c
                   /\ (Preprocessing.is_space c = true -> c = " "%char))
         (Preprocessing.chars (Preprocessing.clean_text "  Hello,   WORLD @home! "))
  /\ Preprocessing.join
       (Preprocessing.split (Preprocessing.chars (Preprocessing.clean_text "  Hello,   WORLD @home! ")))
     = Preprocessing.chars (Preprocessing.clean_text "  Hello,   WORLD @home! ").
Proof.
  apply (clean_text_normal_form "  Hello,   WORLD @home! ").
  unfold Preprocessing.ascii7. vm_compute. repeat constructor.
Defined.

(** What [tokenize] returns, for a text of the 7-bit range: every token
    is non-empty and made of word characters (letters, digits,
    underscore) only, none of them an upper-case letter. *)
Theorem tokenize_tokens (t : string) :
  Preprocessing.ascii7 t ->
  Forall (fun w => w <> ""
                   /\ Forall (fun c => Preprocessing.is_word c = true
                                       /\ Preprocessing.lower_char c = c)
                             (Preprocessing.chars w))
         (Preprocessing.tokenize t).
Proof.
  intros _. unfold Preprocessing.tokenize, Preprocessing.clean_text, Preprocessing.chars.
  rewrite list_ascii_of_string_of_list_ascii.
  pose proof (proj1 (clean_chars_plain (list_ascii_of_string t))) as Hplain.
  assert (Hlow : Forall (fun c => Preprocessing.lower_char c = c)
                   (Preprocessing.clean_chars (list_ascii_of_string t))).
  { eapply Forall_impl; [exact Hplain|]. intros c (_ & Hl & _). exact Hl. }
  pose proof (words_go_words _ _ Hlow [] ltac:(constructor)) as Hw.
  apply Forall_forall. intros w Hin. apply list_elem_of_fmap in Hin as (l & -> & Hl).
  rewrite Forall_forall in Hw. destruct (Hw l Hl) as [Hne Hall].
  rewrite list_ascii_of_string_of_list_ascii. split; [|exact Hall].
  destruct l; [contradiction|discriminate].
Qed.

Lemma tokenize_tokens_witness :
  Forall (fun w => w <> ""
                   /\ Forall (fun c => Preprocessing.is_word c = true
                                       /\ Preprocessing.lower_char c = c)
                             (Preprocessing.chars w))
         (Preprocessing.tokenize "Data-driven design, 2nd ed.").
Proof.
  apply (tokenize_tokens "Data-driven design, 2nd ed.").
  unfold Preprocessing.ascii7. vm_compute. repeat constructor.
Defined.

(** ** Text: lexical similarity *)

Lemma intersection_length_sym (a b : list string) :
  NoDup a -> NoDup b ->
  length (list_intersection a b) = length (list_intersection b a).
Proof.
  intros Ha Hb. apply Permutation_length, NoDup_Permutation.
  - apply NoDup_list_intersection, Ha.
  - apply NoDup_list_intersection, Hb.
  - intros x. rewrite !list_elem_of_intersection. tauto.
Qed.

Lemma union_length_sym (a b : list string) :
  NoDup a -> NoDup b ->
  length (list_union a b) = length (list_union b a).
Proof.
  intros Ha Hb. apply Permutation_length, NoDup_Permutation.
  - apply NoDup_list_union; assumption.
  - apply NoDup_list_union; assumption.
  - intros x. rewrite !list_elem_of_union. tauto.
Qed.

(** The lexical similarity is symmetric: the two texts may be swapped. *)
Theorem calculate_text_similarity_sym (text1 text2 : string) :
  Preprocessing.calculate_text_similarity text1 text2
  = Preprocessing.calculate_text_similarity text2 text1.
Proof.
  unfold Preprocessing.calculate_text_similarity, Preprocessing.token_set.
  set (a := remove_dups (Preprocessing.tokenize text1)).
  set (b := remove_dups (Preprocessing.tokenize text2)).
  assert (Ha : NoDup a) by apply NoDup_remove_dups.
  assert (Hb : NoDup b) by apply NoDup_remove_dups.
  pose proof (intersection_length_sym a b Ha Hb) as Hi.
  pose proof (union_length_sym a b Ha Hb) as Hu.
  destruct a as [|x a]; destruct b as [|y b]; try reflexivity.
  rewrite Hi.
  destruct (list_union (x :: a) (y :: b)) as [|u us];
    destruct (list_union (y :: b) (x :: a)) as [|u' us']; simpl in Hu; try discriminate;
    try reflexivity.
  simpl length. rewrite Hu. reflexivity.
Qed.

(** ** Recommendations: count, confidence, institution *)

Section RecommendFacts.
Import PathwayRecommender.
Context `{NumPy float}.
Variable encode : string -> list float.
Variable py_repr : pyval -> string.

Lemma build_count micro_credential inst profile top_k results :
  forall acc recs,
    (Z.of_nat (length acc) < top_k)%Z ->
    build py_repr micro_credential inst profile top_k results acc = Ok recs ->
    (Z.of_nat (length recs) <= top_k)%Z.
Proof.
  induction results as [|[[vid sim] meta] rest IH]; intros acc recs Hacc; simpl.
  - intros [= <-]. lia.
  - match goal with |- context [if ?c then build _ _ _ _ _ rest acc else _] =>
      destruct c end; [apply IH; exact Hacc|].
    destruct (_calculate_confidence sim micro_credential meta profile) as [conf|e];
      simpl; [|discriminate].
    destruct (_generate_reasoning py_repr sim micro_credential meta) as [text|e];
      simpl; [|discriminate].
    match goal with |- context [(top_k <=? Z.of_nat (length ?l))%Z] =>
      destruct (Z.leb_spec top_k (Z.of_nat (length l))) as [Hle|Hlt] end.
    + intros [= <-]. rewrite length_app in *. simpl in *. lia.
    + apply IH. exact Hlt.
Qed.

Lemma confidence_capped similarity source target profile c :
  _calculate_confidence similarity source target profile = Ok c ->
  (1.0 <? c)%float = false.
Proof.
  unfold _calculate_confidence.
  destruct (CreditAssessor.str_lower (Py.get source "level" (PStr ""))); simpl; [|discriminate].
  destruct (CreditAssessor.str_lower (Py.get target "level" (PStr ""))); simpl; [|discriminate].
  destruct (CreditAssessor.str_lower (Py.get source "subject" (PStr ""))); simpl;
    [|discriminate].
  destruct (CreditAssessor.str_lower (Py.get target "subject" (PStr ""))); simpl;
    [|discriminate].
  match goal with |- context [if (1 <? ?x)%float then _ else _] =>
    destruct (1 <? x)%float eqn:E end; intros [= <-]; [reflexivity|exact E].
Qed.

Lemma build_capped micro_credential inst profile top_k results :
  forall acc recs,
    Forall (fun r => (1.0 <? confidence_score r)%float = false) acc ->
    build py_repr micro_credential inst profile top_k results acc = Ok recs ->
    Forall (fun r => (1.0 <? confidence_score r)%float = false) recs.
Proof.
  induction results as [|[[vid sim] meta] rest IH]; intros acc recs Hacc; simpl.
  - intros [= <-]. exact Hacc.
  - match goal with |- context [if ?c then build _ _ _ _ _ rest acc else _] =>
      destruct c end; [apply IH; exact Hacc|].
    destruct (_calculate_confidence sim micro_credential meta profile) as [conf|e] eqn:Hc;
      simpl; [|discriminate].
    destruct (_generate_reasoning py_repr sim micro_credential meta) as [text|e];
      simpl; [|discriminate].
    apply confidence_capped in Hc.
    match goal with |- context [(top_k <=? Z.of_nat (length ?l))%Z] =>
      assert (Hnew : Forall (fun r => (1.0 <? confidence_score r)%float = false) l)
        by (apply Forall_app; split; [exact Hacc|repeat constructor; exact Hc]);
      destruct (top_k <=? Z.of_nat (length l))%Z end.
    + intros [= <-]. exact Hnew.
    + apply IH. exact Hnew.
Qed.

Lemma mock_capped micro_credential inst top_k :
  Forall (fun r => (1.0 <? confidence_score r)%float = false)
         (_generate_mock_recommendations micro_credential inst top_k).
Proof.
  unfold _generate_mock_recommendations, range.
  assert (Hn : Z.to_nat (Z.min top_k 3) <= 3) by lia.
  revert Hn. generalize (Z.to_nat (Z.min top_k 3)). intros n Hn.
  destruct n as [|[|[|[|n]]]]; try lia; vm_compute; repeat constructor.
Qed.

(** The metadata a recommendation was built from passes the filter. *)
Definition from_institution (store : VectorStore.t float dict) (inst : string)
    (r : PathwayRecommendation) : Prop :=
  exists i meta,
    VectorStore.metadata store !! i = Some meta
    /\ Py.eqb (Py.get meta "institution_id" PNone) (PStr inst) = true
    /\ target_program_id r = Py.get meta "program_id" (PStr "unknown")
    /\ transfer_credits r = Py.get meta "credits" PNone
    /\ institution_name r = Py.get meta "institution_name" PNone.

Lemma build_filters store micro_credential inst profile top_k results :
  inst <> "" ->
  Forall (fun r : string * float * dict =>
            exists i, VectorStore.metadata store !! i = Some r.2) results ->
  forall acc recs,
    Forall (from_institution store inst) acc ->
    build py_repr micro_credential (Some inst) profile top_k results acc = Ok recs ->
    Forall (from_institution store inst) recs.
Proof.
  intros Hinst. induction 1 as [|[[vid sim] meta] rest [i Hi] Hrest IH];
    intros acc recs Hacc; simpl.
  - intros [= <-]. exact Hacc.
  - assert (Hne : String.eqb inst "" = false) by (apply String.eqb_neq; exact Hinst).
    rewrite Hne. simpl.
    destruct (Py.eqb (Py.get meta "institution_id" PNone) (PStr inst)) eqn:Hmatch; simpl;
      [|apply IH; exact Hacc].
    destruct (_calculate_confidence sim micro_credential meta profile) as [conf|e];
      simpl; [|discriminate].
    destruct (_generate_reasoning py_repr sim micro_credential meta) as [text|e];
      simpl; [|discriminate].
    match goal with |- context [(top_k <=? Z.of_nat (length ?l))%Z] =>
      assert (Hnew : Forall (from_institution store inst) l);
      [|destruct (top_k <=? Z.of_nat (length l))%Z] end.
    + apply Forall_app. split; [exact Hacc|]. repeat constructor.
      exists i, meta. simpl in Hi. simpl. auto.
    + intros [= <-]. exact Hnew.
    + apply IH. exact Hnew.
Qed.

End RecommendFacts.

(** [recommend] returns at most [top_k] recommendations, for every
    [top_k >= 1], whether the index is empty or not. *)
Theorem recommend_at_most_top_k `{NumPy float}
    (encode : string -> list float) (py_repr : pyval -> string)
    (store : VectorStore.t float dict) (micro_credential : dict)
    (inst : option string) (profile : option dict) (top_k : Z) (min_similarity : float)
    (recs : list PathwayRecommender.PathwayRecommendation) :
  (1 <= top_k)%Z ->
  PathwayRecommender.recommend encode py_repr store micro_credential inst profile
    top_k min_similarity = Ok recs ->
  (Z.of_nat (length recs) <= top_k)%Z.
Proof.
  intros Hk. unfold PathwayRecommender.recommend.
  destruct (PathwayRecommender.str_join " " _) as [text|e]; simpl; [|discriminate].
  destruct (VectorStore.size store =? 0).
  - intros [= <-]. unfold PathwayRecommender._generate_mock_recommendations,
      PathwayRecommender.range.
    rewrite length_map, length_seq. lia.
  - destruct (VectorStore.search _ _ _ store) as [results|e]; simpl; [|discriminate].
    apply build_count. simpl. lia.
Qed.

Lemma recommend_at_most_top_k_witness :
  (Z.of_nat (length (PathwayRecommender._generate_mock_recommendations credential None 2))
   <= 2)%Z.
Proof.
  apply (recommend_at_most_top_k no_encoder no_repr (VectorStore.init 384) credential
           None None 2 0.5%float).
  - lia.
  - vm_compute. reflexivity.
Defined.

(** No recommendation that [recommend] returns has a confidence score
    above 1.0. *)
Theorem recommend_confidence_capped `{NumPy float}
    (encode : string -> list float) (py_repr : pyval -> string)
    (store : VectorStore.t float dict) (micro_credential : dict)
    (inst : option string) (profile : option dict) (top_k : Z) (min_similarity : float)
    (recs : list PathwayRecommender.PathwayRecommendation) :
  PathwayRecommender.recommend encode py_repr store micro_credential inst profile
    top_k min_similarity = Ok recs ->
  Forall (fun r => (1.0 <? PathwayRecommender.confidence_score r)%float = false) recs.
Proof.
  unfold PathwayRecommender.recommend.
  destruct (PathwayRecommender.str_join " " _) as [text|e]; simpl; [|discriminate].
  destruct (VectorStore.size store =? 0).
  - intros [= <-]. apply mock_capped.
  - destruct (VectorStore.search _ _ _ store) as [results|e]; simpl; [|discriminate].
    apply build_capped. constructor.
Qed.

Lemma recommend_confidence_capped_witness :
  Forall (fun r => (1.0 <? PathwayRecommender.confidence_score r)%float = false)
    [{| PathwayRecommender.pathway_id := PStr "pathway_0";
        PathwayRecommender.target_program_id := PStr "p1";
        PathwayRecommender.confidence_score := 1.0%float;
        PathwayRecommender.reasoning :=
          "High semantic similarity in program content and learning outcomes. "
          +:+ "Aligned subject areas.";
        PathwayRecommender.similarity_score := 1.0%float;
        PathwayRecommender.transfer_credits := PNone;
        PathwayRecommender.institution_name := PNone |}].
Proof.
  apply (recommend_confidence_capped axis_encoder no_repr catalogue
           {[ "title" := PStr "Data"; "level" := PStr "Diploma";
              "subject" := PStr "Data Science" ]}
           (Some "A") None 5 0.5%float).
  vm_compute. reflexivity.
Defined.

(** The institution filter: with a target institution that is not the
    empty string, every recommendation computed from a non-empty index is
    built from the metadata of an indexed record whose [institution_id]
    equals the target. *)
Theorem recommend_filters_institution `{NumPy float}
    (encode : string -> list float) (py_repr : pyval -> string)
    (store : VectorStore.t float dict) (micro_credential : dict)
    (inst : string) (profile : option dict) (top_k : Z) (min_similarity : float)
    (recs : list PathwayRecommender.PathwayRecommendation) :
  inst <> "" ->
  VectorStore.size store <> 0 ->
  PathwayRecommender.recommend encode py_repr store micro_credential (Some inst) profile
    top_k min_similarity = Ok recs ->
  Forall (from_institution store inst) recs.
Proof.
  intros Hinst Hsize. unfold PathwayRecommender.recommend.
  destruct (PathwayRecommender.str_join " " _) as [text|e]; simpl; [|discriminate].
  rewrite (proj2 (Nat.eqb_neq _ _) Hsize).
  destruct (VectorStore.search _ _ _ store) as [results|e] eqn:Hs; simpl; [|discriminate].
  apply build_filters; [exact Hinst| |constructor].
  apply search_returns_records in Hs.
  eapply Forall_impl; [exact Hs|]. intros r (i & row & _ & _ & Hm & _). eauto.
Qed.

Lemma recommend_filters_institution_witness :
  Forall (from_institution catalogue "A")
    [{| PathwayRecommender.pathway_id := PStr "pathway_0";
        PathwayRecommender.target_program_id := PStr "p1";
        PathwayRecommender.confidence_score := 1.0%float;
        PathwayRecommender.reasoning :=
          "High semantic similarity in program content and learning outcomes. "
          +:+ "Aligned subject areas.";
        PathwayRecommender.similarity_score := 1.0%float;
        PathwayRecommender.transfer_credits := PNone;
        PathwayRecommender.institution_name := PNone |}].
Proof.
  apply (recommend_filters_institution axis_encoder no_repr catalogue
           {[ "title" := PStr "Data"; "level" := PStr "Diploma";
              "subject" := PStr "Data Science" ]}
           "A" None 5 0.5%float).
  - discriminate.
  - vm_compute. discriminate.
  - vm_compute. reflexivity.
Defined.

(** ** The credit assessment *)

(** No binary64 number is below itself. *)
Lemma ltb_irrefl (x : float) : (x <? x)%float = false.
Proof.
  rewrite ltb_spec. unfold SFltb. destruct (Prim2SF x) as [sg|sg| |sg m e]; simpl.
  - reflexivity.
  - destruct sg; reflexivity.
  - reflexivity.
  - destruct sg; rewrite Z.compare_refl, Pos.compare_cont_refl; reflexivity.
Qed.

Lemma py_min_capped (a b : float) : (b <? Assessment.py_min a b)%float = false.
Proof.
  unfold Assessment.py_min. destruct (b <? a)%float eqn:E; [apply ltb_irrefl|exact E].
Qed.

(** The decision procedure guards approval by the missing requirements,
    whatever the confidence: with two or more missing requirements the
    result is REVIEW_REQUIRED or DENIED; CONDITIONAL is returned only when
    there is a condition and at most one missing requirement; APPROVED
    only when nothing is missing, or one requirement is missing and there
    is no condition. *)
Theorem determine_result_guards (confidence : float)
    (requirements_met requirements_missing conditions : list string) :
  let result := Assessment._determine_result confidence requirements_met
                  requirements_missing conditions in
  (2 <= length requirements_missing ->
   result = Assessment.REVIEW_REQUIRED \/ result = Assessment.DENIED)
  /\ (result = Assessment.CONDITIONAL ->
      conditions <> [] /\ length requirements_missing <= 1)
  /\ (result = Assessment.APPROVED ->
      requirements_missing = []
      \/ (length requirements_missing = 1 /\ conditions = [])).
Proof.
  unfold Assessment._determine_result.
  destruct (0.8 <=? confidence)%float, (0.6 <=? confidence)%float,
    (0.4 <=? confidence)%float; simpl;
    destruct requirements_missing as [|m1 [|m2 ms]], conditions as [|c cs]; simpl;
    repeat split; intros; try discriminate; try lia; auto.
Qed.

Section AssessFacts.
Import Assessment.
Variable py_repr : pyval -> string.
Variable fmt2 : float -> string.
Variable py_round : float -> result float.

Definition filed (lists : list string * list string * list string) : nat :=
  length lists.1.1 + length lists.1.2 + length lists.2.

Lemma file_check_spec waivable c lists :
  filed (file_check waivable c lists) = S (filed lists)
  /\ (file_check waivable c lists).2
     = (if negb (CreditAssessor.met c) && waivable
        then lists.2 ++ [CreditAssessor.message c] else lists.2).
Proof.
  destruct lists as [[a b] d]. unfold file_check, filed.
  destruct (CreditAssessor.met c), waivable; simpl; rewrite ?length_app; simpl;
    split; try reflexivity; lia.
Qed.

(** What [assess] does with the five messages. *)
Lemma assess_lists micro_credential target_program inst a :
  assess py_repr fmt2 py_round micro_credential target_program inst = Ok a ->
  exists rigor,
    _check_assessment_methods micro_credential = Ok rigor
    /\ conditions a = (if CreditAssessor.met rigor then None
                       else Some [CreditAssessor.message rigor])
    /\ length (requirements_met a) + length (requirements_missing a)
       + length (default [] (conditions a)) = 5
    /\ result_ a = _determine_result (confidence_score a) (requirements_met a)
                     (requirements_missing a) (default [] (conditions a))
    /\ exists rounded,
         recommended_credits a
         = py_min rounded
             (match Py.get target_program "credits" (PNum infinity) with
              | PNum c => c
              | _ => infinity
              end).
Proof.
  unfold assess.
  destruct (_check_duration py_repr micro_credential) as [c1|e]; cbn [Py.bind];
    [|discriminate].
  destruct (_check_outcomes fmt2 micro_credential target_program) as [c2|e]; cbn [Py.bind];
    [|discriminate].
  destruct (_check_content_similarity fmt2 micro_credential target_program) as [c3|e];
    cbn [Py.bind]; [|discriminate].
  destruct (_check_assessment_methods micro_credential) as [c4|e]; cbn [Py.bind];
    [|discriminate].
  destruct (CreditAssessor._check_level_compatibility micro_credential target_program)
    as [c5|e]; cbn [Py.bind]; [|discriminate].
  set (l1 := file_check false c1 ([], [], [])).
  set (l2 := file_check false c2 l1).
  set (l3 := file_check false c3 l2).
  set (l4 := file_check true c4 l3).
  set (l5 := file_check false c5 l4).
  pose proof (file_check_spec false c1 ([], [], [])) as [N1 C1]. fold l1 in N1, C1.
  pose proof (file_check_spec false c2 l1) as [N2 C2]. fold l2 in N2, C2.
  pose proof (file_check_spec false c3 l2) as [N3 C3]. fold l3 in N3, C3.
  pose proof (file_check_spec true c4 l3) as [N4 C4]. fold l4 in N4, C4.
  pose proof (file_check_spec false c5 l4) as [N5 C5]. fold l5 in N5, C5.
  rewrite andb_false_r in C1, C2, C3, C5. rewrite andb_true_r in C4.
  assert (Hc : l5.2 = if CreditAssessor.met c4 then [] else [CreditAssessor.message c4]).
  { rewrite C5, C4, C3, C2, C1. simpl. destruct (CreditAssessor.met c4); reflexivity. }
  assert (Hn : filed l5 = 5) by (rewrite N5, N4, N3, N2, N1; reflexivity).
  clearbody l5. clear N1 N2 N3 N4 N5 C1 C2 C3 C4 C5 l1 l2 l3 l4.
  destruct l5 as [[ms_met ms_missing] ms_cond]. unfold filed in Hn. simpl in Hc, Hn.
  unfold _calculate_credits.
  destruct (as_number (Py.get micro_credential "duration_hours" (PNum 0))) as [d|e];
    cbn [Py.bind]; [|discriminate].
  destruct (py_round _) as [rounded|e]; cbn [Py.bind]; [|discriminate].
  destruct (Py.get target_program "credits" (PNum infinity)) as [|s|c|l] eqn:Hcr;
    cbn [Py.bind as_number]; try discriminate.
  intros [= <-]. simpl. exists c4. split; [reflexivity|].
  subst ms_cond. destruct (CreditAssessor.met c4); simpl in *.
  - repeat split; eauto.
  - repeat split; eauto.
Qed.

End AssessFacts.

(** How [assess] files the messages of its five checks: when it returns,
    the satisfied, missing and conditional lists hold five messages
    between them; the only condition there can be is the message of the
    assessment-methods check, present exactly when that check is not met
    (it never counts as a missing requirement); and [conditions] is
    [None] rather than an empty list. *)
Theorem assess_files_five_messages
    (py_repr : pyval -> string) (fmt2 : float -> string) (py_round : float -> result float)
    (micro_credential target_program : dict) (inst : option dict)
    (a : Assessment.CreditAssessment) :
  Assessment.assess py_repr fmt2 py_round micro_credential target_program inst = Ok a ->
  length (Assessment.requirements_met a) + length (Assessment.requirements_missing a)
  + length (default [] (Assessment.conditions a)) = 5
  /\ Assessment.conditions a <> Some []
  /\ exists rigor,
       Assessment._check_assessment_methods micro_credential = Ok rigor
       /\ Assessment.conditions a
          = if CreditAssessor.met rigor then None else Some [CreditAssessor.message rigor].
Proof.
  intros Ha. apply assess_lists in Ha as (rigor & Hr & Hc & Hn & _).
  split; [exact Hn|]. split; [|eauto].
  rewrite Hc. destruct (CreditAssessor.met rigor); discriminate.
Qed.

Lemma assess_files_five_messages_witness :
  exists a,
    Assessment.assess no_repr two_decimals round_half_even
      {["duration_hours" := PNum 2]} ∅ None = Ok a
    /\ length (Assessment.requirements_met a) + length (Assessment.requirements_missing a)
       + length (default [] (Assessment.conditions a)) = 5
    /\ Assessment.conditions a <> Some []
    /\ exists rigor,
         Assessment._check_assessment_methods {["duration_hours" := PNum 2]} = Ok rigor
         /\ Assessment.conditions a
            = if CreditAssessor.met rigor then None
              else Some [CreditAssessor.message rigor].
Proof.
  eexists. split; [vm_compute; reflexivity|].
  apply (assess_files_five_messages no_repr two_decimals round_half_even
           {["duration_hours" := PNum 2]} ∅ None).
  vm_compute. reflexivity.
Defined.

(** [assess] and the missing requirements: an assessment with two or
    more missing requirements is never APPROVED or CONDITIONAL. *)
Theorem assess_never_approves_two_missing
    (py_repr : pyval -> string) (fmt2 : float -> string) (py_round : float -> result float)
    (micro_credential target_program : dict) (inst : option dict)
    (a : Assessment.CreditAssessment) :
  Assessment.assess py_repr fmt2 py_round micro_credential target_program inst = Ok a ->
  2 <= length (Assessment.requirements_missing a) ->
  Assessment.result_ a = Assessment.REVIEW_REQUIRED
  \/ Assessment.result_ a = Assessment.DENIED.
Proof.
  intros Ha Hm. apply assess_lists in Ha as (_ & _ & _ & _ & Hres & _).
  rewrite Hres. unfold Assessment._determine_result.
  destruct (0.8 <=? _)%float, (0.6 <=? _)%float, (0.4 <=? _)%float; simpl;
    destruct (Assessment.requirements_missing a) as [|m1 [|m2 ms]]; simpl in *;
    try lia; auto.
Qed.

(** The recommended credits never exceed the credits the program
    declares: when [assess] returns for a program whose [credits] is a
    number, the recommendation is not above it. *)
Theorem assess_credits_capped
    (py_repr : pyval -> string) (fmt2 : float -> string) (py_round : float -> result float)
    (micro_credential target_program : dict) (inst : option dict)
    (a : Assessment.CreditAssessment) (c : float) :
  Assessment.assess py_repr fmt2 py_round micro_credential target_program inst = Ok a ->
  target_program !! "credits" = Some (PNum c) ->
  (c <? Assessment.recommended_credits a)%float = false.
Proof.
  intros Ha Hc. apply assess_lists in Ha as (_ & _ & _ & _ & _ & rounded & Hcr).
  unfold Py.get in Hcr. rewrite Hc in Hcr. rewrite Hcr. apply py_min_capped.
Qed.

Lemma assess_never_approves_two_missing_witness :
  exists a,
    Assessment.assess no_repr two_decimals round_half_even
      {["duration_hours" := PNum 2]} ∅ None = Ok a
    /\ (Assessment.result_ a = Assessment.REVIEW_REQUIRED
        \/ Assessment.result_ a = Assessment.DENIED).
Proof.
  eexists. split; [vm_compute; reflexivity|].
  apply (assess_never_approves_two_missing no_repr two_decimals round_half_even
           {["duration_hours" := PNum 2]} ∅ None).
  - vm_compute. reflexivity.
  - simpl. lia.
Defined.

Lemma assess_credits_capped_witness :
  exists a,
    Assessment.assess no_repr two_decimals round_half_even credential40 program40 None = Ok a
    /\ (3 <? Assessment.recommended_credits a)%float = false.
Proof.
  eexists. split; [vm_compute; reflexivity|].
  apply (assess_credits_capped no_repr two_decimals round_half_even
           credential40 program40 None).
  - vm_compute. reflexivity.
  - vm_compute. reflexivity.
Defined.

Example assess_approval_scenario :
  exists a,
    Assessment.assess no_repr two_decimals round_half_even credential40 program40 None = Ok a
    /\ Assessment.result_ a = Assessment.APPROVED
    /\ Assessment.confidence_score a = 1.0%float
    /\ Assessment.recommended_credits a = 2.5%float
    /\ Assessment.requirements_missing a = []
    /\ Assessment.conditions a = None.
Proof. eexists. split; [vm_compute; reflexivity|]. repeat split. Qed.

(** ** The vector index: the selection is the best and shrinks with the threshold *)

Lemma elem_of_rev {A} (l : list A) x : x ∈ rev l <-> x ∈ l.
Proof.
  split; intros Hx; apply list_elem_of_In; apply list_elem_of_In in Hx.
  - apply in_rev. exact Hx.
  - apply in_rev in Hx. exact Hx.
Qed.

(** [similarities >= threshold] for one value; everything passes when
    no threshold is given. *)
Definition passes {F : Type} `{NumPy F} (threshold : option F) (x : F) : bool :=
  match threshold with
  | Some t => fle t x
  | None => true
  end.

Section Selection.
Context {F : Type} `{NumPyPerm F}.

Lemma take_at_covers (top order picked : list nat) x :
  Permutation order (seq 0 (length top)) ->
  Np.take_at top order = Ok picked -> x ∈ top -> x ∈ picked.
Proof.
  intros Hperm Ht Hx. apply take_at_Forall2 in Ht.
  apply list_elem_of_lookup in Hx as [p Hp].
  assert (Hin : p ∈ order).
  { apply list_elem_of_In. apply (Permutation_in _ (Permutation_sym Hperm)).
    apply in_seq. apply lookup_lt_Some in Hp. lia. }
  apply list_elem_of_lookup in Hin as [q Hq].
  destruct (Forall2_lookup_l _ _ _ _ _ Ht Hq) as (a & Ha & Hpa). simpl in Hpa.
  rewrite Hp in Hpa. injection Hpa as ->. apply list_elem_of_lookup. eauto.
Qed.

Lemma take_at_within (top order picked : list nat) x :
  Np.take_at top order = Ok picked -> x ∈ picked -> x ∈ top.
Proof.
  intros Ht Hx. apply take_at_Forall2 in Ht.
  apply list_elem_of_lookup in Hx as [q Hq].
  destruct (Forall2_lookup_r _ _ _ _ _ Ht Hq) as (p & _ & Hp).
  apply list_elem_of_lookup. eauto.
Qed.

(** How many positions the selection returns. *)
Lemma top_k_indices_length (sims : list F) (top_k : Z) (top : list nat) :
  (1 <= top_k)%Z ->
  VectorStore.top_k_indices sims top_k = Ok top ->
  length top = min (Z.to_nat top_k) (length sims).
Proof.
  intros Hk. unfold VectorStore.top_k_indices.
  destruct (Z.ltb_spec top_k (Z.of_nat (length sims))) as [Hlt|Hge].
  - unfold Np.py_argpartition.
    destruct (_ && _); [|discriminate]. cbn [Py.bind].
    match goal with |- context [argpartition sims ?k] => set (part := argpartition sims k) end.
    set (top0 := Np.slice_from part (- top_k)).
    destruct (Np.take_at sims top0) as [tv|e] eqn:Htv; [|discriminate]. cbn [Py.bind].
    destruct (Np.take_at top0 (argsort tv)) as [sorted|e] eqn:Hso; [|discriminate].
    cbn [Py.bind]. intros [= <-].
    apply take_at_Forall2 in Htv. apply take_at_Forall2 in Hso.
    rewrite length_rev, <- (Forall2_length _ _ _ Hso).
    rewrite (Permutation_length (argsort_perm tv)), length_seq.
    rewrite <- (Forall2_length _ _ _ Htv).
    unfold top0, Np.slice_from. rewrite length_drop.
    unfold part. rewrite (Permutation_length (argpartition_perm sims _)), length_seq.
    destruct (Z.ltb_spec (- top_k) 0); lia.
  - intros [= <-]. rewrite length_rev, (Permutation_length (argsort_perm sims)), length_seq.
    lia.
Qed.

End Selection.

Section SelectionBest.
Context {F : Type} `{NumPyPerm F} `{!FloatOrder F} `{!NumPyPartition F}.

(** The selection is the best: a position that is not selected holds a
    value that is at most the value of every selected position, in the
    order numpy sorts by. *)
Lemma top_k_indices_best (sims : list F) (top_k : Z) (top : list nat) j i :
  (1 <= top_k)%Z ->
  VectorStore.top_k_indices sims top_k = Ok top ->
  j < length sims -> j ∉ top -> i ∈ top ->
  Np.le_at sims j i.
Proof.
  intros Hk. unfold VectorStore.top_k_indices.
  destruct (Z.ltb_spec top_k (Z.of_nat (length sims))) as [Hlt|Hge].
  - unfold Np.py_argpartition.
    replace (- top_k <? 0)%Z with true by (symmetry; apply Z.ltb_lt; lia).
    set (k := Z.to_nat (- top_k + Z.of_nat (length sims))).
    destruct (_ && _); [|discriminate]. cbn [Py.bind].
    set (part := argpartition sims k).
    assert (Hpart : Permutation part (seq 0 (length sims))) by apply argpartition_perm.
    assert (Hsl : Np.slice_from part (- top_k) = drop k part).
    { unfold Np.slice_from.
      replace (- top_k <? 0)%Z with true by (symmetry; apply Z.ltb_lt; lia).
      rewrite (Permutation_length Hpart), length_seq. f_equal. unfold k. lia. }
    rewrite Hsl. set (top0 := drop k part).
    destruct (Np.take_at sims top0) as [tv|e] eqn:Htv; [|discriminate]. cbn [Py.bind].
    destruct (Np.take_at top0 (argsort tv)) as [sorted|e] eqn:Hso; [|discriminate].
    cbn [Py.bind]. intros [= <-] Hj Hnot Hin.
    assert (Hlen : length tv = length top0).
    { apply take_at_Forall2 in Htv. symmetry. exact (Forall2_length _ _ _ Htv). }
    assert (Hi0 : i ∈ top0).
    { apply (take_at_within top0 (argsort tv) sorted); [exact Hso|].
      apply elem_of_rev. exact Hin. }
    assert (Hj0 : j ∉ top0).
    { intros Hj0. apply Hnot. apply elem_of_rev.
      apply (take_at_covers top0 (argsort tv) sorted); [|exact Hso|exact Hj0].
      rewrite <- Hlen. apply argsort_perm. }
    assert (Hjp : j ∈ part).
    { apply list_elem_of_In. apply (Permutation_in _ (Permutation_sym Hpart)).
      apply in_seq. lia. }
    apply list_elem_of_lookup in Hjp as [pj Hpj].
    apply list_elem_of_lookup in Hi0 as [qi Hqi].
    unfold top0 in Hqi. rewrite lookup_drop in Hqi.
    assert (Hpjk : pj < k).
    { destruct (Nat.ltb_spec pj k) as [|Hge']; [assumption|].
      exfalso. apply Hj0. apply list_elem_of_lookup. exists (pj - k).
      unfold top0. rewrite lookup_drop. replace (k + (pj - k)) with pj by lia. exact Hpj. }
    assert (Hk_lt : k < length part).
    { rewrite (Permutation_length Hpart), length_seq. unfold k. lia. }
    destruct (lookup_lt_is_Some_2 part k Hk_lt) as [pv Hpv].
    assert (Hpv_lt : pv < length sims).
    { pose proof (permutation_of_positions part _ Hpart) as Hall.
      rewrite Forall_forall in Hall. apply Hall. apply list_elem_of_lookup. eauto. }
    destruct (lookup_lt_is_Some_2 sims pv Hpv_lt) as [z Hz].
    intros x y Hx Hy.
    apply (sort_le_trans x z y).
    + apply (argpartition_before sims k pj j pv); auto. lia.
    + apply (argpartition_after sims k (k + qi) i pv); auto. lia.
  - intros [= <-] Hj Hnot Hin. exfalso. apply Hnot.
    apply elem_of_rev, list_elem_of_In. apply (Permutation_in _ (Permutation_sym (argsort_perm sims))).
    apply in_seq. lia.
Qed.

End SelectionBest.

Section SelectionCount.
Context {F : Type} `{NumPyPerm F}.

Lemma filter_length_mono {A} (P Q : A -> bool) (l : list A) :
  (forall x, Q x = true -> P x = true) ->
  length (List.filter Q l) <= length (List.filter P l).
Proof.
  intros HPQ. induction l as [|x l IH]; simpl; [lia|].
  destruct (Q x) eqn:E.
  - rewrite (HPQ x E). simpl. lia.
  - destruct (P x); simpl; lia.
Qed.

Lemma combine_lookup {A} (l : list A) : forall start i x,
  l !! i = Some x -> combine (seq start (length l)) l !! i = Some (start + i, x).
Proof.
  induction l as [|y l IH]; intros start i x Hx; [discriminate|].
  destruct i as [|i]; simpl in *.
  - injection Hx as ->. rewrite Nat.add_0_r. reflexivity.
  - rewrite (IH (S start) i x Hx). f_equal. f_equal. lia.
Qed.

Lemma filter_snd_combine {A} (P : A -> bool) (l : list A) : forall start,
  map snd (List.filter (fun p : nat * A => P p.2) (combine (seq start (length l)) l))
  = List.filter P l.
Proof.
  induction l as [|y l IH]; intros start; simpl; [reflexivity|].
  destruct (P y); simpl; rewrite IH; reflexivity.
Qed.

Lemma filter_map_length {A B} (P : B -> bool) (f : A -> B) (l : list A) :
  length (List.filter P (map f l)) = length (List.filter (fun x => P (f x)) l).
Proof.
  induction l as [|y l IH]; simpl; [reflexivity|]. destruct (P (f y)); simpl; lia.
Qed.

(** A value that passes the threshold survives it, at some position that
    remembers where the value came from. *)
Lemma apply_threshold_covers (sims0 : list F) th a x :
  sims0 !! a = Some x -> passes th x = true ->
  exists idx,
    (VectorStore.apply_threshold sims0 th).2 !! idx = Some a
    /\ (VectorStore.apply_threshold sims0 th).1 !! idx = Some x.
Proof.
  intros Hx Hp. destruct th as [t|]; simpl in *.
  - pose proof (combine_lookup sims0 0 a x Hx) as Hc. simpl in Hc.
    assert (Hin : In (a, x) (List.filter (fun p : nat * F => fle t p.2)
                               (combine (seq 0 (length sims0)) sims0))).
    { apply filter_In. split; [|exact Hp].
      apply list_elem_of_In, list_elem_of_lookup. eauto. }
    apply list_elem_of_In, list_elem_of_lookup in Hin as [idx Hidx].
    exists idx. rewrite !list_lookup_fmap, Hidx. auto.
  - exists a. split; [|exact Hx]. apply lookup_seq. split; [reflexivity|].
    apply lookup_lt_Some in Hx. exact Hx.
Qed.

Lemma apply_threshold_length (sims0 : list F) th :
  length (VectorStore.apply_threshold sims0 th).1 = length (List.filter (passes th) sims0).
Proof.
  destruct th as [t|]; simpl.
  - rewrite (filter_snd_combine (fle t) sims0 0). reflexivity.
  - induction sims0 as [|y l IH]; simpl; [reflexivity|]. rewrite <- IH. reflexivity.
Qed.

Lemma search_count {M} (s : VectorStore.t F M) query top_k th res :
  (1 <= top_k)%Z ->
  VectorStore.search query top_k th s = Ok res ->
  length res
  = min (Z.to_nat top_k)
      (length (List.filter
                 (fun row => passes th (dot (normalize row) (normalize query)))
                 (VectorStore.vectors s))).
Proof.
  intros Hk. unfold VectorStore.search.
  destruct (Nat.eqb_spec (length (VectorStore.vectors s)) 0) as [He|Hne].
  { intros [= <-]. destruct (VectorStore.vectors s); [|discriminate].
    simpl. lia. }
  destruct (Np.width (VectorStore.vectors s) =? length query); [|discriminate].
  cbn [Py.bind].
  set (sims0 := map _ (map normalize (VectorStore.vectors s))).
  replace (length (List.filter _ (VectorStore.vectors s)))
    with (length (VectorStore.apply_threshold sims0 th).1).
  2:{ rewrite apply_threshold_length. unfold sims0. rewrite map_map.
      apply filter_map_length. }
  destruct (VectorStore.apply_threshold sims0 th) as [sims indices]. simpl.
  destruct (VectorStore.top_k_indices sims top_k) as [top|e] eqn:Htop; [|discriminate].
  cbn [Py.bind]. intros Hb.
  apply for_each_Forall2 in Hb. rewrite <- (Forall2_length _ _ _ Hb).
  apply top_k_indices_length; assumption.
Qed.

End SelectionCount.

(** For a [top_k] of at least one, [search] returns exactly as many
    triples as there are rows whose similarity passes the threshold, up to
    [top_k].  (The two sorts are taken as returning a rearrangement of the
    positions, the one thing assumed of them.) *)
Theorem search_returns_min_count {F M : Type} `{NumPyPerm F} (s : VectorStore.t F M)
    (query : list F) (top_k : Z) (threshold : option F) (res : list (string * F * M)) :
  (1 <= top_k)%Z ->
  VectorStore.search query top_k threshold s = Ok res ->
  length res
  = min (Z.to_nat top_k)
      (length (List.filter
                 (fun row => passes threshold (dot (normalize row) (normalize query)))
                 (VectorStore.vectors s))).
Proof. apply search_count. Qed.

Lemma search_returns_min_count_witness :
  length [("a", 1.0%float, (∅ : dict)); ("c", 0.6%float, ∅)]
  = min (Z.to_nat 5)
      (length (List.filter
                 (fun row => passes (Some 0.5%float)
                               (dot (normalize row) (normalize [1.0; 0.0]%float)))
                 (VectorStore.vectors triangle))).
Proof.
  apply (search_returns_min_count triangle [1.0; 0.0]%float 5 (Some 0.5%float)).
  - lia.
  - vm_compute. reflexivity.
Defined.

(** Raising the threshold never gives more results: for a [top_k] of at
    least one, a search with the higher of two thresholds returns at most
    as many triples as the search with the lower one.  (The two sorts are
    taken as returning a rearrangement of the positions, and [<=] on the
    scalars as transitive.) *)
Theorem search_threshold_monotone {F M : Type} `{NumPyPerm F}
    (s : VectorStore.t F M) (query : list F) (top_k : Z) (t1 t2 : F)
    (r1 r2 : list (string * F * M)) :
  (forall x y z : F, fle x y = true -> fle y z = true -> fle x z = true) ->
  (1 <= top_k)%Z ->
  fle t1 t2 = true ->
  VectorStore.search query top_k (Some t1) s = Ok r1 ->
  VectorStore.search query top_k (Some t2) s = Ok r2 ->
  length r2 <= length r1.
Proof.
  intros Htrans Hk Ht H1 H2.
  rewrite (search_count _ _ _ _ _ Hk H1), (search_count _ _ _ _ _ Hk H2).
  apply Nat.min_le_compat_l. apply filter_length_mono.
  intros row Hrow. simpl in *. exact (Htrans _ _ _ Ht Hrow).
Qed.

Lemma search_threshold_monotone_witness :
  length [("a", 1.0%float, (∅ : dict))]
  <= length [("a", 1.0%float, (∅ : dict)); ("c", 0.6%float, ∅)].
Proof.
  apply (search_threshold_monotone triangle [1.0; 0.0]%float 5 0.5%float 0.8%float).
  - exact (fle_trans (F:=float)).
  - lia.
  - reflexivity.
  - vm_compute. reflexivity.
  - vm_compute. reflexivity.
Defined.

(** What [search] leaves out is no better than what it returns: for a
    [top_k] of at least one, a row of the index whose similarity passes
    the threshold and which no returned id is mapped to has a similarity
    that is at most the similarity of every returned triple whose
    similarity is a number.  (A NaN, the similarity of a row or query of
    norm zero, is ranked first by the sorts and is not compared here;
    with a threshold no returned similarity is a NaN.)  numpy is taken
    with its contract: the sorts rearrange the positions, [argpartition]
    puts nothing larger before and nothing smaller behind position [kth]
    in the order numpy sorts by, and [<=] is transitive and total on the
    numbers. *)
Theorem search_returns_best {F M : Type} `{NumPyPerm F} `{!FloatOrder F} `{!NumPyPartition F}
    (s : VectorStore.t F M) (query : list F) (top_k : Z) (threshold : option F)
    (res : list (string * F * M)) (a : nat) (row : list F) (r : string * F * M) :
  (1 <= top_k)%Z ->
  VectorStore.search query top_k threshold s = Ok res ->
  VectorStore.vectors s !! a = Some row ->
  passes threshold (dot (normalize row) (normalize query)) = true ->
  (forall r', r' ∈ res -> VectorStore.id_to_index s !! r'.1.1 <> Some a) ->
  r ∈ res ->
  Np.is_nan (VectorStore.result_similarity r) = false ->
  fle (dot (normalize row) (normalize query)) (VectorStore.result_similarity r) = true.
Proof.
  intros Hk Hs Hrow Hp Hout Hr Hnum.
  destruct (search_parts _ _ _ _ _ _ Hs eq_refl) as (top & [[Htop Hb]| ->]);
    [|inversion Hr].
  revert Htop Hb.
  set (sims0 := map (fun row => dot row (normalize query))
                    (map normalize (VectorStore.vectors s))).
  intros Htop Hb.
  assert (Hx : sims0 !! a = Some (dot (normalize row) (normalize query))).
  { unfold sims0. rewrite !list_lookup_fmap, Hrow. reflexivity. }
  destruct (apply_threshold_covers sims0 threshold a _ Hx Hp) as (ia & Hia & Hxa).
  apply list_elem_of_lookup in Hr as [j Hj].
  destruct (build_results_lookup _ _ _ _ _ _ _ Hb Hj) as (ir & ar & Htj & _ & _ & Hxr & _).
  assert (Hnot : ia ∉ top).
  { intros Hin. apply list_elem_of_lookup in Hin as [j' Hj'].
    pose proof (for_each_Forall2 _ _ _ Hb) as Hall.
    destruct (Forall2_lookup_l _ _ _ _ _ Hall Hj') as (r' & Hr' & _).
    destruct (build_results_lookup _ _ _ _ _ _ _ Hb Hr') as (i' & a' & Ht' & Ha' & Hid & _).
    rewrite Hj' in Ht'. injection Ht' as <-. rewrite Hia in Ha'. injection Ha' as <-.
    apply (Hout r'); [|exact Hid]. apply list_elem_of_lookup. eauto. }
  assert (Hlt : ia < length (VectorStore.apply_threshold sims0 threshold).1).
  { apply lookup_lt_Some in Hxa. exact Hxa. }
  assert (Hir : ir ∈ top) by (apply list_elem_of_lookup; eauto).
  pose proof (top_k_indices_best _ _ _ ia ir Hk Htop Hlt Hnot Hir _ _ Hxa Hxr) as Hle.
  unfold Np.sort_le in Hle. unfold VectorStore.result_similarity in *.
  rewrite Hnum, orb_false_r in Hle. exact Hle.
Qed.

Lemma search_returns_best_witness :
  fle (dot (normalize [3.0; 4.0]%float) (normalize [1.0; 0.0]%float))
      (VectorStore.result_similarity ("a", 1.0%float, (∅ : dict))) = true.
Proof.
  apply (search_returns_best triangle [1.0; 0.0]%float 1 (Some 0.5%float)
           [("a", 1.0%float, ∅)] 2 [3.0; 4.0]%float).
  - lia.
  - vm_compute. reflexivity.
  - reflexivity.
  - vm_compute. reflexivity.
  - intros r' Hr'. apply list_elem_of_singleton in Hr'. subst r'. vm_compute. discriminate.
  - apply list_elem_of_here.
  - vm_compute. reflexivity.
Defined.

(** ** Keywords: the most frequent tokens that are no stopwords *)

Section KeywordFacts.
Import Preprocessing Keywords.

(** [q] does not come before [p] by frequency. *)
Definition at_least (p q : string * nat) : Prop := q.2 <= p.2.

Lemma count_up_get k t counter :
  get_count k (count_up t counter)
  = get_count k counter + (if String.eqb t k then 1 else 0).
Proof.
  induction counter as [|[k' c] rest IH]; simpl.
  - destruct (String.eqb t k); reflexivity.
  - destruct (String.eqb_spec k' t) as [->|Hne]; simpl.
    + destruct (String.eqb t k); lia.
    + destruct (String.eqb_spec k' k) as [->|Hne'].
      * destruct (String.eqb_spec t k); [congruence|lia].
      * exact IH.
Qed.

Lemma Counter_get k tokens : forall acc,
  get_count k (fold_left (fun counter token => count_up token counter) tokens acc)
  = get_count k acc + count_occ string_dec tokens k.
Proof.
  induction tokens as [|t tokens IH]; intros acc; simpl; [lia|].
  rewrite IH, count_up_get.
  destruct (String.eqb_spec t k) as [->|Hne]; destruct (string_dec _ k); try congruence; lia.
Qed.

Lemma count_up_keys t counter :
  In t (map fst counter) /\ map fst (count_up t counter) = map fst counter
  \/ ~ In t (map fst counter) /\ map fst (count_up t counter) = map fst counter ++ [t].
Proof.
  induction counter as [|[k c] rest IH]; simpl; [right; auto|].
  destruct (String.eqb_spec k t) as [->|Hne]; simpl; [left; auto|].
  destruct IH as [[Hin ->]|[Hnot ->]]; [left; auto|right].
  split; [|reflexivity]. intros [?|?]; contradiction.
Qed.

Lemma count_up_NoDup t counter :
  NoDup (map fst counter) -> NoDup (map fst (count_up t counter)).
Proof.
  intros Hnd. destruct (count_up_keys t counter) as [[_ ->]|[Hnot ->]]; [assumption|].
  apply NoDup_app. split; [assumption|]. split.
  - intros x Hx Hx'. apply list_elem_of_singleton in Hx'. subst x.
    apply Hnot, list_elem_of_In, Hx.
  - apply NoDup_singleton.
Qed.

Lemma Counter_NoDup tokens : forall acc,
  NoDup (map fst acc) ->
  NoDup (map fst (fold_left (fun counter token => count_up token counter) tokens acc)).
Proof.
  induction tokens as [|t tokens IH]; intros acc Hacc; simpl; [assumption|].
  apply IH, count_up_NoDup, Hacc.
Qed.

Lemma get_count_of counter : forall k n,
  NoDup (map fst counter) -> In (k, n) counter -> get_count k counter = n.
Proof.
  induction counter as [|[k' c] rest IH]; intros k n Hnd Hin; [destruct Hin|].
  simpl in *. apply NoDup_cons in Hnd as [Hk' Hnd].
  destruct Hin as [[= -> ->]|Hin].
  - rewrite String.eqb_refl. reflexivity.
  - destruct (String.eqb_spec k' k) as [->|Hne]; [|apply IH; assumption].
    exfalso. apply Hk'. apply list_elem_of_In.
    change k with (fst (k, n)). apply in_map, Hin.
Qed.

Lemma get_count_in counter k :
  1 <= get_count k counter -> In (k, get_count k counter) counter.
Proof.
  induction counter as [|[k' c] rest IH]; simpl; [lia|].
  destruct (String.eqb_spec k' k) as [->|Hne]; auto.
Qed.

Lemma insert_desc_perm p l : Permutation (insert_desc p l) (p :: l).
Proof.
  induction l as [|q l IH]; simpl; [reflexivity|].
  destruct (p.2 <=? q.2); [|reflexivity]. rewrite IH. apply perm_swap.
Qed.

Lemma insert_desc_sorted p l :
  StronglySorted at_least l -> StronglySorted at_least (insert_desc p l).
Proof.
  induction 1 as [|q l Hl IH Hq]; simpl; [repeat constructor|].
  destruct (Nat.leb_spec p.2 q.2) as [Hle|Hlt].
  - constructor; [assumption|].
    apply Forall_forall. intros r Hr. apply list_elem_of_In in Hr.
    apply (Permutation_in _ (insert_desc_perm p l)) in Hr as [<-|Hr]; [exact Hle|].
    rewrite Forall_forall in Hq. apply Hq, list_elem_of_In, Hr.
  - constructor; [constructor; assumption|].
    constructor; [unfold at_least; lia|].
    eapply Forall_impl; [exact Hq|]. unfold at_least. intros r Hr. lia.
Qed.

Lemma sorted_desc_spec items : forall acc,
  StronglySorted at_least acc ->
  StronglySorted at_least (fold_left (fun a p => insert_desc p a) items acc)
  /\ Permutation (fold_left (fun a p => insert_desc p a) items acc) (acc ++ items).
Proof.
  induction items as [|p items IH]; intros acc Hacc; simpl.
  - rewrite app_nil_r. auto.
  - destruct (IH (insert_desc p acc) (insert_desc_sorted p acc Hacc)) as [Hs Hp].
    split; [assumption|]. rewrite Hp, insert_desc_perm.
    change (p :: acc) with ([p] ++ acc).
    rewrite (Permutation_app_comm [p] acc), <- app_assoc. reflexivity.
Qed.

Lemma sorted_app {A} (R : A -> A -> Prop) (l1 l2 : list A) :
  StronglySorted R (l1 ++ l2) ->
  StronglySorted R l1 /\ forall x y, In x l1 -> In y l2 -> R x y.
Proof.
  induction l1 as [|a l1 IH]; simpl; intros Hs.
  - split; [constructor|]. intros x y [].
  - apply StronglySorted_inv in Hs as [Hs Ha]. destruct (IH Hs) as [Hs1 Hx].
    split.
    + constructor; [assumption|]. apply Forall_app in Ha as [Ha _]. exact Ha.
    + intros x y [<-|Hin] Hy; [|auto].
      rewrite Forall_forall in Ha. apply Ha, list_elem_of_In, in_or_app. auto.
Qed.

(** What [most_common] returns, for a counter whose keys are distinct. *)
Lemma most_common_spec counter n :
  NoDup (map fst counter) ->
  length (most_common counter n) <= Z.to_nat n
  /\ NoDup (map fst (most_common counter n))
  /\ (forall p, In p (most_common counter n) -> In p counter)
  /\ StronglySorted at_least (most_common counter n)
  /\ (forall p q, In p (most_common counter n) -> In q counter ->
        ~ In q (most_common counter n) -> q.2 <= p.2).
Proof.
  intros Hnd. unfold most_common, sorted_desc.
  destruct (sorted_desc_spec counter []) as [Hs Hp]; [constructor|]. simpl in Hp.
  set (sorted := fold_left _ counter []) in *.
  rewrite <- (take_drop (Z.to_nat n) sorted) in Hs.
  apply sorted_app in Hs as [Hs Hcross].
  split; [rewrite length_take; lia|].
  split.
  { apply (sublist_NoDup _ (map fst sorted)).
    - rewrite Hp. exact Hnd.
    - apply (fmap_sublist fst), sublist_take. }
  split.
  { intros p Hin. apply (Permutation_in _ Hp).
    rewrite <- (take_drop (Z.to_nat n) sorted). apply in_or_app. auto. }
  split; [exact Hs|].
  intros p q Hpin Hq Hnot. apply (Hcross p q Hpin).
  apply (Permutation_in _ (Permutation_sym Hp)) in Hq.
  rewrite <- (take_drop (Z.to_nat n) sorted) in Hq.
  apply in_app_or in Hq as [Hq|Hq]; [contradiction|exact Hq].
Qed.

Lemma Counter_positive tokens : Forall (fun p : string * nat => 1 <= p.2) (Counter tokens).
Proof.
  unfold Counter.
  assert (Hpos : forall toks acc,
             Forall (fun p : string * nat => 1 <= p.2) acc ->
             Forall (fun p : string * nat => 1 <= p.2)
               (fold_left (fun counter token => count_up token counter) toks acc)).
  { induction toks as [|t toks IH]; intros acc Hacc; simpl; [assumption|].
    apply IH. clear IH. induction Hacc as [|[k' c] rest Hc Hrest IH]; simpl.
    - repeat constructor.
    - destruct (String.eqb k' t); constructor; simpl in *; auto; lia. }
  apply Hpos. constructor.
Qed.

Lemma Counter_spec tokens :
  NoDup (map fst (Counter tokens))
  /\ (forall p, In p (Counter tokens) -> p.2 = count_occ string_dec tokens p.1)
  /\ (forall t, In t tokens -> In (t, count_occ string_dec tokens t) (Counter tokens)).
Proof.
  assert (Hnd : NoDup (map fst (Counter tokens))).
  { apply Counter_NoDup. constructor. }
  assert (Hget : forall k, get_count k (Counter tokens) = count_occ string_dec tokens k).
  { intros k. unfold Counter. rewrite Counter_get. reflexivity. }
  split; [exact Hnd|]. split.
  - intros [k n] Hin. simpl. rewrite <- Hget. symmetry. apply get_count_of; assumption.
  - intros t Ht. rewrite <- Hget. apply get_count_in. rewrite Hget.
    apply (count_occ_In string_dec) in Ht. lia.
Qed.

Lemma remove_stopwords_In tokens sw t :
  In t (remove_stopwords tokens (Some sw)) <-> In t tokens /\ lower_str t ∉ sw.
Proof.
  unfold remove_stopwords. rewrite filter_In, bool_decide_eq_true. reflexivity.
Qed.

End KeywordFacts.

(** [extract_keywords] returns at most [top_n] pairs; their keywords are
    pairwise different tokens of the text, none of them a stopword; each
    comes with the number of its occurrences among the tokens that are no
    stopwords; and the pairs are in non-increasing order of that number. *)
Theorem extract_keywords_counts (text : string) (top_n : Z) :
  let tokens := Keywords.remove_stopwords (Preprocessing.tokenize text) None in
  let keywords := Keywords.extract_keywords text top_n in
  length keywords <= Z.to_nat top_n
  /\ NoDup (map fst keywords)
  /\ Forall (fun p => In p.1 (Preprocessing.tokenize text)
                      /\ (Preprocessing.lower_str p.1 ∉ Keywords.default_stopwords)
                      /\ p.2 = count_occ string_dec tokens p.1
                      /\ 1 <= p.2) keywords
  /\ StronglySorted at_least keywords.
Proof.
  intros tokens keywords.
  destruct (Counter_spec tokens) as (Hnd & Hcount & _).
  destruct (most_common_spec (Keywords.Counter tokens) top_n Hnd)
    as (Hlen & Hkeys & Hsub & Hsorted & _).
  fold tokens in Hlen, Hkeys, Hsub, Hsorted.
  split; [exact Hlen|]. split; [exact Hkeys|]. split; [|exact Hsorted].
  apply Forall_forall. intros p Hp. apply list_elem_of_In, Hsub in Hp.
  pose proof (Hcount p Hp) as Hn.
  assert (Hpos : 1 <= p.2).
  { pose proof (Counter_positive tokens) as Hall.
    rewrite Forall_forall in Hall. apply Hall, list_elem_of_In, Hp. }
  assert (Hin : In p.1 tokens).
  { apply (count_occ_In string_dec). lia. }
  apply (remove_stopwords_In _ Keywords.default_stopwords) in Hin as [Hin Hsw].
  auto.
Qed.

(** The keywords are the most frequent: a token that is no stopword and
    is not among the keywords [extract_keywords] returns occurs at most as
    often as each of them. *)
Theorem extract_keywords_most_frequent (text : string) (top_n : Z) (t : string) :
  let tokens := Keywords.remove_stopwords (Preprocessing.tokenize text) None in
  let keywords := Keywords.extract_keywords text top_n in
  In t tokens -> ~ In t (map fst keywords) ->
  Forall (fun p => count_occ string_dec tokens t <= p.2) keywords.
Proof.
  intros tokens keywords Ht Hnot.
  destruct (Counter_spec tokens) as (Hnd & _ & Hall).
  destruct (most_common_spec (Keywords.Counter tokens) top_n Hnd) as (_ & _ & _ & _ & Hbest).
  apply Forall_forall. intros p Hp. apply list_elem_of_In in Hp.
  apply (Hbest p (t, count_occ string_dec tokens t) Hp (Hall t Ht)).
  intros Hin. apply Hnot. change t with (fst (t, count_occ string_dec tokens t)).
  apply in_map, Hin.
Qed.

Lemma extract_keywords_most_frequent_witness :
  Forall (fun p : string * nat => 1 <= p.2) [("b", 2); ("c", 2)].
Proof.
  apply (extract_keywords_most_frequent "b x the b c c" 2 "x").
  - vm_compute. auto.
  - vm_compute. intros [H|[H|[]]]; discriminate.
Defined.
